(** * vedo/pointcloud.py: shape fitters, the Points coordinate store and the
      moving-least-squares smoothers

    A shallow embedding of the numerical core of [vedo/pointcloud.py]:
    [fitLine], [fitPlane], [fitSphere], [fitEllipsoid], [smoothMLS3D], and of
    the class [Points] the coordinate formats of [__init__], [_update],
    [polydata], [points], [updateTrail], the renaming of [deletePoints],
    [averageSize], [centerOfMass], [applyTransform], [normalize], [mirror],
    the look-up table of [pointColors], [closestPoint], [smoothMLS1D] and
    [smoothMLS2D].

    - numpy arrays of shape (N,3) are lists of triples, a Python [float] is a
      scalar of an abstract type [F] carrying the arithmetic the code uses
      ([Scalar]); two instances are given, the real numbers (exact arithmetic,
      used where a property needs the laws of a field) and IEEE binary64
      (the dtype of Python floats, used to run the definitions);
    - what the file calls but does not define is an interface:
      [np.linalg.svd], [np.linalg.lstsq] and [scipy.stats.f.ppf] in
      [Numerics], the VTK point and cell locators in [VtkLocator],
      [scipy.spatial.KDTree] in [KDTree];
    - a Python exception is a [Raise] result, and a method of [Points] is a
      computation in a state-and-exception monad over the actor's fields, in
      which the state survives a raise, as an object does in Python. *)

From Stdlib Require Import Reals Lra Lia ZArith List Bool Psatz.
From Stdlib Require Import Sorted.
From Stdlib Require Import Floats.
From Stdlib Require Uint63.
From Stdlib Require String.
Import ListNotations.

Set Implicit Arguments.

(** ** Python results *)

(** What [colors.printc] is asked to write by the modelled functions. *)
Module Messages.
Import String.
Definition not_enough_points : string :=
  "Warning in fitEllipsoid(): not enough points!"%string.
End Messages.

Inductive exn : Type :=
| IndexError
| ValueError
| AttributeError
| OverflowError
| LinAlgError.

Inductive result (A : Type) : Type :=
| Ok (a : A)
| Raise (e : exn).

Arguments Ok {A} a.
Arguments Raise {A} e.

Definition rbind {A B : Type} (r : result A) (k : A -> result B) : result B :=
  match r with
  | Ok a => k a
  | Raise e => Raise e
  end.

Declare Scope result_scope.
Delimit Scope result_scope with res.
Notation "x <- c ;; k" := (rbind c (fun x => k))
  (at level 61, c at next level, right associativity) : result_scope.
Notation "' p <- c ;; k" := (rbind c (fun x => let 'p := x in k))
  (at level 61, p pattern, c at next level, right associativity) : result_scope.

(** [seq[i]] for a non-negative literal index. *)
Definition index {A : Type} (l : list A) (i : nat) : result A :=
  match nth_error l i with
  | Some a => Ok a
  | None => Raise IndexError
  end.

(** ** Scalars *)

Class Scalar (F : Type) : Type := {
  fzero : F;
  fone : F;
  fadd : F -> F -> F;
  fsub : F -> F -> F;
  fmul : F -> F -> F;
  fdiv : F -> F -> F;
  fsqrt : F -> F;                (* np.sqrt *)
  fmin : F -> F -> F;            (* the binary step of ndarray.min *)
  fmax : F -> F -> F;            (* the binary step of ndarray.max *)
  fis_zero : F -> bool;          (* truth value of a float: [x] is falsy iff x == 0 *)
  of_Z : Z -> F;                 (* int -> float promotion *)
  ftrunc : F -> result Z         (* int(x): truncation toward zero *)
}.

Declare Scope scalar_scope.
Delimit Scope scalar_scope with S.
Infix "+" := fadd : scalar_scope.
Infix "-" := fsub : scalar_scope.
Infix "*" := fmul : scalar_scope.
Infix "/" := fdiv : scalar_scope.

(** *** Exact arithmetic: the real numbers *)

Definition Rtrunc (x : R) : Z :=
  if Rle_dec 0 x then Int_part x else (- Int_part (- x))%Z.

Definition Ris_zero (x : R) : bool :=
  if Req_dec_T x 0 then true else false.

#[export] Instance R_scalar : Scalar R := {
  fzero := 0%R;
  fone := 1%R;
  fadd := Rplus;
  fsub := Rminus;
  fmul := Rmult;
  fdiv := Rdiv;
  fsqrt := R_sqrt.sqrt;
  fmin := Rmin;
  fmax := Rmax;
  fis_zero := Ris_zero;
  of_Z := IZR;
  ftrunc := fun x => Ok (Rtrunc x)
}.

(** *** IEEE binary64: Python's float *)

(** [int(x)] on a float: nan raises ValueError, an infinity OverflowError. *)
Definition float_trunc (x : float) : result Z :=
  match Prim2SF x with
  | S754_zero _ => Ok 0%Z
  | S754_finite s m e =>
      let mag := if (0 <=? e)%Z then (Zpos m * 2 ^ e)%Z
                 else (Zpos m / 2 ^ (- e))%Z in
      Ok (if s then (- mag)%Z else mag)
  | S754_infinity _ => Raise OverflowError
  | S754_nan => Raise ValueError
  end.

(** Exact below 2^53 in magnitude, which covers every array length. *)
Definition float_of_Z (z : Z) : float :=
  match z with
  | Z0 => PrimFloat.zero
  | Zpos _ => PrimFloat.of_uint63 (Uint63.of_Z z)
  | Zneg p => PrimFloat.opp (PrimFloat.of_uint63 (Uint63.of_Z (Zpos p)))
  end.

(** ndarray.min and ndarray.max propagate nan. *)
Definition float_min (x y : float) : float :=
  if PrimFloat.is_nan x then x
  else if PrimFloat.is_nan y then y
  else if PrimFloat.ltb y x then y else x.

Definition float_max (x y : float) : float :=
  if PrimFloat.is_nan x then x
  else if PrimFloat.is_nan y then y
  else if PrimFloat.ltb x y then y else x.

#[export] Instance float_scalar : Scalar float := {
  fzero := PrimFloat.zero;
  fone := PrimFloat.one;
  fadd := PrimFloat.add;
  fsub := PrimFloat.sub;
  fmul := PrimFloat.mul;
  fdiv := PrimFloat.div;
  fsqrt := PrimFloat.sqrt;
  fmin := float_min;
  fmax := float_max;
  fis_zero := fun x => PrimFloat.eqb x PrimFloat.zero;
  of_Z := float_of_Z;
  ftrunc := float_trunc
}.

(** ** Vectors and (N,3) arrays *)

Section Arrays.
Context {F : Type} `{Scalar F}.
Local Open Scope scalar_scope.

Definition point : Type := (F * F * F)%type.

Definition vadd (a b : point) : point :=
  let '(a0, a1, a2) := a in let '(b0, b1, b2) := b in
  (a0 + b0, a1 + b1, a2 + b2).

Definition vsub (a b : point) : point :=
  let '(a0, a1, a2) := a in let '(b0, b1, b2) := b in
  (a0 - b0, a1 - b1, a2 - b2).

(** [a * k] for an array [a] and a scalar [k]. *)
Definition vscale (k : F) (a : point) : point :=
  let '(a0, a1, a2) := a in (a0 * k, a1 * k, a2 * k).

(** [k * a] for a scalar [k] and an array [a]. *)
Definition smul (k : F) (a : point) : point :=
  let '(a0, a1, a2) := a in (k * a0, k * a1, k * a2).

Definition vdiv (a : point) (k : F) : point :=
  let '(a0, a1, a2) := a in (a0 / k, a1 / k, a2 / k).

(** np.dot on two vectors of length 3. *)
Definition dot (a b : point) : F :=
  let '(a0, a1, a2) := a in let '(b0, b1, b2) := b in
  a0 * b0 + a1 * b1 + a2 * b2.

(** np.cross *)
Definition cross (a b : point) : point :=
  let '(a0, a1, a2) := a in let '(b0, b1, b2) := b in
  (a1 * b2 - a2 * b1, a2 * b0 - a0 * b2, a0 * b1 - a1 * b0).

(** np.linalg.norm of a vector *)
Definition norm (a : point) : F := fsqrt (dot a a).

Definition vzero : point := (fzero, fzero, fzero).

(** The column sums of an (N,3) array. *)
Definition vsum (data : list point) : point := fold_left vadd data vzero.

(** [data.mean(axis=0)]: with no rows numpy divides 0 by 0 (and warns). *)
Definition mean (data : list point) : point :=
  vdiv (vsum data) (of_Z (Z.of_nat (length data))).

(** [data - datamean], broadcast over the rows. *)
Definition center_rows (data : list point) (m : point) : list point :=
  map (fun p => vsub p m) data.

Definition vmin (a b : point) : point :=
  let '(a0, a1, a2) := a in let '(b0, b1, b2) := b in
  (fmin a0 b0, fmin a1 b1, fmin a2 b2).

Definition vmax (a b : point) : point :=
  let '(a0, a1, a2) := a in let '(b0, b1, b2) := b in
  (fmax a0 b0, fmax a1 b1, fmax a2 b2).

(** [a.min(axis=0)]: a reduction with no identity, ValueError on no rows. *)
Definition amin (data : list point) : result point :=
  match data with
  | [] => Raise ValueError
  | p :: rest => Ok (fold_left vmin rest p)
  end.

Definition amax (data : list point) : result point :=
  match data with
  | [] => Raise ValueError
  | p :: rest => Ok (fold_left vmax rest p)
  end.

Definition row_of (p : point) : list F :=
  let '(x, y, z) := p in [x; y; z].

Definition point_of (r : list F) : option point :=
  match r with
  | [x; y; z] => Some (x, y, z)
  | _ => None
  end.

End Arrays.

Arguments point F : clear implicits.

(** ** What the module calls and does not define *)

(** numpy and scipy.  An (N,1) column ([f], the solution [C]) is the list of
    its entries, so that [C[i][0]] is the i-th entry. *)
Class Numerics (F : Type) : Type := {
  (** [np.linalg.svd(a)] of an (N,3) array: [(u, s, vh)], with min(N,3)
      singular values in descending order and the three rows of [vh]. *)
  svd : list (point F) -> result (list (list F) * list F * list (point F));
  (** [np.linalg.lstsq(A, f)]: [(C, residue, rank, sv)]. *)
  lstsq : list (list F) -> list F -> result (list F * list F * Z * list F);
  (** [scipy.stats.f.ppf(q, dfn, dfd)] *)
  f_ppf : F -> Z -> Z -> F
}.

(** A vtkPolyData, seen through [GetPoints()]: [None] when the dataset holds
    no vtkPoints object, else the (N,3) coordinate buffer. *)
Definition vtkPolyData (F : Type) : Type := option (list (point F)).

(** VTK's locators.  A locator is represented by the dataset it was built
    over, and a query is a function of that dataset and the query point. *)
Class VtkLocator (F : Type) : Type := {
  (** vtkPointLocator.FindClosestNPoints(N, pt, ids) *)
  FindClosestNPoints : vtkPolyData F -> Z -> point F -> list nat;
  (** vtkPointLocator.FindPointsWithinRadius(radius, pt, ids) *)
  FindPointsWithinRadius : vtkPolyData F -> F -> point F -> list nat;
  (** vtkCellLocator.FindClosestPoint(pt, trgp, cid, subid, dist2): the
      closest point and the id of its cell *)
  FindClosestPoint : vtkPolyData F -> point F -> point F * Z
}.

(** ** The Points actor *)

Section PointsActor.
Context {F : Type} `{Scalar F}.
Local Open Scope scalar_scope.

(** A vtkMatrix4x4, by rows. *)
Definition row4 : Type := (F * F * F * F)%type.
Definition vtkMatrix4x4 : Type := (row4 * row4 * row4 * row4)%type.

(** [vtk.vtkMatrix4x4()] is the identity. *)
Definition identity4 : vtkMatrix4x4 :=
  ((fone, fzero, fzero, fzero),
   (fzero, fone, fzero, fzero),
   (fzero, fzero, fone, fzero),
   (fzero, fzero, fzero, fone)).

(** vtkTransform.TransformPoint for the linear transform of matrix [M]. *)
Definition TransformPoint (M : vtkMatrix4x4) (p : point F) : point F :=
  let '(r0, r1, r2, _) := M in
  let '(x, y, z) := p in
  let app (r : row4) := let '(a, b, c, d) := r in a * x + b * y + c * z + d in
  (app r0, app r1, app r2).

(** vtkTransformPolyDataFilter: a copy of the dataset with every point
    transformed. *)
Definition vtkTransformPolyDataFilter (M : vtkMatrix4x4) (poly : vtkPolyData F)
  : vtkPolyData F :=
  option_map (map (TransformPoint M)) poly.

Definition GetNumberOfPoints (poly : vtkPolyData F) : nat :=
  match poly with
  | Some pts => length pts
  | None => 0
  end.

(** The fields of a [Points] object that the modelled methods read or write.
    [dataset] is the vtkPolyData object held by the mapper; the attribute
    [self._polydata] is either None or that same object ([has_polydata]),
    as the constructor and [polydata] leave it. *)
Record Points : Type := mkPoints {
  dataset : vtkPolyData F;         (* self._mapper.GetInput() *)
  has_polydata : bool;             (* self._polydata is not None *)
  IsIdentity : bool;               (* vtkProp3D::GetIsIdentity() *)
  Matrix : vtkMatrix4x4;           (* vtkProp3D::GetMatrix() *)
  point_locator : option (vtkPolyData F);
  cell_locator : option (vtkPolyData F);
  info_variances : option (list F) (* self.info["variances"] *)
}.

(** *** Methods: state and exceptions *)

Definition Method (A : Type) : Type := Points -> Points * result A.

Definition ret {A : Type} (a : A) : Method A := fun self => (self, Ok a).

Definition raise {A : Type} (e : exn) : Method A := fun self => (self, Raise e).

Definition bind {A B : Type} (c : Method A) (k : A -> Method B) : Method B :=
  fun self =>
    match c self with
    | (self', Ok a) => k a self'
    | (self', Raise e) => (self', Raise e)
    end.

Definition lift {A : Type} (r : result A) : Method A := fun self => (self, r).

Definition get_self : Method Points := fun self => (self, Ok self).

Definition modify (f : Points -> Points) : Method unit := fun self => (f self, Ok tt).

End PointsActor.

Arguments Points F : clear implicits.
Arguments Method F A : clear implicits.
Arguments vtkMatrix4x4 F : clear implicits.

Declare Scope method_scope.
Delimit Scope method_scope with M.
Notation "x <- c ;; k" := (bind c (fun x => k))
  (at level 61, c at next level, right associativity) : method_scope.
Notation "' p <- c ;; k" := (bind c (fun x => let 'p := x in k))
  (at level 61, p pattern, c at next level, right associativity) : method_scope.
Notation "c ;; k" := (bind c (fun _ => k))
  (at level 61, right associativity) : method_scope.

Section Methods.
Context {F : Type} `{Scalar F} `{VtkLocator F}.
Local Open Scope scalar_scope.

(** Line 943: [self._polydata = self._mapper.GetInput()]. *)
Definition bind_polydata (self : Points F) : Points F :=
  mkPoints (dataset self) true (IsIdentity self) (Matrix self)
           (point_locator self) (cell_locator self) (info_variances self).

(** vtkPoints.SetData on the dataset's points. *)
Definition SetData (arr : list (point F)) (self : Points F) : Points F :=
  mkPoints (Some arr) (has_polydata self) (IsIdentity self) (Matrix self)
           (point_locator self) (cell_locator self) (info_variances self).

(** vtkProp3D::PokeMatrix(m), m not null: position, origin, orientation and
    scale are reset and [m] becomes the user matrix, so that GetMatrix()
    returns [m]; SetUserMatrix clears the IsIdentity flag. *)
Definition PokeMatrix (m : vtkMatrix4x4 F) (self : Points F) : Points F :=
  mkPoints (dataset self) (has_polydata self) false m
           (point_locator self) (cell_locator self) (info_variances self).

Definition set_point_locator (loc : vtkPolyData F) (self : Points F) : Points F :=
  mkPoints (dataset self) (has_polydata self) (IsIdentity self) (Matrix self)
           (Some loc) (cell_locator self) (info_variances self).

Definition set_cell_locator (loc : vtkPolyData F) (self : Points F) : Points F :=
  mkPoints (dataset self) (has_polydata self) (IsIdentity self) (Matrix self)
           (point_locator self) (Some loc) (info_variances self).

(** [self.info["variances"] = v] *)
Definition set_info_variances (v : list F) (self : Points F) : Points F :=
  mkPoints (dataset self) (has_polydata self) (IsIdentity self) (Matrix self)
           (point_locator self) (cell_locator self) (Some v).

(** [Points.polydata(transformed)], lines 935-961. *)
Definition polydata (transformed : bool) : Method F (vtkPolyData F) :=
  (self <- get_self ;;
   (if has_polydata self then ret tt else modify bind_polydata) ;;
   self <- get_self ;;
   let poly := dataset self in
   if transformed then
     if IsIdentity self || (GetNumberOfPoints poly =? 0)%nat then
       (* no need to do much *)
       ret poly
     else
       (* a copy that corresponds to the actual position in space *)
       let M := Matrix self in
       ret (vtkTransformPolyDataFilter M poly)
   else
     ret poly)%M.

(** The getter branch of [Points.points], lines 975-985: the coordinates as
    an (N,3) array, [np.array([])] when the dataset holds no vtkPoints.
    ([copy] only decides whether the result aliases the buffer.) *)
Definition points_get (transformed : bool) : Method F (list (point F)) :=
  (poly <- polydata transformed ;;
   match poly with
   | Some vpts => ret vpts
   | None => ret []
   end)%M.

(** [np.stack((c0, c1, c2), axis=1)] on three sequences of numbers. *)
Fixpoint zip3 (c0 c1 c2 : list F) : list (point F) :=
  match c0, c1, c2 with
  | x :: c0', y :: c1', z :: c2' => (x, y, z) :: zip3 c0' c1' c2'
  | _, _, _ => []
  end.

Definition np_stack3 (c0 c1 c2 : list F) : result (list (point F)) :=
  if (length c0 =? length c1)%nat && (length c1 =? length c2)%nat
  then Ok (zip3 c0 c1 c2)
  else Raise ValueError.

(** [np.ascontiguousarray(pts)] on a non-empty sequence of sequences of
    numbers, read by what [vtkPoints.SetData] does with it: ragged rows are a
    ValueError; an (N,3) array is [Some] buffer; with another number of
    components VTK reports an error and keeps the old data ([None]). *)
Fixpoint rows3 (pts : list (list F)) : option (list (point F)) :=
  match pts with
  | [] => Some []
  | r :: rest =>
      match point_of r, rows3 rest with
      | Some p, Some ps => Some (p :: ps)
      | _, _ => None
      end
  end.

Definition rectangular (pts : list (list F)) : bool :=
  match pts with
  | [] => true
  | r :: rest => forallb (fun r' => (length r' =? length r)%nat) rest
  end.

Definition np_ascontiguousarray (pts : list (list F))
  : result (option (list (point F))) :=
  if rectangular pts then Ok (rows3 pts) else Raise ValueError.

Inductive points_ret : Type :=
| Array (a : list (point F))   (* the getter's array *)
| Self.                        (* the setter returns self *)

(** [Points.points(pts, transformed)], lines 964-1001.  [pts] is None or a
    sequence of sequences of numbers; the branch for an index or a list of
    indices (line 987-989) is taken only by arguments outside this type,
    except that its test evaluates [pts[0]]. *)
Definition points (pts : option (list (list F))) (transformed : bool)
  : Method F points_ret :=
  match pts with
  | None => (* getter *)
      (a <- points_get transformed ;; ret (Array a))%M
  | Some pts =>
      (pts0 <- lift (index pts 0) ;;   (* utils.isSequence(pts[0]) *)
       (* setter *)
       stacked <- lift (if (length pts =? 3)%nat && negb (length pts0 =? 3)%nat then
                          (* assume plist is in the format [all_x, all_y, all_z] *)
                          (pts1 <- index pts 1 ;;
                           pts2 <- index pts 2 ;;
                           a <- np_stack3 pts0 pts1 pts2 ;;
                           Ok (Some a))%res
                        else Ok None) ;;
       self <- get_self ;;
       if negb (has_polydata self) then raise AttributeError (* None.GetPoints() *)
       else
         let vpts := dataset self in
         match vpts with
         | None => raise AttributeError                (* None.SetData *)
         | Some _ =>
             arr <- lift (match stacked with
                          | Some a => Ok (Some a)
                          | None => np_ascontiguousarray pts
                          end) ;;
             (match arr with
              | Some a => modify (SetData a)
              | None => ret tt
              end) ;;
             (* reset mesh to identity matrix position/rotation: *)
             modify (PokeMatrix identity4) ;;
             ret Self
         end)%M
  end.

(** What [closestPoint] returns with [returnIds=False], as both smoothers
    call it: an (n,3) array of points from the point locator, or the single
    closest point, an array of shape (3,), from the cell locator. *)
Inductive closest : Type :=
| Many (trgp : list (point F))
| One (trgp : point F).

(** Truth value of the [radius] argument: None and 0 are falsy. *)
Definition truthy (radius : option F) : bool :=
  match radius with
  | Some r => negb (fis_zero r)
  | None => false
  end.

(** [Points.closestPoint(pt, N, radius)], lines 1872-1928.  An id that the
    dataset does not hold reads as the initial [0, 0, 0] of [trgp_]. *)
Definition closestPoint (pt : point F) (N : Z) (radius : option F)
  : Method F closest :=
  (poly <- polydata true ;;
   if (1 <? N)%Z || truthy radius then
     self <- get_self ;;
     (match point_locator self with
      | None => modify (set_point_locator poly)
      | Some _ => ret tt
      end) ;;
     self <- get_self ;;
     let loc := match point_locator self with Some l => l | None => poly end in
     let vtklist :=
       if (1 <? N)%Z then FindClosestNPoints loc N pt
       else match radius with
            | Some r => FindPointsWithinRadius loc r pt
            | None => []
            end in
     match vtklist with
     | [] => ret (Many [])
     | _ :: _ =>
         match poly with
         | None => raise AttributeError                (* None.GetPoint(...) *)
         | Some vpts => ret (Many (map (fun vi => nth vi vpts vzero) vtklist))
         end
     end
   else
     self <- get_self ;;
     (match cell_locator self with
      | None => modify (set_cell_locator poly)
      | Some _ => ret tt
      end) ;;
     self <- get_self ;;
     let loc := match cell_locator self with Some l => l | None => poly end in
     ret (One (fst (FindClosestPoint loc pt))))%M.

End Methods.

Arguments points_ret F : clear implicits.
Arguments closest F : clear implicits.

(** ** The shape fitters *)

Section Fitters.
Context {F : Type} `{Scalar F} `{Numerics F}.
Local Open Scope scalar_scope.

(** The argument of a fitter after its [isinstance(points, Points)] test: a
    [Points] object, read through [points.points()], or an ndarray of shape
    (N,3).  (A plain Python list is not in this type: [fitLine] and
    [fitPlane] call the ndarray methods [min] and [max] on the argument.) *)
Inductive fit_input : Type :=
| OfPoints (points : Points F)
| OfArray (points : list (point F)).

Definition input_coords (points : fit_input) : list (point F) :=
  match points with
  | OfPoints self =>
      match snd (points_get true self) with
      | Ok a => a
      | Raise _ => []
      end
  | OfArray a => a
  end.

(** [vedo.shapes.Line(p1, p2)] with the attributes [fitLine] stores. *)
Record Line : Type := mkLine {
  line_p1 : point F;
  line_p2 : point F;
  slope : point F;
  line_center : point F;
  line_variances : list F
}.

(** [fitLine(points)], lines 446-472. *)
Definition fitLine (points : fit_input) : result Line :=
  (let points := input_coords points in
   let data := points in
   let datamean := mean data in
   '(uu, dd, vv) <- svd (center_rows data datamean) ;;
   vv0 <- index vv 0 ;;
   let vv := vdiv vv0 (norm vv0) in
   (* vv contains the first principal component *)
   xyz_min <- amin points ;;
   xyz_max <- amax points ;;
   let a := norm (vsub xyz_min datamean) in
   let b := norm (vsub xyz_max datamean) in
   let p1 := vsub datamean (smul a vv) in
   let p2 := vadd datamean (smul b vv) in
   Ok (mkLine p1 p2 vv datamean dd))%res.

(** [vedo.shapes.Plane(pos, normal, sx, sy)] with the attributes [fitPlane]
    stores. *)
Record Plane : Type := mkPlane {
  plane_pos : point F;
  plane_sx : F;
  plane_sy : F;
  normal : point F;
  plane_center : point F;
  variance : F
}.

(** [fitPlane(points)], lines 475-498. *)
Definition fitPlane (points : fit_input) : result Plane :=
  (let points := input_coords points in
   let data := points in
   let datamean := mean data in
   '(_, dd, vv) <- svd (center_rows data datamean) ;;
   vv0 <- index vv 0 ;;
   vv1 <- index vv 1 ;;
   let n := cross vv0 vv1 in
   xyz_min <- amin points ;;
   xyz_max <- amax points ;;
   let s := norm (vsub xyz_max xyz_min) in
   dd2 <- index dd 2 ;;
   Ok (mkPlane datamean s s n datamean dd2))%res.

(** [vedo.shapes.Sphere(center, radius)] with the attributes [fitSphere]
    stores. *)
Record Sphere : Type := mkSphere {
  sphere_radius : F;
  sphere_center : point F;
  residue : F
}.

(** The coefficient matrix and right-hand side of lines 514-522. *)
Definition sphere_A (coords : list (point F)) : list (list F) :=
  map (fun c => let '(x2, y2, z2) := vscale (of_Z 2) c in [x2; y2; z2; fone]) coords.

Definition sphere_f (coords : list (point F)) : list F :=
  map (fun c => let '(x, y, z) := c in x * x + y * y + z * z) coords.

(** [fitSphere(coords)], lines 501-538. *)
Definition fitSphere (coords : fit_input) : result (option Sphere) :=
  (let coords := input_coords coords in
   let n := length coords in
   let A := sphere_A coords in
   let f := sphere_f coords in
   '(C, residue, rank, sv) <- lstsq A f ;;   (* solve AC=f *)
   if (rank <? 4)%Z then Ok None
   else
     C0 <- index C 0 ;;
     C1 <- index C 1 ;;
     C2 <- index C 2 ;;
     C3 <- index C 3 ;;
     let t := (C0 * C0) + (C1 * C1) + (C2 * C2) + C3 in
     let radius := fsqrt t in
     let center := (C0, C1, C2) in
     let residue := match residue with
                    | r0 :: _ => fsqrt r0 / of_Z (Z.of_nat n)
                    | [] => fzero
                    end in
     Ok (Some (mkSphere radius center residue)))%res.

(** The attributes [fitEllipsoid] stores on the ellipsoid it returns. *)
Record Ellipsoid : Type := mkEllipsoid {
  nr_of_points : nat;
  va : F;
  vb : F;
  vc : F;
  axis1 : point F;
  axis2 : point F;
  axis3 : point F;
  transformation : vtkMatrix4x4 F
}.

(** [np.cov(P, rowvar=0)] of an (N,3) array: the rows are centred, the
    products summed and scaled by 1/(N-1). *)
Definition np_cov (P : list (point F)) : list (point F) :=
  let X := center_rows P (mean P) in
  let fact := of_Z (Z.of_nat (length P) - 1) in
  let entry (g h : point F -> F) :=
    fold_left (fun acc x => acc + g x * h x) X fzero * (fone / fact) in
  let c0 (p : point F) := fst (fst p) in
  let c1 (p : point F) := snd (fst p) in
  let c2 (p : point F) := snd p in
  [ (entry c0 c0, entry c0 c1, entry c0 c2);
    (entry c1 c0, entry c1 c1, entry c1 c2);
    (entry c2 c0, entry c2 c1, entry c2 c2) ].


(** [fitEllipsoid(points, pvalue)], lines 541-601: what [colors.printc]
    wrote, and the result. *)
Definition fitEllipsoid (points : fit_input) (pvalue : F)
  : list String.string * result (option Ellipsoid) :=
  let coords := input_coords points in
  if (length coords <? 4)%nat then
    ([Messages.not_enough_points], Ok None)
  else
    ([],
     (let P := coords in
      let cov := np_cov P in                (* covariance matrix *)
      '(U, s, R) <- svd cov ;;              (* singular value decomposition *)
      let p := Z.of_nat (length s) in
      let n := Z.of_nat (length P) in
      let fppf := f_ppf pvalue p (n - p) * of_Z (n - 1) * of_Z p * of_Z (n + 1)
                  / of_Z n / of_Z (n - p) in    (* f % point function *)
      let cfac := fone + of_Z 6 / of_Z (n - 1) in (* correction factor *)
      match map (fun si => fsqrt (si * fppf) / cfac) s with
      | [ua; ub; uc] =>                     (* semi-axes (largest first) *)
          let center := mean P in           (* centroid of the hyperellipsoid *)
          R0 <- index R 0 ;;
          R1 <- index R 1 ;;
          R2 <- index R 2 ;;
          let '(R00, R01, R02) := R0 in
          let '(R10, R11, R12) := R1 in
          let '(R20, R21, R22) := R2 in
          let '(center0, center1, center2) := center in
          let two := of_Z 2 in
          let matri : vtkMatrix4x4 F :=
            ((R00 * ua * two, R10 * ub * two, R20 * uc * two, center0),
             (R01 * ua * two, R11 * ub * two, R21 * uc * two, center1),
             (R02 * ua * two, R12 * ub * two, R22 * uc * two, center2),
             (fzero, fzero, fzero, fone)) in
          Ok (Some (mkEllipsoid (length P) ua ub uc
                      (TransformPoint matri (fone, fzero, fzero))
                      (TransformPoint matri (fzero, fone, fzero))
                      (TransformPoint matri (fzero, fzero, fone))
                      matri))
      | _ => Raise ValueError               (* unpacking ua, ub, uc *)
      end)%res).

End Fitters.

Arguments fit_input F : clear implicits.
Arguments Line F : clear implicits.
Arguments Plane F : clear implicits.
Arguments Sphere F : clear implicits.
Arguments Ellipsoid F : clear implicits.

(** ** The moving-least-squares smoothers *)

Section Smoothers.
Context {F : Type} `{Scalar F} `{Numerics F} `{VtkLocator F}.
Local Open Scope scalar_scope.

(** Lines 1947-1953 and 1988-1994: the neighbourhood size, with the divisor
    [d] that is 10 in [smoothMLS1D] and 100 in [smoothMLS2D].  (The message
    printed when the size is raised to 5 goes to the terminal only.) *)
Definition neighbourhood_size (d : Z) (ncoords : nat) (f : F) (radius : option F)
  : result Z :=
  if truthy radius then Ok 0%Z
  else
    (Ncp <- ftrunc (of_Z (Z.of_nat ncoords) * f / of_Z d) ;;
     if (Ncp <? 5)%Z then Ok 5%Z else Ok Ncp)%res.

(** The loop of [smoothMLS1D], lines 1955-1967, over the coordinates still to
    visit, with the two lists it appends to. *)
Fixpoint smoothMLS1D_loop (Ncp : Z) (radius : option F) (coords : list (point F))
  (variances : list F) (newline : list (point F))
  : Method F (list F * list (point F)) :=
  match coords with
  | [] => ret (variances, newline)
  | p :: rest =>
      (found <- closestPoint p Ncp radius ;;
       match found with
       | Many points =>
           if (length points <? 4)%nat then
             (* continue *)
             smoothMLS1D_loop Ncp radius rest variances newline
           else
             let pointsmean := mean points in  (* plane center *)
             '(uu, dd, vv) <- lift (svd (center_rows points pointsmean)) ;;
             vv0 <- lift (index vv 0) ;;
             let newp := vadd (smul (dot (vsub p pointsmean) vv0) vv0) pointsmean in
             dd1 <- lift (index dd 1) ;;
             dd2 <- lift (index dd 2) ;;
             smoothMLS1D_loop Ncp radius rest
               (variances ++ [dd1 + dd2]) (newline ++ [newp])
       | One _ =>
           (* an array of shape (3,) has length 3 < 4: continue *)
           smoothMLS1D_loop Ncp radius rest variances newline
       end)%M
  end.

(** [Points.smoothMLS1D(f, radius)], lines 1931-1970. *)
Definition smoothMLS1D (f : F) (radius : option F) : Method F (points_ret F) :=
  (coords <- points_get true ;;
   let ncoords := length coords in
   Ncp <- lift (neighbourhood_size 10 ncoords f radius) ;;
   '(variances, newline) <- smoothMLS1D_loop Ncp radius coords [] [] ;;
   modify (set_info_variances variances) ;;
   points (Some (map row_of newline)) true)%M.

(** The loop of [smoothMLS2D], lines 1996-2011. *)
Fixpoint smoothMLS2D_loop (Ncp : Z) (radius : option F) (coords : list (point F))
  (variances : list F) (newpts : list (point F))
  : Method F (list F * list (point F)) :=
  match coords with
  | [] => ret (variances, newpts)
  | p :: rest =>
      (found <- closestPoint p Ncp radius ;;
       match found with
       | Many pts =>
           if truthy radius && (length pts <? 5)%nat then
             (* continue *)
             smoothMLS2D_loop Ncp radius rest variances newpts
           else
             let ptsmean := mean pts in  (* plane center *)
             '(_, dd, vv) <- lift (svd (center_rows pts ptsmean)) ;;
             vv0 <- lift (index vv 0) ;;
             vv1 <- lift (index vv 1) ;;
             let cv := cross vv0 vv1 in
             let t := (dot cv ptsmean - dot cv p) / dot cv cv in
             let newp := vadd p (vscale t cv) in
             dd2 <- lift (index dd 2) ;;
             smoothMLS2D_loop Ncp radius rest
               (variances ++ [dd2]) (newpts ++ [newp])
       | One _ =>
           (* np.linalg.svd refuses an array of one dimension *)
           raise LinAlgError
       end)%M
  end.

(** [Points.smoothMLS2D(f, radius)], lines 1973-2014. *)
Definition smoothMLS2D (f : F) (radius : option F) : Method F (points_ret F) :=
  (coords <- points_get true ;;
   let ncoords := length coords in
   Ncp <- lift (neighbourhood_size 100 ncoords f radius) ;;
   '(variances, newpts) <- smoothMLS2D_loop Ncp radius coords [] [] ;;
   modify (set_info_variances variances) ;;
   points (Some (map row_of newpts)) true)%M.

End Smoothers.

(** ** Oracles standing for numpy and VTK *)

Section Oracles.
Context {F : Type} `{Scalar F}.

(** An oracle that answers every call with a recorded output. *)
Definition recorded_numerics
  (svd_out : result (list (list F) * list F * list (point F)))
  (lstsq_out : result (list F * list F * Z * list F))
  (ppf_out : F) : Numerics F :=
  {| svd := fun _ => svd_out;
     lstsq := fun _ _ => lstsq_out;
     f_ppf := fun _ _ _ => ppf_out |}.

(** An oracle with numpy's output shapes and no more: min(N,3) singular
    values and a 3x3 [vh]. *)
Definition shape_numerics : Numerics F :=
  {| svd := fun a =>
       Ok ([], repeat fzero (Nat.min (length a) 3),
           [(fone, fzero, fzero); (fzero, fone, fzero); (fzero, fzero, fone)]);
     lstsq := fun _ _ => Ok (repeat fzero 4, [], 0%Z, []);
     f_ppf := fun _ _ _ => fone |}.

(** A locator that answers with the first ids of its dataset. *)
Definition scan_locator : VtkLocator F :=
  {| FindClosestNPoints := fun loc N _ =>
       seq 0 (Nat.min (Z.to_nat N) (GetNumberOfPoints loc));
     FindPointsWithinRadius := fun loc _ _ => seq 0 (GetNumberOfPoints loc);
     FindClosestPoint := fun loc pt =>
       (nth 0 (match loc with Some l => l | None => [] end) vzero, 0%Z) |}.

(** A [Points] object as its constructor leaves it for a coordinate list:
    the mapper holds the dataset, [_polydata] is still None, no pose, no
    locator. *)
Definition new_Points (coords : list (point F)) : Points F :=
  mkPoints (Some coords) false true identity4 None None None.

End Oracles.


(** ** Transformations of the stored coordinates *)

Section Transforms.
Context {F : Type} `{Scalar F}.
Local Open Scope scalar_scope.

(** [Points._update(polydata)], lines 883-888: the new dataset becomes both
    [self._polydata] and the input of the mapper.  The cached locators are
    not touched. *)
Definition _update (polydata : vtkPolyData F) (self : Points F) : Points F :=
  mkPoints polydata true (IsIdentity self) (Matrix self)
           (point_locator self) (cell_locator self) (info_variances self).

(** [Points.applyTransform(transformation)], lines 1628-1643, for a
    vtkMatrix4x4 or the linear vtkTransform of that matrix. *)
Definition applyTransform (transformation : vtkMatrix4x4 F) : Method F unit :=
  (poly <- polydata true ;;
   let out := vtkTransformPolyDataFilter transformation poly in
   modify (PokeMatrix identity4) ;;  (* identity *)
   modify (_update out))%M.

(** [vtkTransform().Scale(sx, sy, sz)]: the matrix of the scaling. *)
Definition Scale (sx sy sz : F) : vtkMatrix4x4 F :=
  ((sx, fzero, fzero, fzero),
   (fzero, sy, fzero, fzero),
   (fzero, fzero, sz, fzero),
   (fzero, fzero, fzero, fone)).

(** [a * b] on two arrays of shape (3,). *)
Definition vmul (a b : point F) : point F :=
  let '(a0, a1, a2) := a in let '(b0, b1, b2) := b in
  (a0 * b0, a1 * b1, a2 * b2).

(** [np.sum] of an array of shape (3,). *)
Definition sum3 (a : point F) : F := let '(a0, a1, a2) := a in a0 + a1 + a2.

(** [Points.normalize()], lines 1646-1663.  The scale is computed from the
    coordinates under the pose and applied to the stored ones. *)
Definition normalize : Method F unit :=
  (coords <- points_get true ;;
   if (length coords =? 0)%nat then ret tt
   else
     let cm := mean coords in
     let pts := center_rows coords cm in
     let xyz2 := vsum (map (fun p => vmul p p) pts) in
     let scale := fone / fsqrt (sum3 xyz2 / of_Z (Z.of_nat (length pts))) in
     self <- get_self ;;
     let t := Scale scale scale scale in
     modify (_update (vtkTransformPolyDataFilter t (dataset self))))%M.

(** The axis argument of [mirror] after [axis.lower()]; any other string
    raises RuntimeError before the object is touched. *)
Inductive axis : Type := AxisX | AxisY | AxisZ | AxisN.

(** [Points.mirror(axis)], lines 1666-1698.  vtkReverseSense reorders the
    cells and leaves the coordinates as they are. *)
Definition mirror (a : axis) : Method F unit :=
  (let one := of_Z 1 in
   let '(sx, sy, sz) := match a with
                        | AxisX => (of_Z (-1), one, one)
                        | AxisY => (one, of_Z (-1), one)
                        | AxisZ => (one, one, of_Z (-1))
                        | AxisN => (one, one, one)
                        end in
   self <- get_self ;;
   (* with [self._polydata] still None the filter has no input: VTK reports
      an error and the output is an empty vtkPolyData *)
   let input := if has_polydata self then dataset self else None in
   modify (_update (vtkTransformPolyDataFilter (Scale sx sy sz) input)))%M.

(** vtkCenterOfMass with unit weights: the mean of the points, and the
    initial centre (0, 0, 0) when the input has no point. *)
Definition vtkCenterOfMass (poly : vtkPolyData F) : point F :=
  match poly with
  | Some pts => match pts with
                | [] => vzero
                | _ :: _ => mean pts
                end
  | None => vzero
  end.

(** [Points.centerOfMass()], lines 1382-1391. *)
Definition centerOfMass : Method F (point F) :=
  (poly <- polydata true ;; ret (vtkCenterOfMass poly))%M.

(** [np.mean] of an array of shape (N,), the additions taken in the order
    of the array. *)
Definition mean1 (l : list F) : F :=
  fold_left fadd l fzero / of_Z (Z.of_nat (length l)).

(** [Points.averageSize()], lines 1372-1380. *)
Definition averageSize : Method F F :=
  (cm <- centerOfMass ;;
   coords <- points_get true ;;
   if (length coords =? 0)%nat then ret fzero
   else
     let cc := center_rows coords cm in
     ret (mean1 (map norm cc)))%M.

End Transforms.

(** ** deletePoints: the renaming of the points *)

Section Renumbering.
Context {F : Type} `{Scalar F}.

(** A Python loop that appends [f x] for each [x]: the first exception ends
    it. *)
Fixpoint mapM {A B : Type} (f : A -> result B) (l : list A) : result (list B) :=
  match l with
  | [] => Ok []
  | x :: rest => (y <- f x ;; ys <- mapM f rest ;; Ok (y :: ys))%res
  end.

(** [np.unique] of an array of vertex ids, flattened: the sorted distinct
    ids. *)
Fixpoint insert_unique (i : nat) (l : list nat) : list nat :=
  match l with
  | [] => [i]
  | j :: rest =>
      if (i <? j)%nat then i :: l
      else if (i =? j)%nat then l
      else j :: insert_unique i rest
  end.

Definition np_unique (ids : list nat) : list nat := fold_right insert_unique [] ids.

(** [np.where(pts_inds == i)[0][0]]: the first position of [i], IndexError
    when there is none. *)
Fixpoint where_first (pts_inds : list nat) (i : nat) : result nat :=
  match pts_inds with
  | [] => Raise IndexError
  | j :: rest =>
      if (j =? i)%nat then Ok 0%nat
      else (idx <- where_first rest i ;; Ok (S idx))%res
  end.

(** The branch [if renamePoints:] of [Points.deletePoints], lines 1217-1231,
    as a function of [faces], the value of [self.faces()] once the flagged
    cells are removed: an (M,k) array of vertex ids.  It returns the faces
    given to [utils.buildPolyData]; the points given to it become the
    dataset.  Faces of different sizes do not make an integer array, and no
    vertex id at all makes [np.unique] return a float array: the lookups, or
    the indexing of [coords], then raise IndexError. *)
Definition deletePoints_rename (faces : list (list nat)) : Method F (list (list nat)) :=
  (coords <- points_get false ;;
   if negb (rectangular faces) then raise IndexError
   else
     let pts_inds := np_unique (concat faces) in (* flattened array *)
     newfaces <- lift (mapM (fun f => mapM (fun i => where_first pts_inds i) f) faces) ;;
     match pts_inds with
     | [] => raise IndexError
     | _ :: _ =>
         newcoords <- lift (mapM (fun i => index coords i) pts_inds) ;;
         modify (_update (Some newcoords)) ;;
         ret newfaces
     end)%M.

End Renumbering.

(** ** smoothMLS3D: smoothing in space and time *)

Section SpaceTime.
Context {F : Type} `{Scalar F}.
Local Open Scope scalar_scope.

(** A row of an (N,4) array: a point and its time. *)
Definition point4 : Type := (F * F * F * F)%type.

Definition vsub4 (a b : point4) : point4 :=
  let '(a0, a1, a2, a3) := a in let '(b0, b1, b2, b3) := b in
  (a0 - b0, a1 - b1, a2 - b2, a3 - b3).

Definition vadd4 (a b : point4) : point4 :=
  let '(a0, a1, a2, a3) := a in let '(b0, b1, b2, b3) := b in
  (a0 + b0, a1 + b1, a2 + b2, a3 + b3).

Definition smul4 (k : F) (a : point4) : point4 :=
  let '(a0, a1, a2, a3) := a in (k * a0, k * a1, k * a2, k * a3).

Definition vdiv4 (a : point4) (k : F) : point4 :=
  let '(a0, a1, a2, a3) := a in (a0 / k, a1 / k, a2 / k, a3 / k).

Definition dot4 (a b : point4) : F :=
  let '(a0, a1, a2, a3) := a in let '(b0, b1, b2, b3) := b in
  a0 * b0 + a1 * b1 + a2 * b2 + a3 * b3.

Definition norm4 (a : point4) : F := fsqrt (dot4 a a).

Definition mean4 (data : list point4) : point4 :=
  vdiv4 (fold_left vadd4 data (fzero, fzero, fzero, fzero))
        (of_Z (Z.of_nat (length data))).

Definition row_of4 (p : point4) : list F :=
  let '(x, y, z, t) := p in [x; y; z; t].

(** [np.append(coords3d, [[time]] * n, axis=1)]: with no row the two arrays
    differ in dimension and numpy raises ValueError. *)
Definition append_time (coords3d : list (point F)) (time : F) : result (list point4) :=
  match coords3d with
  | [] => Raise ValueError
  | _ :: _ => Ok (map (fun p => let '(x, y, z) := p in (x, y, z, time)) coords3d)
  end.

(** The second component of [kd.query(x, k)]: one index for k = 1, an array
    of indices otherwise. *)
Inductive kd_ids : Type :=
| OneId (i : nat)
| Ids (l : list nat).

End SpaceTime.

Arguments point4 F : clear implicits.

(** scipy.spatial.KDTree *)
Class KDTree (F : Type) : Type := {
  (** [KDTree(data, leafsize)]: what the constructor raises, if anything *)
  kd_build : list (point4 F) -> Z -> result unit;
  (** [KDTree(data, leafsize).query(x, k)[1]] *)
  kd_query : list (point4 F) -> Z -> point4 F -> Z -> result kd_ids
}.

Section MLS3D.
Context {F : Type} `{Scalar F} `{Numerics F} `{KDTree F}.
Local Open Scope scalar_scope.

(** Lines 143-148: the list of 4d coordinates of the meshes, each with its
    [time()]. *)
Fixpoint build_coords4d (meshs : list (Points F * F)) : result (list (point4 F)) :=
  match meshs with
  | [] => Ok []
  | (a, time) :: rest =>
      (let coords3d := input_coords (OfPoints a) in
       rows <- append_time coords3d time ;;
       more <- build_coords4d rest ;;
       Ok (rows ++ more))%res
  end.

(** [coords4d[iclosest]] and its [len]: one index selects a row, an array
    of shape (4,). *)
Definition closest_rows (coords4d : list (point4 F)) (iclosest : kd_ids)
  : result (list (point4 F) * nat) :=
  match iclosest with
  | OneId i => (row <- index coords4d i ;; Ok ([row], 4%nat))%res
  | Ids l => (rows <- mapM (fun i => index coords4d i) l ;; Ok (rows, length rows))%res
  end.

(** The loop of lines 159-182 over the points still to visit. *)
Fixpoint smoothMLS3D_loop (coords4d : list (point4 F)) (neighbours : Z)
  (todo : list (point4 F)) (newcoords4d : list (point4 F)) : result (list (point4 F)) :=
  match todo with
  | [] => Ok newcoords4d
  | mypt :: rest =>
      (iclosest <- kd_query coords4d neighbours mypt neighbours ;;
       '(closest, nc) <- closest_rows coords4d iclosest ;;
       if (neighbours <=? Z.of_nat nc)%Z && (5 <? nc)%nat then
         '(m, _, _, _) <- lstsq (map row_of4 closest) (repeat fone nc) ;;
         m <- match m with
              | [m0; m1; m2; m3] => Ok (m0, m1, m2, m3)
              | _ => Raise ValueError    (* np.dot: shapes not aligned *)
              end ;;
         let vers := vdiv4 m (norm4 m) in
         let hpcenter := mean4 closest in  (* hyperplane center *)
         let dist := dot4 (vsub4 mypt hpcenter) vers in
         let projpt := vsub4 mypt (smul4 dist vers) in
         smoothMLS3D_loop coords4d neighbours rest (newcoords4d ++ [projpt])
       else
         smoothMLS3D_loop coords4d neighbours rest newcoords4d)%res
  end.

(** [smoothMLS3D(meshs, neighbours)], lines 129-189, for meshes given with
    their [time()].  The result is the object built over the smoothed
    coordinates, as [pointColors] leaves it once it has read the dataset,
    and the array of smoothed times that colours it. *)
Definition smoothMLS3D (meshs : list (Points F * F)) (neighbours : Z)
  : result (Points F * list F) :=
  (coords4d <- build_coords4d meshs ;;
   match meshs with
   | [] => Raise IndexError             (* meshs[-1] *)
   | _ :: _ =>
       _ <- kd_build coords4d neighbours ;;
       newcoords4d <- smoothMLS3D_loop coords4d neighbours coords4d [] ;;
       match newcoords4d with
       | [] => Raise IndexError         (* newcoords4d[:, 3] on an array of shape (0,) *)
       | _ :: _ =>
           let ctimes := map (fun p : point4 F => let '(_, _, _, t) := p in t) newcoords4d in
           let ccoords3d := map (fun p : point4 F => let '(x, y, z, _) := p in (x, y, z))
                                newcoords4d in  (* get rid of time *)
           let act := new_Points ccoords3d in
           Ok (bind_polydata act, ctimes)
       end
   end)%res.

End MLS3D.

(** ** Points.__init__: the formats of the coordinates *)

Section Constructor.
Context {F : Type} `{Scalar F}.

(** [np.c_[np.array(plist), np.zeros(len(plist))]] on a sequence whose first
    row has two numbers: every row is given a third coordinate 0; rows of
    different lengths do not make an (N,2) array. *)
Fixpoint append_zeros (plist : list (list F)) : result (list (point F)) :=
  match plist with
  | [] => Ok []
  | r :: rest =>
      match r with
      | [x; y] => (ps <- append_zeros rest ;; Ok ((x, y, fzero) :: ps))%res
      | _ => Raise ValueError
      end
  end.

(** The coordinates that [Points.__init__] hands to [utils.buildPolyData],
    lines 782-794, for a sequence of sequences of numbers. *)
Definition Points_init_plist (inputobj : list (list F)) : result (list (list F)) :=
  (let plist := inputobj in
   let n := length plist in
   plist <- (if (n =? 3)%nat then  (* assume plist is in the format [all_x, all_y, all_z] *)
               plist0 <- index plist 0 ;;
               if (3 <? length plist0)%nat then
                 plist1 <- index plist 1 ;;
                 plist2 <- index plist 2 ;;
                 a <- np_stack3 plist0 plist1 plist2 ;;
                 Ok (map row_of a)
               else Ok plist
             else if (n =? 2)%nat then  (* assume plist is in the format [all_x, all_y, 0] *)
               plist0 <- index plist 0 ;;
               if (3 <? length plist0)%nat then
                 plist1 <- index plist 1 ;;
                 a <- np_stack3 plist0 plist1 (repeat fzero (length plist0)) ;;
                 Ok (map row_of a)
               else Ok plist
             else Ok plist) ;;
   if (n =? 0)%nat then Ok plist
   else
     plist0 <- index plist 0 ;;
     if (length plist0 =? 2)%nat then  (* make it 3d *)
       a <- append_zeros plist ;;
       Ok (map row_of a)
     else Ok plist)%res.

End Constructor.

(** ** Trails *)

(** [x < y] on two floats. *)
Class Less (F : Type) : Type := { fless : F -> F -> bool }.

#[export] Instance R_less : Less R :=
  { fless := fun x y => if Rlt_dec x y then true else false }.

#[export] Instance float_less : Less float := { fless := PrimFloat.ltb }.

Section Trails.
Context {F : Type} `{Scalar F} `{Less F}.

(** The values of [self.trailPoints]: [[None] * n] as [addTrail] leaves it,
    then a list of positions. *)
Inductive trail_points : Type :=
| Unset (n : nat)
| Positions (l : list (point F)).

(** The attributes that [updateTrail] reads and writes. *)
Record Trailed : Type := mkTrailed {
  trailPoints : trail_points;
  trailSegmentSize : F;
  trailOffset : option (point F);   (* None, or a tuple or list of 3 numbers *)
  trail : option (Points F)         (* the line that [addTrail] builds *)
}.

Inductive trail_ret : Type :=
| ReturnsNone    (* a bare return *)
| ReturnsSelf.

Definition trail_length (tp : trail_points) : nat :=
  match tp with
  | Unset n => n
  | Positions l => length l
  end.

(** Lines 1181-1183: the position the trail is fed with. *)
Definition trail_position (position : point F) (self : Trailed) : point F :=
  match trailOffset self with
  | Some offset => vadd position offset
  | None => position
  end.

(** [Points.updateTrail()], lines 1180-1196, given [self.GetPosition()]. *)
Definition updateTrail (position : point F) (self : Trailed) : Trailed * result trail_ret :=
  let currentpos := trail_position position self in
  match trailPoints self with
  | Unset O => (self, Raise IndexError)          (* trailPoints[-1] *)
  | Unset (S _) =>                               (* reset list *)
      (mkTrailed (Positions (repeat currentpos (trail_length (trailPoints self))))
                 (trailSegmentSize self) (trailOffset self) (trail self),
       Ok ReturnsNone)
  | Positions l =>
      match rev l with
      | [] => (self, Raise IndexError)           (* trailPoints[-1] *)
      | lastpos :: _ =>
          if fless (norm (vsub currentpos lastpos)) (trailSegmentSize self) then
            (self, Ok ReturnsNone)
          else
            let pts := tl (l ++ [currentpos]) in (* cycle *)
            let moved := mkTrailed (Positions pts) (trailSegmentSize self)
                                   (trailOffset self) in
            match trail self with
            | None => (moved None, Raise AttributeError)       (* None.polydata() *)
            | Some line =>
                let '(line, tpoly) := polydata true line in
                match tpoly with
                | Ok (Some _) =>
                    (* SetData reaches the dataset of the line unless
                       [polydata] made a transformed copy *)
                    if IsIdentity line || (GetNumberOfPoints (dataset line) =? 0)%nat
                    then (moved (Some (SetData pts line)), Ok ReturnsSelf)
                    else (moved (Some line), Ok ReturnsSelf)
                | Ok None => (moved (Some line), Raise AttributeError)  (* None.SetData *)
                | Raise e => (moved (Some line), Raise e)
                end
            end
      end
  end.

End Trails.

Arguments trail_points F : clear implicits.
Arguments Trailed F : clear implicits.

(** ** pointColors: the look-up table *)

Section LookupTable.
Context {F : Type} `{Scalar F}.
Local Open Scope scalar_scope.

(** [seq[idx]] for an index computed at run time: a negative index counts
    from the end. *)
Definition index_Z {A : Type} (l : list A) (idx : Z) : result A :=
  let len := Z.of_nat (length l) in
  if (idx <? 0)%Z then
    if (idx <? - len)%Z then Raise IndexError else index l (Z.to_nat (len + idx))
  else index l (Z.to_nat idx).

(** The [alpha] argument of [pointColors]: a number or a sequence. *)
Inductive alpha_arg : Type :=
| AlphaValue (a : F)
| AlphaList (l : list F).

(** Lines 1800-1801: [if not utils.isSequence(alpha): alpha = [alpha]*256]. *)
Definition alpha_list (alpha : alpha_arg) : list F :=
  match alpha with
  | AlphaValue a => repeat a 256
  | AlphaList l => l
  end.

(** The loop of lines 1814-1817 and of lines 1828-1831, from entry [i] on,
    over the colours (r, g, b) still to enter: the rows given to
    [lut.SetTableValue]. *)
Fixpoint lut_loop (ncols nalpha : nat) (alpha : list F) (i : nat) (cols : list (point F))
  : result (list (F * F * F * F)) :=
  match cols with
  | [] => Ok []
  | c :: rest =>
      (let '(r, g, b) := c in
       idx <- ftrunc (of_Z (Z.of_nat i) / of_Z (Z.of_nat ncols) * of_Z (Z.of_nat nalpha)) ;;
       a <- index_Z alpha idx ;;
       rows <- lut_loop ncols nalpha alpha (S i) rest ;;
       Ok ((r, g, b, a) :: rows))%res
  end.

(** The look-up table that [pointColors] builds, lines 1808-1832, from the
    colours of the map ([colors.getColor] of a sequence of colours, or the
    256 colours of [colors.colorMap]) and the [alpha] argument. *)
Definition lookup_table (cols : list (point F)) (alpha : alpha_arg)
  : result (list (F * F * F * F)) :=
  let alpha := alpha_list alpha in
  let ncols := length cols in
  let nalpha := length alpha in
  lut_loop ncols nalpha alpha 0 cols.

End LookupTable.

Arguments alpha_arg F : clear implicits.

(** ** The specification's wording of the neighbourhood size *)

(** Python's [round(x)] on a float: the nearest integer, ties to even. *)
Definition float_round (x : float) : result Z :=
  match Prim2SF x with
  | S754_zero _ => Ok 0%Z
  | S754_finite s m e =>
      let mag :=
        if (0 <=? e)%Z then (Zpos m * 2 ^ e)%Z
        else
          let d := (2 ^ (- e))%Z in
          let q := (Zpos m / d)%Z in
          let r := (Zpos m mod d)%Z in
          if (2 * r <? d)%Z then q
          else if (d <? 2 * r)%Z then (q + 1)%Z
          else if Z.even q then q else (q + 1)%Z in
      Ok (if s then (- mag)%Z else mag)
  | S754_infinity _ => Raise OverflowError
  | S754_nan => Raise ValueError
  end.

(** "max(5, round(N * f / 10))", as the specification words it. *)
Definition spec_neighbourhood_size (ncoords : nat) (f : float) : result Z :=
  (n <- float_round (of_Z (Z.of_nat ncoords) * f / of_Z 10)%S ;;
   Ok (Z.max 5 n))%res.

(** ** Inputs for running the definitions *)

(** Four coplanar points, the corners of the unit square, with what
    [lstsq] reports for their system: rank 3. *)
Definition square4 : list (point float) :=
  [(0, 0, 0); (1, 0, 0); (0, 1, 0); (1, 1, 0)]%float.

Definition rank3_numerics : Numerics float :=
  recorded_numerics (Raise LinAlgError)
    (Ok ([0.5; 0.5; 0; 0], [], 3%Z, [])%float) 0%float.

(** A cloud of 5 points and an object over it. *)
Definition cloud5 : list (point float) :=
  [(0, 0, 0); (1, 0.5, 0); (2, 0, 0); (3, 0.5, 0); (4, 0, 0)]%float.

Definition svd321_numerics : Numerics float :=
  recorded_numerics
    (Ok ([], [3; 2; 1], [(1, 0, 0); (0, 1, 0); (0, 0, 1)])%float)
    (Raise LinAlgError) 0%float.

Section InputsOverR.
Local Open Scope R_scope.

(** Four points of the unit sphere that are not coplanar, with the exact
    solution of their system: rank 4, C = (0, 0, 0, 1). *)
Definition sphere4 : list (point R) :=
  [(1, 0, 0); (-1, 0, 0); (0, 1, 0); (0, 0, 1)].

Definition unit_sphere_numerics : Numerics R :=
  recorded_numerics (Raise LinAlgError) (Ok ([0; 0; 0; 1], [], 4%Z, [])) 0.

(** Four collinear points with centroid at the origin, along the unit
    direction (-3/5, 4/5, 0) at the parameters 15, -5, -10 and 0. *)
Definition collinear4 : list (point R) :=
  [(-9, 12, 0); (3, -4, 0); (6, -8, 0); (0, 0, 0)].

Definition collinear4_numerics : Numerics R :=
  recorded_numerics
    (Ok ([], [R_sqrt.sqrt 350; 0; 0],
         [(-3 / 5, 4 / 5, 0); (4 / 5, 3 / 5, 0); (0, 0, 1)]))
    (Raise LinAlgError) 0.

(** An object of one point under a pose that doubles every coordinate. *)
Definition doubled_points : Points R :=
  mkPoints (Some [(1, 1, 1)]) true false
    ((2, 0, 0, 0), (0, 2, 0, 0), (0, 0, 2, 0), (0, 0, 0, 1)) None None None.

End InputsOverR.


Section MoreOracles.
Context {F : Type} `{Scalar F}.

(** A locator whose every neighbourhood is five times the first point. *)
Definition first_point_locator : VtkLocator F :=
  {| FindClosestNPoints := fun _ _ _ => [0; 0; 0; 0; 0]%nat;
     FindPointsWithinRadius := fun _ _ _ => [0; 0; 0; 0; 0]%nat;
     FindClosestPoint := fun loc pt =>
       (nth 0 (match loc with Some l => l | None => [] end) vzero, 0%Z) |}.

(** A k-d tree that answers with the first k indices, with scipy's checks
    of [leafsize] and [k]. *)
Definition scan_kdtree : KDTree F :=
  {| kd_build := fun _ leafsize =>
       if (leafsize <? 1)%Z then Raise ValueError else Ok tt;
     kd_query := fun _ _ _ k =>
       if (k <? 1)%Z then Raise ValueError
       else if (k =? 1)%Z then Ok (OneId 0)
       else Ok (Ids (seq 0 (Z.to_nat k))) |}.

End MoreOracles.

(** A cloud of 6 points, and what [lstsq] may report for a neighbourhood
    whose best hyperplane is one of constant time. *)
Definition cloud6 : list (point float) :=
  [(0, 0, 0); (1, 0.5, 0); (2, 0, 0); (3, 0.5, 0); (4, 0, 0); (5, 0.5, 0)]%float.

Definition time_numerics : Numerics float :=
  recorded_numerics (Raise LinAlgError) (Ok ([0; 0; 0; 1], [], 4%Z, [])%float) 0%float.

Section MoreInputsOverR.
Local Open Scope R_scope.

(** Two points at distance 2 from each other. *)
Definition pair2 : list (point R) := [(1, 0, 0); (-1, 0, 0)].

End MoreInputsOverR.

(** ** The vocabulary of the properties *)

Section Vocabulary.
Context {F : Type} `{Scalar F} `{Numerics F} `{VtkLocator F}.
Local Open Scope scalar_scope.

(** numpy's output shapes for the SVD of an (N,3) array: min(N,3) singular
    values, three right-singular vectors. *)
Definition svd_shape (N : Numerics F) : Prop :=
  forall (a : list (point F)) (u : list (list F)) (s : list F) (vh : list (point F)),
    svd a = Ok (u, s, vh) -> length s = Nat.min (length a) 3 /\ length vh = 3.

(** [l1] is [l2] with some elements left out, the order kept. *)
Inductive subseq {A : Type} : list A -> list A -> Prop :=
| subseq_nil : subseq [] []
| subseq_skip (x : A) (l1 l2 : list A) : subseq l1 l2 -> subseq l1 (x :: l2)
| subseq_keep (x : A) (l1 l2 : list A) : subseq l1 l2 -> subseq (x :: l1) (x :: l2).

(** One pass of a smoothing loop that emitted something: the input point,
    the residual appended to [variances] and the point appended to the
    output list. *)
Record emitted : Type := mkEmitted {
  input_of : point F;
  residual_of : F;
  output_of : point F
}.

(** The residual and the output point of [smoothMLS1D] for the input point
    [p]: both come from one neighbourhood of [p], of at least 4 points, and
    one SVD of it. *)
Definition emits1D (Ncp : Z) (radius : option F) (e : emitted) : Prop :=
  exists (st st' : Points F) (points : list (point F))
         (uu : list (list F)) (dd : list F) (vv : list (point F))
         (vv0 : point F) (dd1 dd2 : F),
    closestPoint (input_of e) Ncp radius st = (st', Ok (Many points)) /\
    4 <= length points /\
    svd (center_rows points (mean points)) = Ok (uu, dd, vv) /\
    nth_error vv 0 = Some vv0 /\ nth_error dd 1 = Some dd1 /\ nth_error dd 2 = Some dd2 /\
    residual_of e = dd1 + dd2 /\
    output_of e =
      vadd (smul (dot (vsub (input_of e) (mean points)) vv0) vv0) (mean points).

(** The same for [smoothMLS2D]; in radius mode the neighbourhood has at
    least 5 points. *)
Definition emits2D (Ncp : Z) (radius : option F) (e : emitted) : Prop :=
  exists (st st' : Points F) (pts : list (point F))
         (uu : list (list F)) (dd : list F) (vv : list (point F))
         (vv0 vv1 : point F) (dd2 : F),
    closestPoint (input_of e) Ncp radius st = (st', Ok (Many pts)) /\
    (truthy radius = true -> 5 <= length pts) /\
    svd (center_rows pts (mean pts)) = Ok (uu, dd, vv) /\
    nth_error vv 0 = Some vv0 /\ nth_error vv 1 = Some vv1 /\ nth_error dd 2 = Some dd2 /\
    residual_of e = dd2 /\
    output_of e =
      (let cv := cross vv0 vv1 in
       let t := (dot cv (mean pts) - dot cv (input_of e)) / dot cv cv in
       vadd (input_of e) (vscale t cv)).

(** The dataset that [polydata(True)] returns: the coordinates under the
    current pose. *)
Definition effective_polydata (self : Points F) : vtkPolyData F :=
  if negb (IsIdentity self || (GetNumberOfPoints (dataset self) =? 0)%nat)
  then vtkTransformPolyDataFilter (Matrix self) (dataset self)
  else dataset self.

(** Every neighbourhood the point locator finds over [poly] has fewer than
    4 members: [poly] has fewer than 4 points, or the radius is below the
    spacing of the points. *)
Definition few_neighbours (poly : vtkPolyData F) : Prop :=
  forall (N : Z) (r : F) (pt : point F),
    length (FindClosestNPoints poly N pt) < 4 /\
    length (FindPointsWithinRadius poly r pt) < 4.

End Vocabulary.

Arguments emitted F : clear implicits.

Section VocabularyOverR.
Local Open Scope R_scope.

(** The squared error of a candidate (c1, c2, c3, c4) over the rows
    "2x c1 + 2y c2 + 2z c3 + 1 c4 = x^2 + y^2 + z^2", one per point. *)
Definition sphere_error (coords : list (point R)) (c1 c2 c3 c4 : R) : R :=
  fold_right
    (fun p acc =>
       let '(x, y, z) := p in
       (2 * x * c1 + 2 * y * c2 + 2 * z * c3 + 1 * c4 - (x * x + y * y + z * z)) ^ 2 + acc)
    0 coords.

Definition row_dot (row C : list R) : R :=
  fold_right Rplus 0 (map (fun ac => fst ac * snd ac) (combine row C)).

(** The squared norm of A C - f. *)
Definition residual2 (A : list (list R)) (f C : list R) : R :=
  fold_right Rplus 0 (map (fun rf => (row_dot (fst rf) C - snd rf) ^ 2) (combine A f)).

(** What [np.linalg.lstsq] promises of its solution. *)
Definition least_squares_solution (A : list (list R)) (f C : list R) : Prop :=
  forall C' : list R, length C' = length C -> residual2 A f C <= residual2 A f C'.

(** The sum of the squared projections of the rows of [a] on [w]. *)
Definition sum_sq_proj (a : list (point R)) (w : point R) : R :=
  fold_right (fun row acc => dot row w ^ 2 + acc) 0 a.

(** A first right-singular vector of [a]: a unit vector on which the rows
    have the largest sum of squared projections. *)
Definition principal_direction (a : list (point R)) (v : point R) : Prop :=
  dot v v = 1 /\ forall w : point R, dot w w = 1 -> sum_sq_proj a w <= sum_sq_proj a v.

(** The projection of [p] on the fitted line, through the centre along the
    slope. *)
Definition foot (l : Line R) (p : point R) : point R :=
  vadd (line_center l) (smul (dot (vsub p (line_center l)) (slope l)) (slope l)).

Definition on_segment (p1 p2 q : point R) : Prop :=
  exists t : R, 0 <= t <= 1 /\ q = vadd p1 (smul t (vsub p2 p1)).

(** The segment spans the data along the fitted direction: the projection
    of every input point on the line lies on the segment. *)
Definition spans_data (l : Line R) (data : list (point R)) : Prop :=
  forall p : point R, In p data -> on_segment (line_p1 l) (line_p2 l) (foot l p).

(** [a <= b] in every coordinate. *)
Definition le3 (a b : point R) : Prop :=
  fst (fst a) <= fst (fst b) /\ snd (fst a) <= snd (fst b) /\ snd a <= snd b.

(** The points lie in one plane, of normal [n] and offset [d]. *)
Definition coplanar (coords : list (point R)) : Prop :=
  exists (n : point R) (d : R),
    n <> (0, 0, 0) /\ forall p : point R, In p coords -> dot n p = d.

End VocabularyOverR.


Section MoreVocabulary.
Context {F : Type} `{Scalar F} `{Less F} `{KDTree F}.

(** What scipy documents of [query(x, k)]: for k > 1 the indices come as an
    array of shape (k,). *)
Definition kd_query_shape : Prop :=
  forall (data : list (point4 F)) (leafsize : Z) (x : point4 F) (k : Z) (l : list nat),
    kd_query data leafsize x k = Ok (Ids l) -> Z.of_nat (length l) = k.

(** Two consecutive positions of a trail are the same point or at least the
    segment size apart. *)
Fixpoint spaced (seg : F) (l : list (point F)) : Prop :=
  match l with
  | a :: (b :: _) as rest =>
      (a = b \/ fless (norm (vsub b a)) seg = false) /\ spaced seg rest
  | _ => True
  end.

End MoreVocabulary.

Section MoreVocabularyOverR.
Local Open Scope R_scope.

(** The coordinates under the current pose, as [points()] returns them. *)
Definition world_coords (self : Points R) : list (point R) :=
  match effective_polydata self with
  | Some vpts => vpts
  | None => []
  end.

(** The sum of the squared distances of the points from [c]. *)
Definition sq_dist_sum (coords : list (point R)) (c : point R) : R :=
  fold_right (fun p acc => dot (vsub p c) (vsub p c) + acc) 0 coords.

(** [q] is [p] moved along [cv]; when [cv] is not zero, [q] lies in the
    plane through [c] of normal [cv], and a point of that plane is not
    moved. *)
Definition plane_projection (c cv p q : point R) : Prop :=
  (exists t : R, q = vadd p (vscale t cv)) /\
  (dot cv cv <> 0 ->
   dot cv (vsub q c) = 0 /\ (dot cv (vsub p c) = 0 -> q = p)).

(** [q] lies on the line through [c] along [v]; when [v] is a unit vector,
    [q] is the foot of the perpendicular from [p], and a point of the line
    is not moved. *)
Definition line_projection (c v p q : point R) : Prop :=
  (exists k : R, q = vadd (smul k v) c) /\
  (dot v v = 1 ->
   dot (vsub p q) v = 0 /\ (forall k : R, p = vadd (smul k v) c -> q = p)).

End MoreVocabularyOverR.

(** ** Properties: results and methods *)

Section MethodFacts.
Context {F : Type} `{Scalar F} `{VtkLocator F}.

Lemma index_Ok {A : Type} (l : list A) (i : nat) (a : A) :
  index l i = Ok a <-> nth_error l i = Some a.
Proof.
  unfold index. destruct (nth_error l i); split; intro E; inversion E; reflexivity.
Qed.

Lemma bind_Ok {A B : Type} (c : Method F A) (k : A -> Method F B)
  (self self' : Points F) (a : A) :
  c self = (self', Ok a) -> bind c k self = k a self'.
Proof. intro E. unfold bind. rewrite E. reflexivity. Qed.

(** [polydata] never raises; it returns the dataset itself or its image
    under the pose, and only binds [_polydata]. *)
Lemma polydata_run (transformed : bool) (self : Points F) :
  polydata transformed self =
  (bind_polydata self,
   Ok (if transformed && negb (IsIdentity self || (GetNumberOfPoints (dataset self) =? 0)%nat)
       then vtkTransformPolyDataFilter (Matrix self) (dataset self)
       else dataset self)).
Proof.
  unfold polydata, bind, get_self, modify, ret.
  destruct self as [d hp ii m pl cl iv]; simpl.
  destruct hp; simpl; destruct transformed; simpl;
    destruct (ii || (GetNumberOfPoints d =? 0)%nat); reflexivity.
Qed.

Lemma points_get_run (transformed : bool) (self : Points F) :
  exists coords, points_get transformed self = (bind_polydata self, Ok coords).
Proof.
  unfold points_get. unfold bind at 1. rewrite polydata_run.
  match goal with |- context [match ?p with Some _ => _ | None => _ end] =>
    destruct p end; eexists; reflexivity.
Qed.

Lemma rows3_row_of (a : list (point F)) : rows3 (map row_of a) = Some a.
Proof.
  induction a as [| [[x y] z] a IH]; [reflexivity |].
  cbn [map row_of rows3 point_of]. rewrite IH. reflexivity.
Qed.

Lemma rectangular_row_of (a : list (point F)) : rectangular (map row_of a) = true.
Proof.
  destruct a as [| [[x y] z] a]; [reflexivity |].
  cbn [map rectangular]. apply forallb_forall. intros r Hr.
  apply in_map_iff in Hr. destruct Hr as ([[x' y'] z'] & <- & _). reflexivity.
Qed.

(** The setter on an (N,3) array: it raises IndexError on no rows and
    AttributeError when [_polydata] is None or holds no points; otherwise
    the buffer is replaced and the matrix poked. *)
Lemma points_set_rows_run (a : list (point F)) (transformed : bool) (self : Points F) :
  points (Some (map row_of a)) transformed self =
  match a with
  | [] => (self, Raise IndexError)
  | _ :: _ =>
      if has_polydata self then
        match dataset self with
        | Some _ => (PokeMatrix identity4 (SetData a self), Ok Self)
        | None => (self, Raise AttributeError)
        end
      else (self, Raise AttributeError)
  end.
Proof.
  unfold points.
  destruct a as [| [[x y] z] a]; [reflexivity |].
  cbn [map row_of index nth_error lift bind length Nat.eqb negb andb].
  rewrite Bool.andb_false_r.
  unfold bind, get_self, lift, modify, ret, raise.
  destruct (has_polydata self); cbn [negb]; [| reflexivity].
  destruct (dataset self) eqn:Ed; [| reflexivity].
  unfold np_ascontiguousarray.
  change ([x; y; z] :: map row_of a) with (map row_of ((x, y, z) :: a)).
  rewrite rectangular_row_of, rows3_row_of.
  reflexivity.
Qed.

End MethodFacts.

(** ** fitEllipsoid and fitSphere: the failure markers *)

Section FailureMarkers.
Context {F : Type} `{Scalar F} `{Numerics F}.

(** C8.  With fewer than 4 points [fitEllipsoid] writes its warning and
    returns None, the failure marker: no ellipsoid is built, nothing of numpy
    or scipy is called and no exception is raised. *)
Theorem fitEllipsoid_insufficient_points (points : fit_input F) (pvalue : F) :
  length (input_coords points) < 4 ->
  fitEllipsoid points pvalue = ([Messages.not_enough_points], Ok None).
Proof.
  intro Hlen. unfold fitEllipsoid.
  destruct (Nat.ltb_spec (length (input_coords points)) 4) as [_ | Hge].
  - reflexivity.
  - lia.
Qed.

(** X6.  The warning is written for fewer than 4 points and in no other
    case. *)
Lemma fitEllipsoid_warns_iff (points : fit_input F) (pvalue : F) :
  fst (fitEllipsoid points pvalue) = [Messages.not_enough_points] <->
  length (input_coords points) < 4.
Proof.
  unfold fitEllipsoid.
  destruct (Nat.ltb_spec (length (input_coords points)) 4) as [Hlt | Hge]; simpl.
  - tauto.
  - split; [discriminate | lia].
Qed.

(** C2.  When [lstsq] reports a rank below 4 for the sphere system,
    [fitSphere] returns None, the fit-failure marker, and never a sphere;
    None is returned for no other reason, so it signals rank deficiency. *)
Theorem fitSphere_rank_deficient (coords : fit_input F)
  (C residue sv : list F) (rank : Z) :
  lstsq (sphere_A (input_coords coords)) (sphere_f (input_coords coords))
    = Ok (C, residue, rank, sv) ->
  (fitSphere coords = Ok None <-> (rank < 4)%Z) /\
  ((rank < 4)%Z -> forall s : Sphere F, fitSphere coords <> Ok (Some s)).
Proof.
  intro E. unfold fitSphere. rewrite E. cbn [rbind].
  destruct (Z.ltb_spec rank 4) as [Hlt | Hge].
  - split; [tauto | intros _ s; discriminate].
  - split; [| lia].
    split; [| lia].
    intro E'. exfalso.
    destruct (index C 0); [| discriminate E']; cbn [rbind] in E'.
    destruct (index C 1); [| discriminate E']; cbn [rbind] in E'.
    destruct (index C 2); [| discriminate E']; cbn [rbind] in E'.
    destruct (index C 3); [| discriminate E']; cbn [rbind] in E'.
    discriminate E'.
Qed.

End FailureMarkers.

(** ** The neighbourhood size of the smoothers *)

Section NeighbourhoodSize.
Context {F : Type} `{Scalar F} `{Numerics F} `{VtkLocator F}.
Local Open Scope scalar_scope.

Lemma neighbourhood_size_radius (d : Z) (ncoords : nat) (f : F) (radius : option F) :
  truthy radius = true -> neighbourhood_size d ncoords f radius = Ok 0%Z.
Proof. intro E. unfold neighbourhood_size. rewrite E. reflexivity. Qed.

Lemma neighbourhood_size_count (d : Z) (ncoords : nat) (f : F) (radius : option F) (n : Z) :
  truthy radius = false ->
  ftrunc (of_Z (Z.of_nat ncoords) * f / of_Z d) = Ok n ->
  neighbourhood_size d ncoords f radius = Ok (Z.max 5 n).
Proof.
  intros E En. unfold neighbourhood_size. rewrite E, En. cbn [rbind].
  destruct (Z.ltb_spec n 5); f_equal; lia.
Qed.

(** With [1 < N], [closestPoint] asks the point locator for the [N] closest
    points, building the locator over the current coordinates when none is
    cached. *)
Lemma closestPoint_count_query (pt : point F) (N : Z) (radius : option F) (self : Points F) :
  (1 < N)%Z ->
  exists (poly loc : vtkPolyData F) (self' : Points F),
    point_locator self' = Some loc /\
    closestPoint pt N radius self =
    (self',
     let vtklist := FindClosestNPoints loc N pt in
     match vtklist with
     | [] => Ok (Many [])
     | _ :: _ =>
         match poly with
         | None => Raise AttributeError
         | Some vpts => Ok (Many (map (fun vi => nth vi vpts vzero) vtklist))
         end
     end).
Proof.
  intro HN. unfold closestPoint. unfold bind at 1. rewrite polydata_run.
  destruct (Z.ltb_spec 1 N) as [_ | ?]; [| lia]. cbn [orb].
  match goal with |- context [set_point_locator ?p] => set (poly := p) end.
  unfold bind, get_self, modify, ret, raise.
  destruct self as [d hp ii m pl cl iv]; cbn.
  destruct pl as [loc |]; cbn.
  - exists poly, loc. eexists. split; cycle 1.
    + destruct (FindClosestNPoints loc N pt); [reflexivity | destruct poly; reflexivity].
    + reflexivity.
  - exists poly, poly. eexists. split; cycle 1.
    + destruct (FindClosestNPoints poly N pt); [reflexivity | destruct poly; reflexivity].
    + reflexivity.
Qed.

(** The radius branch does not read the smoothing factor. *)
Lemma smoothMLS1D_radius_any_f (f1 f2 : F) (radius : option F) (self : Points F) :
  truthy radius = true ->
  smoothMLS1D f1 radius self = smoothMLS1D f2 radius self.
Proof.
  intro E. unfold smoothMLS1D.
  destruct (points_get_run true self) as [coords Ec].
  rewrite !(bind_Ok _ _ _ Ec).
  rewrite !neighbourhood_size_radius by exact E. reflexivity.
Qed.

Lemma smoothMLS2D_radius_any_f (f1 f2 : F) (radius : option F) (self : Points F) :
  truthy radius = true ->
  smoothMLS2D f1 radius self = smoothMLS2D f2 radius self.
Proof.
  intro E. unfold smoothMLS2D.
  destruct (points_get_run true self) as [coords Ec].
  rewrite !(bind_Ok _ _ _ Ec).
  rewrite !neighbourhood_size_radius by exact E. reflexivity.
Qed.

(** C6, as the code has it.  With no radius given (None, or the falsy 0),
    [smoothMLS1D] runs its loop with the neighbourhood size
    max(5, int(N * f / 10)), where [int] truncates, and every query of the
    loop asks the point locator for that many closest points. *)
Theorem smoothMLS1D_neighbourhood_size (f : F) (radius : option F)
  (self self1 : Points F) (coords : list (point F)) (n : Z) :
  truthy radius = false ->
  points_get true self = (self1, Ok coords) ->
  ftrunc (of_Z (Z.of_nat (length coords)) * f / of_Z 10) = Ok n ->
  let Ncp := Z.max 5 n in
  neighbourhood_size 10 (length coords) f radius = Ok Ncp /\
  smoothMLS1D f radius self =
    ('(variances, newline) <- smoothMLS1D_loop Ncp radius coords [] [] ;;
     modify (set_info_variances variances) ;;
     points (Some (map row_of newline)) true)%M self1 /\
  forall (p : point F) (st : Points F),
    exists (poly loc : vtkPolyData F) (st' : Points F),
      point_locator st' = Some loc /\
      closestPoint p Ncp radius st =
      (st',
       let vtklist := FindClosestNPoints loc Ncp p in
       match vtklist with
       | [] => Ok (Many [])
       | _ :: _ =>
           match poly with
           | None => Raise AttributeError
           | Some vpts => Ok (Many (map (fun vi => nth vi vpts vzero) vtklist))
           end
       end).
Proof.
  intros E Ec En Ncp.
  pose proof (neighbourhood_size_count 10 _ _ _ E En) as ENcp.
  split; [exact ENcp |]. split.
  - unfold smoothMLS1D. rewrite (bind_Ok _ _ _ Ec).
    rewrite ENcp. reflexivity.
  - intros p st. apply closestPoint_count_query. subst Ncp. lia.
Qed.

End NeighbourhoodSize.

(** C6, as the specification words it, fails: for 57 points and f = 1.0
    Python computes 57 * 1.0 / 10 = 5.7, [int] gives 5 where [round] gives 6. *)
Lemma neighbourhood_size_is_not_rounded :
  neighbourhood_size (F:=float) 10 57 1%float None = Ok 5%Z /\
  spec_neighbourhood_size 57 1%float = Ok 6%Z.
Proof. split; vm_compute; reflexivity. Qed.

(** ** fitPlane *)

Section PlaneFit.
Context {F : Type} `{Scalar F}.

Lemma shape_numerics_shape : svd_shape shape_numerics.
Proof.
  intros a u s vh E. cbn in E. inversion E; subst.
  split; [apply repeat_length | reflexivity].
Qed.

Lemma length3 {A : Type} (l : list A) :
  length l = 3 -> exists a b c, l = [a; b; c].
Proof.
  destruct l as [| a [| b [| c [| d l]]]]; try discriminate.
  intros _. exists a, b, c. reflexivity.
Qed.

Lemma center_rows_length (data : list (point F)) (m : point F) :
  length (center_rows data m) = length data.
Proof. apply length_map. Qed.

Lemma amin_Ok (data : list (point F)) :
  data <> [] -> exists lo, amin data = Ok lo.
Proof. destruct data; [congruence | intros _; eexists; reflexivity]. Qed.

Lemma amax_Ok (data : list (point F)) :
  data <> [] -> exists hi, amax data = Ok hi.
Proof. destruct data; [congruence | intros _; eexists; reflexivity]. Qed.

(** C3, as the code has it.  For a point set of at least 3 points whose SVD
    numpy returns, [fitPlane] returns the plane centred at the mean of the
    points, with normal the cross product of the first two right-singular
    vectors of the mean-centred coordinates, variance the third singular
    value, and both side lengths the length of the diagonal of the
    bounding box. *)
Theorem fitPlane_three_points (N : Numerics F) (points : fit_input F)
  (u : list (list F)) (s : list F) (vh : list (point F)) :
  let data := input_coords points in
  svd_shape N ->
  3 <= length data ->
  svd (center_rows data (mean data)) = Ok (u, s, vh) ->
  exists (vv0 vv1 vv2 : point F) (s0 s1 s2 : F) (xyz_min xyz_max : point F),
    vh = [vv0; vv1; vv2] /\ s = [s0; s1; s2] /\
    amin data = Ok xyz_min /\ amax data = Ok xyz_max /\
    fitPlane points =
    Ok (mkPlane (mean data)
          (norm (vsub xyz_max xyz_min)) (norm (vsub xyz_max xyz_min))
          (cross vv0 vv1) (mean data) s2).
Proof.
  intros data Hshape Hlen E.
  destruct (Hshape _ _ _ _ E) as [Hs Hvh].
  rewrite center_rows_length in Hs.
  replace (Nat.min (length data) 3) with 3 in Hs by lia.
  destruct (length3 _ Hvh) as (vv0 & vv1 & vv2 & ->).
  destruct (length3 _ Hs) as (s0 & s1 & s2 & ->).
  assert (Hne : data <> []) by (intros ->; simpl in Hlen; lia).
  destruct (amin_Ok Hne) as [lo Elo]. destruct (amax_Ok Hne) as [hi Ehi].
  exists vv0, vv1, vv2, s0, s1, s2, lo, hi.
  repeat split; try assumption.
  unfold fitPlane. fold data. rewrite E. cbn [rbind index nth_error].
  rewrite Elo, Ehi. reflexivity.
Qed.

(** With 1 or 2 points there is no third singular value: when numpy's SVD
    returns, [fitPlane] raises IndexError at [dd[2]]. *)
Lemma fitPlane_needs_three_points (N : Numerics F) (points : fit_input F) :
  let data := input_coords points in
  svd_shape N ->
  0 < length data < 3 ->
  fitPlane points =
  match svd (center_rows data (mean data)) with
  | Ok _ => Raise IndexError
  | Raise e => Raise e
  end.
Proof.
  intros data Hshape Hlen. unfold fitPlane. fold data.
  destruct (svd _) as [[[u s] vh] | e] eqn:E; [| reflexivity].
  destruct (Hshape _ _ _ _ E) as [Hs Hvh].
  rewrite center_rows_length in Hs.
  destruct (length3 _ Hvh) as (vv0 & vv1 & vv2 & ->).
  cbn [rbind index nth_error].
  assert (Hne : data <> []) by (intros E'; rewrite E' in Hlen; simpl in Hlen; lia).
  destruct (amin_Ok Hne) as [lo ->]. destruct (amax_Ok Hne) as [hi ->].
  cbn [rbind]. unfold index.
  assert (nth_error s 2 = None) as ->
    by (apply nth_error_None; lia).
  reflexivity.
Qed.

End PlaneFit.

(** C3 as stated fails: the two points (0,0,0) and (1,0,0) are a non-empty
    point set, their centred coordinates have two singular values, and
    [dd[2]] raises IndexError whatever the SVD returned. *)
Lemma fitPlane_two_points_raises :
  exists points : list (point float),
    points <> [] /\
    forall N : Numerics float,
      svd_shape N ->
      fitPlane (OfArray points) =
      match svd (center_rows points (mean points)) with
      | Ok _ => Raise IndexError
      | Raise e => Raise e
      end.
Proof.
  exists [(0, 0, 0); (1, 0, 0)]%float. split; [discriminate |].
  intros N HN.
  apply (fitPlane_needs_three_points (OfArray [(0, 0, 0); (1, 0, 0)]%float) HN).
  simpl. lia.
Qed.

(** ** Exact arithmetic: properties over the real numbers *)

Section OverR.
Local Open Scope R_scope.

Lemma truthy_positive (r : R) : 0 < r -> truthy (Some r) = true.
Proof.
  intro Hr. unfold truthy. cbn. unfold Ris_zero.
  destruct (Req_dec_T r 0); [lra | reflexivity].
Qed.

(** C9.  Radius search takes precedence: with a radius [r > 0], two runs of
    [smoothMLS1D], and two runs of [smoothMLS2D], on the same object that
    differ only in the smoothing factor end in the same state (the same
    coordinates, the same [info["variances"]]) with the same outcome. *)
Theorem radius_takes_precedence (N : Numerics R) (V : VtkLocator R)
  (r f1 f2 : R) (self : Points R) :
  0 < r ->
  smoothMLS1D f1 (Some r) self = smoothMLS1D f2 (Some r) self /\
  smoothMLS2D f1 (Some r) self = smoothMLS2D f2 (Some r) self.
Proof.
  intro Hr. split.
  - apply smoothMLS1D_radius_any_f, truthy_positive, Hr.
  - apply smoothMLS2D_radius_any_f, truthy_positive, Hr.
Qed.

(** *** The pose after the coordinates are replaced *)

Lemma TransformPoint_identity (p : point R) : TransformPoint identity4 p = p.
Proof.
  destruct p as [[x y] z]. unfold TransformPoint, identity4. cbn.
  f_equal; [f_equal |]; ring.
Qed.

Lemma vtkTransformPolyDataFilter_identity (poly : vtkPolyData R) :
  vtkTransformPolyDataFilter identity4 poly = poly.
Proof.
  destruct poly as [pts |]; [| reflexivity]. cbn. f_equal.
  induction pts as [| p pts IH]; [reflexivity |].
  cbn [map]. rewrite TransformPoint_identity, IH. reflexivity.
Qed.

(** Under the identity matrix the pose-applied read is the raw read,
    whatever the IsIdentity flag says. *)
Lemma points_get_identity_pose (self : Points R) :
  Matrix self = identity4 ->
  points_get true self = points_get false self.
Proof.
  intro HM. unfold points_get. unfold bind. rewrite !polydata_run.
  rewrite HM, vtkTransformPolyDataFilter_identity.
  destruct (true && _); reflexivity.
Qed.

(** C5.  When the setter of [points] returns, the actor's matrix is the
    identity, so the pose-applied read is the raw read; and when the new
    coordinates were given as an (N,3) array, the pose-applied read returns
    exactly that array. *)
Theorem points_setter_resets_pose (pts : list (list R)) (transformed : bool)
  (self self' : Points R) :
  points (Some pts) transformed self = (self', Ok Self) ->
  Matrix self' = identity4 /\
  points None true self' = points None false self' /\
  (forall a : list (point R),
      pts = map row_of a -> points None true self' = (self', Ok (Array a))).
Proof.
  intro E.
  assert (Hst : exists st, self' = PokeMatrix identity4 st /\ has_polydata st = true /\
            forall a, pts = map row_of a -> dataset st = Some a).
  { unfold points in E. unfold bind, lift, get_self, raise, modify, ret in E.
    destruct (index pts 0) as [pts0 |] eqn:E0; [| discriminate E].
    destruct (_ : result (option (list (point R)))) as [stacked |] eqn:Es in E;
      [| discriminate E].
    destruct (has_polydata self) eqn:Hp; cbn [negb] in E; [| discriminate E].
    destruct (dataset self) as [old |] eqn:Ed; [| discriminate E].
    destruct (match stacked with Some a => Ok (Some a) | None => np_ascontiguousarray pts end)
      as [[arr |] |] eqn:Ea; [| | discriminate E].
    - inversion E; subst. exists (SetData arr self).
      split; [reflexivity |]. split; [exact Hp |].
      intros a ->. cbn.
      destruct a as [| [[x y] z] a]; [discriminate E0 |].
      cbn in E0. inversion E0; subst pts0. cbn in Es.
      rewrite Bool.andb_false_r in Es. inversion Es; subst stacked.
      unfold np_ascontiguousarray in Ea.
      change ([x; y; z] :: map row_of a) with (map row_of ((x, y, z) :: a)) in Ea.
      rewrite rectangular_row_of, rows3_row_of in Ea. congruence.
    - inversion E; subst. exists self.
      split; [reflexivity |]. split; [exact Hp |].
      intros a ->. exfalso.
      destruct a as [| [[x y] z] a]; [discriminate E0 |].
      cbn in E0. inversion E0; subst pts0. cbn in Es.
      rewrite Bool.andb_false_r in Es. inversion Es; subst stacked.
      unfold np_ascontiguousarray in Ea.
      change ([x; y; z] :: map row_of a) with (map row_of ((x, y, z) :: a)) in Ea.
      rewrite rectangular_row_of, rows3_row_of in Ea. discriminate Ea. }
  destruct Hst as (st & -> & Hp & Hds).
  split; [reflexivity |]. split.
  - unfold points, bind. rewrite points_get_identity_pose by reflexivity. reflexivity.
  - intros a Ha. specialize (Hds a Ha).
    unfold points, points_get. unfold bind. rewrite polydata_run.
    cbn [Matrix PokeMatrix IsIdentity dataset]. rewrite Hds.
    rewrite vtkTransformPolyDataFilter_identity.
    replace (bind_polydata (PokeMatrix identity4 st)) with (PokeMatrix identity4 st)
      by (destruct st; cbn in Hp |- *; subst; reflexivity).
    destruct (true && _); reflexivity.
Qed.

End OverR.

(** ** fitSphere: the least-squares system *)

Section SphereFit.
Local Open Scope R_scope.

Lemma length4 {A : Type} (l : list A) :
  length l = 4%nat -> exists a b c d, l = [a; b; c; d].
Proof.
  destruct l as [| a [| b [| c [| d [| e l]]]]]; try discriminate.
  intros _. exists a, b, c, d. reflexivity.
Qed.

(** The i-th row of the system is (2x, 2y, 2z, 1) with right-hand side
    x^2 + y^2 + z^2 for the i-th point (x, y, z). *)
Lemma sphere_system_row (coords : list (point R)) (i : nat) (x y z : R) :
  nth_error coords i = Some (x, y, z) ->
  nth_error (sphere_A coords) i = Some [x * 2; y * 2; z * 2; 1] /\
  nth_error (sphere_f coords) i = Some (x * x + y * y + z * z).
Proof.
  intro E. unfold sphere_A, sphere_f.
  split; rewrite nth_error_map; unfold point in *; rewrite E; reflexivity.
Qed.

Lemma residual2_sphere (coords : list (point R)) (c1 c2 c3 c4 : R) :
  residual2 (sphere_A coords) (sphere_f coords) [c1; c2; c3; c4] =
  sphere_error coords c1 c2 c3 c4.
Proof.
  unfold residual2, sphere_error, sphere_A, sphere_f.
  induction coords as [| [[x y] z] coords IH]; [reflexivity |].
  cbn [map combine fold_right fst snd]. rewrite IH.
  f_equal. unfold row_dot. cbn. ring.
Qed.

(** C1.  When [lstsq] solves the system A C = f whose row for the point
    (x, y, z) is (2x, 2y, 2z, 1) with right-hand side x^2 + y^2 + z^2 and
    reports rank 4 or more, [fitSphere] returns a sphere with centre
    (C1, C2, C3) and radius sqrt(C1^2 + C2^2 + C3^2 + C4), where C is the
    solution [lstsq] returned: the least-squares solution of that system. *)
Theorem fitSphere_least_squares (N : Numerics R) (coords : fit_input R)
  (C residue sv : list R) (rank : Z) :
  let pts := input_coords coords in
  lstsq (sphere_A pts) (sphere_f pts) = Ok (C, residue, rank, sv) ->
  (4 <= rank)%Z ->
  length C = 4%nat ->
  least_squares_solution (sphere_A pts) (sphere_f pts) C ->
  exists (c1 c2 c3 c4 : R) (s : Sphere R),
    C = [c1; c2; c3; c4] /\
    fitSphere coords = Ok (Some s) /\
    sphere_center s = (c1, c2, c3) /\
    sphere_radius s = R_sqrt.sqrt (c1 * c1 + c2 * c2 + c3 * c3 + c4) /\
    forall c1' c2' c3' c4' : R,
      sphere_error pts c1 c2 c3 c4 <= sphere_error pts c1' c2' c3' c4'.
Proof.
  intros pts E Hrank HC Hls.
  destruct (length4 _ HC) as (c1 & c2 & c3 & c4 & ->).
  exists c1, c2, c3, c4. eexists.
  split; [reflexivity |]. split.
  - unfold fitSphere. fold pts. rewrite E. cbn [rbind].
    destruct (Z.ltb_spec rank 4) as [? | _]; [lia |].
    cbn [index nth_error rbind]. reflexivity.
  - split; [reflexivity |]. split; [reflexivity |].
    intros c1' c2' c3' c4'.
    rewrite <- !residual2_sphere. apply Hls. reflexivity.
Qed.

End SphereFit.

(** ** fitLine *)

Section LineFit.
Local Open Scope R_scope.

Lemma norm_nonneg (a : point R) : 0 <= norm a.
Proof. unfold norm. cbn. apply sqrt_pos. Qed.

Lemma dot_self_nonneg (a : point R) : 0 <= dot a a.
Proof. destruct a as [[x y] z]. cbn. nra. Qed.

Lemma norm_sqr (a : point R) : norm a * norm a = dot a a.
Proof. unfold norm. cbn [fsqrt R_scalar]. apply sqrt_sqrt, dot_self_nonneg. Qed.

(** [fitLine] on a non-empty array whose SVD numpy returns. *)
Lemma fitLine_run (N : Numerics R) (points : fit_input R)
  (u : list (list R)) (s : list R) (vv0 : point R) (vh : list (point R)) :
  let data := input_coords points in
  data <> [] ->
  svd (center_rows data (mean data)) = Ok (u, s, vv0 :: vh) ->
  exists xyz_min xyz_max : point R,
    amin data = Ok xyz_min /\ amax data = Ok xyz_max /\
    fitLine points =
      Ok (mkLine
            (vsub (mean data)
               (smul (norm (vsub xyz_min (mean data))) (vdiv vv0 (norm vv0))))
            (vadd (mean data)
               (smul (norm (vsub xyz_max (mean data))) (vdiv vv0 (norm vv0))))
            (vdiv vv0 (norm vv0)) (mean data) s).
Proof.
  intros data Hne E.
  destruct (amin_Ok Hne) as [lo Elo]. destruct (amax_Ok Hne) as [hi Ehi].
  exists lo, hi. split; [exact Elo |]. split; [exact Ehi |].
  unfold fitLine. fold data. rewrite E. cbn [rbind index nth_error].
  rewrite Elo, Ehi. reflexivity.
Qed.

(** C4, as the code has it.  The segment of [fitLine] runs from
    centroid - a v to centroid + b v, where v is the first right-singular
    vector divided by its norm and a, b >= 0 are the distances from the
    centroid to the minimum and to the maximum corner of the bounding box
    of the points. *)
Theorem fitLine_segment (N : Numerics R) (points : fit_input R)
  (u : list (list R)) (s : list R) (vv0 : point R) (vh : list (point R)) :
  let data := input_coords points in
  data <> [] ->
  svd (center_rows data (mean data)) = Ok (u, s, vv0 :: vh) ->
  exists xyz_min xyz_max : point R,
    amin data = Ok xyz_min /\ amax data = Ok xyz_max /\
    let datamean := mean data in
    let vv := vdiv vv0 (norm vv0) in
    let a := norm (vsub xyz_min datamean) in
    let b := norm (vsub xyz_max datamean) in
    fitLine points =
      Ok (mkLine (vsub datamean (smul a vv)) (vadd datamean (smul b vv)) vv datamean s) /\
    0 <= a /\ 0 <= b.
Proof.
  intros data Hne E.
  destruct (fitLine_run N points Hne E) as (lo & hi & Elo & Ehi & Hl).
  exists lo, hi. split; [exact Elo |]. split; [exact Ehi |].
  cbv zeta. split; [exact Hl | split; apply norm_nonneg].
Qed.

Lemma mean_collinear4 : mean collinear4 = (0, 0, 0).
Proof.
  unfold mean, vsum, collinear4. cbn [fold_left vadd vzero length vdiv].
  cbn. f_equal; [f_equal |]; lra.
Qed.

Lemma amin_collinear4 : amin collinear4 = Ok (-9, -8, 0).
Proof.
  unfold amin, collinear4. cbn [fold_left vmin]. cbn [fmin R_scalar].
  unfold Rmin. repeat (destruct (Rle_dec _ _); try lra).
  reflexivity.
Qed.

Lemma amax_collinear4 : amax collinear4 = Ok (6, 12, 0).
Proof.
  unfold amax, collinear4. cbn [fold_left vmax]. cbn [fmax R_scalar].
  unfold Rmax. repeat (destruct (Rle_dec _ _); try lra).
  reflexivity.
Qed.

Lemma sum_sq_proj_collinear4 (w1 w2 w3 : R) :
  sum_sq_proj (center_rows collinear4 (0, 0, 0)) (w1, w2, w3) =
  350 * (-3 / 5 * w1 + 4 / 5 * w2) ^ 2.
Proof. unfold sum_sq_proj, center_rows, collinear4. cbn. field. Qed.

Lemma proj_collinear4_le_1 (w1 w2 w3 : R) :
  w1 * w1 + w2 * w2 + w3 * w3 = 1 -> (-3 / 5 * w1 + 4 / 5 * w2) ^ 2 <= 1.
Proof.
  intro Hw.
  assert (0 <= (4 / 5 * w1 + 3 / 5 * w2) ^ 2) by apply pow2_ge_0.
  assert (0 <= w3 ^ 2) by apply pow2_ge_0. nra.
Qed.

(** (-3/5, 4/5, 0) is a principal direction of these points. *)
Lemma collinear4_direction :
  principal_direction (center_rows collinear4 (0, 0, 0)) (-3 / 5, 4 / 5, 0).
Proof.
  split; [cbn; field |].
  intros [[w1 w2] w3] Hw. cbn in Hw.
  rewrite !sum_sq_proj_collinear4.
  pose proof (proj_collinear4_le_1 Hw). nra.
Qed.

(** A principal direction of these points is (-3/5, 4/5, 0) up to sign:
    the first point projects on it at distance 15 from the centroid. *)
Lemma principal_direction_collinear4 (v1 v2 v3 : R) :
  principal_direction (center_rows collinear4 (0, 0, 0)) (v1, v2, v3) ->
  v1 * v1 + v2 * v2 + v3 * v3 = 1 /\ (-9 * v1 + 12 * v2) ^ 2 = 225.
Proof.
  intros [Hunit Hmax].
  cbn in Hunit.
  specialize (Hmax (-3 / 5, 4 / 5, 0)).
  rewrite !sum_sq_proj_collinear4 in Hmax.
  assert (Hu : dot (F:=R) (-3 / 5, 4 / 5, 0) (-3 / 5, 4 / 5, 0) = 1) by (cbn; field).
  specialize (Hmax Hu).
  split; [exact Hunit |].
  pose proof (proj_collinear4_le_1 Hunit) as Hle.
  nra.
Qed.

(** Whatever sign the SVD gives the principal direction, the segment of
    [fitLine] stops short of the projection of the point (-9, 12, 0). *)
Lemma fitLine_misses_extreme_point (N : Numerics R)
  (u : list (list R)) (s : list R) (vv0 : point R) (vh : list (point R)) (l : Line R) :
  svd (center_rows collinear4 (mean collinear4)) = Ok (u, s, vv0 :: vh) ->
  principal_direction (center_rows collinear4 (mean collinear4)) vv0 ->
  fitLine (OfArray collinear4) = Ok l ->
  ~ on_segment (line_p1 l) (line_p2 l) (foot l (-9, 12, 0)).
Proof.
  intros E Hpd El.
  assert (Hne : input_coords (OfArray collinear4) <> []) by discriminate.
  destruct (fitLine_run N (OfArray collinear4) Hne E)
    as (lo & hi & Elo & Ehi & Hl).
  cbn [input_coords] in Elo, Ehi, Hl.
  rewrite amin_collinear4 in Elo. rewrite amax_collinear4 in Ehi.
  apply (f_equal (fun r => match r with Ok x => x | Raise _ => (0, 0, 0) end)) in Elo, Ehi.
  subst lo hi.
  rewrite El in Hl.
  apply (f_equal (fun r => match r with Ok x => x | Raise _ => l end)) in Hl.
  cbv beta iota in Hl.
  rewrite mean_collinear4 in *.
  destruct vv0 as [[v1 v2] v3].
  destruct (principal_direction_collinear4 Hpd) as [Hunit Hd].
  assert (Hn : norm (v1, v2, v3) = 1).
  { unfold norm. cbn. rewrite Hunit. apply sqrt_1. }
  rewrite Hn in Hl.
  set (a := norm (vsub (-9, -8, 0) (0, 0, 0))) in Hl.
  set (b := norm (vsub (6, 12, 0) (0, 0, 0))) in Hl.
  subst l.
  assert (Ha : 0 <= a) by apply norm_nonneg.
  assert (Hb : 0 <= b) by apply norm_nonneg.
  assert (Haa : a * a = 145) by (unfold a; rewrite norm_sqr; cbn; ring).
  assert (Hbb : b * b = 180) by (unfold b; rewrite norm_sqr; cbn; ring).
  clearbody a b.
  intros (t & [Ht0 Ht1] & Hq).
  unfold foot in Hq. cbn in Hq.
  inversion Hq as [[H1 H2 H3]]. clear Hq.
  set (d := -9 * v1 + 12 * v2) in *.
  set (K := d + a - t * (a + b)).
  assert (K1 : K * v1 = 0) by (unfold K, d; field_simplify in H1; lra).
  assert (K2 : K * v2 = 0) by (unfold K, d; field_simplify in H2; lra).
  assert (K3 : K * v3 = 0) by (unfold K, d; field_simplify in H3; lra).
  assert (HK : K = 0).
  { replace K with (K * (v1 * v1 + v2 * v2 + v3 * v3)) by (rewrite Hunit; ring).
    replace (K * (v1 * v1 + v2 * v2 + v3 * v3))
      with (K * v1 * v1 + K * v2 * v2 + K * v3 * v3) by ring.
    rewrite K1, K2, K3. ring. }
  unfold K in HK.
  assert (Hlo : - a <= d) by nra.
  assert (Hhi : d <= b) by nra.
  destruct (Rle_dec 0 d); nra.
Qed.

End LineFit.

(** C4 as stated fails.  For the four collinear points of [collinear4],
    numpy's SVD has a principal direction to return, [fitLine] returns a
    segment, and for every principal direction the SVD may return the
    segment does not span the data: it ends between the centroid and the
    projection of the extreme point (-9, 12, 0). *)
Lemma fitLine_does_not_span_data :
  exists data : list (point R),
    data <> [] /\
    (exists (N : Numerics R) (u : list (list R)) (s : list R)
            (vv0 : point R) (vh : list (point R)) (l : Line R),
        svd (center_rows data (mean data)) = Ok (u, s, vv0 :: vh) /\
        principal_direction (center_rows data (mean data)) vv0 /\
        fitLine (OfArray data) = Ok l) /\
    forall (N : Numerics R) (u : list (list R)) (s : list R)
           (vv0 : point R) (vh : list (point R)) (l : Line R),
      svd (center_rows data (mean data)) = Ok (u, s, vv0 :: vh) ->
      principal_direction (center_rows data (mean data)) vv0 ->
      fitLine (OfArray data) = Ok l ->
      ~ spans_data l data.
Proof.
  exists collinear4. split; [discriminate |]. split.
  - set (out := (@nil (list R), [R_sqrt.sqrt 350; 0; 0]%R,
                 [(-3 / 5, 4 / 5, 0); (4 / 5, 3 / 5, 0); (0, 0, 1)]%R)).
    set (N := recorded_numerics (Ok out) (Raise LinAlgError) 0%R).
    assert (E : @svd R N (center_rows collinear4 (mean collinear4)) =
                Ok ([], [R_sqrt.sqrt 350; 0; 0]%R,
                    (-3 / 5, 4 / 5, 0)%R :: [(4 / 5, 3 / 5, 0); (0, 0, 1)]%R))
      by reflexivity.
    assert (Hne : input_coords (OfArray collinear4) <> []) by discriminate.
    destruct (fitLine_run N (OfArray collinear4) Hne E)
      as (lo & hi & _ & _ & Hl).
    eexists N, _, _, _, _, _.
    split; [exact E |]. split; [| exact Hl].
    rewrite mean_collinear4. exact collinear4_direction.
  - intros N u s vv0 vh l E Hpd El Hspan.
    apply (fitLine_misses_extreme_point N E Hpd El).
    apply Hspan. left. reflexivity.
Qed.

(** ** The smoothers: what is emitted and what is stored *)

Section SmootherFacts.
Context {F : Type} `{Scalar F} `{Numerics F} `{VtkLocator F}.
Local Open Scope scalar_scope.

Lemma subseq_length {A : Type} (l1 l2 : list A) :
  subseq l1 l2 -> length l1 <= length l2.
Proof. induction 1; simpl; lia. Qed.

(** The invariant of the loop of [smoothMLS1D]: the two lists grow
    together, by the residual and the output of the same pass. *)
Lemma smoothMLS1D_loop_parallel (Ncp : Z) (radius : option F) (coords : list (point F)) :
  forall (variances : list F) (newline : list (point F)) (self self' : Points F)
         (variances' : list F) (newline' : list (point F)),
    smoothMLS1D_loop Ncp radius coords variances newline self
      = (self', Ok (variances', newline')) ->
    exists es : list (emitted F),
      variances' = variances ++ map residual_of es /\
      newline' = newline ++ map output_of es /\
      subseq (map input_of es) coords /\
      Forall (emits1D Ncp radius) es.
Proof.
  induction coords as [| p rest IH]; intros variances newline self self' vs' nl' E.
  - cbn in E. inversion E; subst. exists [].
    rewrite !app_nil_r. repeat split; constructor.
  - cbn [smoothMLS1D_loop] in E. unfold bind at 1 in E.
    destruct (closestPoint p Ncp radius self) as [st1 [[points | q] | e]] eqn:Ec;
      [| | discriminate E].
    + destruct (Nat.ltb_spec (length points) 4) as [Hlt | Hge].
      * destruct (IH _ _ _ _ _ _ E) as (es & -> & -> & Hsub & Hall).
        exists es. repeat split; [constructor; exact Hsub | exact Hall].
      * unfold bind, lift in E.
        destruct (svd _) as [[[uu dd] vv] | e] eqn:Esvd; [| discriminate E].
        destruct (index vv 0) as [vv0 | e] eqn:E0; [| discriminate E].
        destruct (index dd 1) as [dd1 | e] eqn:E1; [| discriminate E].
        destruct (index dd 2) as [dd2 | e] eqn:E2; [| discriminate E].
        destruct (IH _ _ _ _ _ _ E) as (es & -> & -> & Hsub & Hall).
        set (newp := vadd (smul (dot (vsub p (mean points)) vv0) vv0) (mean points)).
        exists (mkEmitted p (dd1 + dd2) newp :: es).
        cbn [map]. rewrite <- !app_assoc. cbn [app].
        repeat split; [constructor; exact Hsub |].
        constructor; [| exact Hall].
        exists self, st1, points, uu, dd, vv, vv0, dd1, dd2.
        apply index_Ok in E0, E1, E2. cbn [input_of residual_of output_of].
        repeat split; assumption || reflexivity.
    + destruct (IH _ _ _ _ _ _ E) as (es & -> & -> & Hsub & Hall).
      exists es. repeat split; [constructor; exact Hsub | exact Hall].
Qed.

Lemma smoothMLS2D_loop_parallel (Ncp : Z) (radius : option F) (coords : list (point F)) :
  forall (variances : list F) (newpts : list (point F)) (self self' : Points F)
         (variances' : list F) (newpts' : list (point F)),
    smoothMLS2D_loop Ncp radius coords variances newpts self
      = (self', Ok (variances', newpts')) ->
    exists es : list (emitted F),
      variances' = variances ++ map residual_of es /\
      newpts' = newpts ++ map output_of es /\
      subseq (map input_of es) coords /\
      Forall (emits2D Ncp radius) es.
Proof.
  induction coords as [| p rest IH]; intros variances newpts self self' vs' nl' E.
  - cbn in E. inversion E; subst. exists [].
    rewrite !app_nil_r. repeat split; constructor.
  - cbn [smoothMLS2D_loop] in E. unfold bind at 1 in E.
    destruct (closestPoint p Ncp radius self) as [st1 [[pts | q] | e]] eqn:Ec;
      [| discriminate E | discriminate E].
    destruct (truthy radius && (length pts <? 5)%nat) eqn:Hskip.
    + destruct (IH _ _ _ _ _ _ E) as (es & -> & -> & Hsub & Hall).
      exists es. repeat split; [constructor; exact Hsub | exact Hall].
    + unfold bind, lift in E.
      destruct (svd _) as [[[uu dd] vv] | e] eqn:Esvd; [| discriminate E].
      destruct (index vv 0) as [vv0 | e] eqn:E0; [| discriminate E].
      destruct (index vv 1) as [vv1 | e] eqn:E1; [| discriminate E].
      destruct (index dd 2) as [dd2 | e] eqn:E2; [| discriminate E].
      destruct (IH _ _ _ _ _ _ E) as (es & -> & -> & Hsub & Hall).
      set (cv := cross vv0 vv1).
      set (t := (dot cv (mean pts) - dot cv p) / dot cv cv).
      exists (mkEmitted p dd2 (vadd p (vscale t cv)) :: es).
      cbn [map]. rewrite <- !app_assoc. cbn [app].
      repeat split; [constructor; exact Hsub |].
      constructor; [| exact Hall].
      exists self, st1, pts, uu, dd, vv, vv0, vv1, dd2.
      apply index_Ok in E0, E1, E2. cbn [input_of residual_of output_of].
      repeat split; try assumption; try reflexivity.
      intro Ht. rewrite Ht in Hskip. cbn [andb] in Hskip.
      apply Nat.ltb_ge in Hskip. exact Hskip.
Qed.


(** What the two smoothers do after their loop: [info["variances"]] is
    stored first, then the coordinates are replaced, which fails on an
    empty list. *)
Lemma store_run (variances : list F) (newline : list (point F)) (st : Points F) :
  (modify (set_info_variances variances) ;;
   points (Some (map row_of newline)) true)%M st =
  match newline with
  | [] => (set_info_variances variances st, Raise IndexError)
  | _ :: _ =>
      if has_polydata st then
        match dataset st with
        | Some _ =>
            (PokeMatrix identity4 (SetData newline (set_info_variances variances st)),
             Ok Self)
        | None => (set_info_variances variances st, Raise AttributeError)
        end
      else (set_info_variances variances st, Raise AttributeError)
  end.
Proof.
  unfold bind at 1. unfold modify at 1.
  rewrite points_set_rows_run. destruct newline; reflexivity.
Qed.

Lemma store_Ok (variances : list F) (newline : list (point F)) (st st' : Points F) :
  (modify (set_info_variances variances) ;;
   points (Some (map row_of newline)) true)%M st = (st', Ok Self) ->
  dataset st' = Some newline /\ info_variances st' = Some variances.
Proof.
  rewrite store_run. destruct newline; [discriminate |].
  destruct (has_polydata st); [| discriminate].
  destruct (dataset st); [| discriminate].
  intro E. inversion E; subst. split; reflexivity.
Qed.

(** C10.  When [smoothMLS1D] or [smoothMLS2D] returns, the stored
    [info["variances"]] is parallel to the stored points: the two are the
    residuals and the outputs of one list of passes, those of the input
    points that were not skipped, in the order of the input; so they have
    the same length and the i-th residual was computed with the i-th
    point. *)
Theorem variances_parallel_to_points (f : F) (radius : option F) (self self' : Points F) :
  (smoothMLS1D f radius self = (self', Ok Self) ->
   exists (Ncp : Z) (coords : list (point F)) (es : list (emitted F)),
     snd (points_get true self) = Ok coords /\
     subseq (map input_of es) coords /\
     Forall (emits1D Ncp radius) es /\
     dataset self' = Some (map output_of es) /\
     info_variances self' = Some (map residual_of es) /\
     length (map residual_of es) = length (map output_of es)) /\
  (smoothMLS2D f radius self = (self', Ok Self) ->
   exists (Ncp : Z) (coords : list (point F)) (es : list (emitted F)),
     snd (points_get true self) = Ok coords /\
     subseq (map input_of es) coords /\
     Forall (emits2D Ncp radius) es /\
     dataset self' = Some (map output_of es) /\
     info_variances self' = Some (map residual_of es) /\
     length (map residual_of es) = length (map output_of es)).
Proof.
  split; intro E.
  - unfold smoothMLS1D in E.
    destruct (points_get_run true self) as [coords Ec].
    rewrite (bind_Ok _ _ _ Ec) in E.
    unfold bind at 1 in E. unfold lift at 1 in E.
    destruct (neighbourhood_size 10 (length coords) f radius) as [Ncp | e];
      [| discriminate E].
    unfold bind at 1 in E.
    destruct (smoothMLS1D_loop Ncp radius coords [] [] (bind_polydata self))
      as [st1 [[vs nl] | e]] eqn:El; [| discriminate E].
    destruct (smoothMLS1D_loop_parallel _ _ _ _ _ _ El) as (es & Hvs & Hnl & Hsub & Hall).
    cbn [app] in Hvs, Hnl. subst vs nl.
    destruct (store_Ok _ _ _ E) as [Hd Hi].
    exists Ncp, coords, es. rewrite Ec.
    repeat split; try assumption. rewrite !length_map. reflexivity.
  - unfold smoothMLS2D in E.
    destruct (points_get_run true self) as [coords Ec].
    rewrite (bind_Ok _ _ _ Ec) in E.
    unfold bind at 1 in E. unfold lift at 1 in E.
    destruct (neighbourhood_size 100 (length coords) f radius) as [Ncp | e];
      [| discriminate E].
    unfold bind at 1 in E.
    destruct (smoothMLS2D_loop Ncp radius coords [] [] (bind_polydata self))
      as [st1 [[vs nl] | e]] eqn:El; [| discriminate E].
    destruct (smoothMLS2D_loop_parallel _ _ _ _ _ _ El) as (es & Hvs & Hnl & Hsub & Hall).
    cbn [app] in Hvs, Hnl. subst vs nl.
    destruct (store_Ok _ _ _ E) as [Hd Hi].
    exists Ncp, coords, es. rewrite Ec.
    repeat split; try assumption. rewrite !length_map. reflexivity.
Qed.

(** *** A pass in which every point is skipped *)

Lemma neighbourhood_size_locator (d : Z) (ncoords : nat) (f : F)
  (radius : option F) (Ncp : Z) :
  neighbourhood_size d ncoords f radius = Ok Ncp ->
  (1 <? Ncp)%Z || truthy radius = true.
Proof.
  unfold neighbourhood_size. destruct (truthy radius).
  - intros _. apply Bool.orb_true_r.
  - destruct (ftrunc _) as [n | e]; [| discriminate]. cbn [rbind].
    destruct (Z.ltb_spec n 5); intro E; inversion E; subst;
      rewrite Bool.orb_false_r; apply Z.ltb_lt; lia.
Qed.

(** One query in such a pass: fewer than 4 points come back, and the
    locator that is cached is the one over the current coordinates. *)
Lemma closestPoint_few (pt : point F) (N : Z) (radius : option F)
  (self : Points F) (vpts : list (point F)) :
  (1 <? N)%Z || truthy radius = true ->
  effective_polydata self = Some vpts ->
  few_neighbours (Some vpts) ->
  point_locator self = None \/ point_locator self = Some (Some vpts) ->
  exists (self' : Points F) (trgp : list (point F)),
    closestPoint pt N radius self = (self', Ok (Many trgp)) /\
    length trgp < 4 /\
    effective_polydata self' = Some vpts /\
    point_locator self' = Some (Some vpts) /\
    dataset self' = dataset self /\ has_polydata self' = true.
Proof.
  intros Hpath Hpoly Hfew Hloc.
  unfold closestPoint. unfold bind at 1. rewrite polydata_run.
  cbn [andb]. fold (effective_polydata self). rewrite Hpoly, Hpath.
  unfold bind, get_self, modify, ret, raise.
  destruct self as [d hp ii m pl cl iv].
  unfold effective_polydata in Hpoly. cbn in Hpoly, Hloc |- *.
  assert (Hids : forall ids : list nat,
             length ids < 4 ->
             exists trgp : list (point F),
               match ids with
               | [] => Ok (Many [])
               | _ :: _ => Ok (Many (map (fun vi => nth vi vpts vzero) ids))
               end = Ok (Many trgp) /\ length trgp < 4).
  { intros [| i ids] Hl; eexists; (split; [reflexivity |]);
      [simpl; lia | rewrite length_map; exact Hl]. }
  destruct Hloc as [-> | ->]; cbn.
  - destruct (Hids (if (1 <? N)%Z then FindClosestNPoints (Some vpts) N pt
                    else match radius with
                         | Some r => FindPointsWithinRadius (Some vpts) r pt
                         | None => []
                         end)) as (trgp & Et & Hl).
    { destruct (1 <? N)%Z; [apply (Hfew N fzero pt) |].
      destruct radius as [r |]; [apply (Hfew N r pt) | simpl; lia]. }
    eexists _, trgp. split.
    + destruct (if (1 <? N)%Z then _ else _); rewrite <- Et; reflexivity.
    + unfold effective_polydata. cbn. repeat split; assumption || reflexivity.
  - destruct (Hids (if (1 <? N)%Z then FindClosestNPoints (Some vpts) N pt
                    else match radius with
                         | Some r => FindPointsWithinRadius (Some vpts) r pt
                         | None => []
                         end)) as (trgp & Et & Hl).
    { destruct (1 <? N)%Z; [apply (Hfew N fzero pt) |].
      destruct radius as [r |]; [apply (Hfew N r pt) | simpl; lia]. }
    eexists _, trgp. split.
    + destruct (if (1 <? N)%Z then _ else _); rewrite <- Et; reflexivity.
    + unfold effective_polydata. cbn. repeat split; assumption || reflexivity.
Qed.

Lemma smoothMLS1D_loop_all_skipped (Ncp : Z) (radius : option F)
  (vpts coords : list (point F)) (variances : list F) (newline : list (point F)) :
  (1 <? Ncp)%Z || truthy radius = true ->
  few_neighbours (Some vpts) ->
  forall self : Points F,
    effective_polydata self = Some vpts ->
    point_locator self = None \/ point_locator self = Some (Some vpts) ->
    exists self' : Points F,
      smoothMLS1D_loop Ncp radius coords variances newline self
        = (self', Ok (variances, newline)) /\
      dataset self' = dataset self.
Proof.
  intros Hpath Hfew.
  induction coords as [| p rest IH]; intros self Hpoly Hloc.
  - exists self. split; reflexivity.
  - destruct (closestPoint_few p Ncp radius self Hpath Hpoly Hfew Hloc)
      as (st1 & trgp & Ec & Hl & Hpoly1 & Hloc1 & Hd1 & _).
    destruct (IH st1 Hpoly1 (or_intror Hloc1)) as (self' & El & Hd).
    exists self'. split; [| congruence].
    cbn [smoothMLS1D_loop]. unfold bind at 1. rewrite Ec.
    destruct (Nat.ltb_spec (length trgp) 4); [exact El | lia].
Qed.

(** C7 fails on such a pass.  When every neighbourhood has fewer than 4
    members, [smoothMLS1D] skips every point, stores an empty
    [info["variances"]] and then raises IndexError from the replacement of
    the coordinates by the empty list; the coordinates are left as they
    were. *)
Theorem smoothMLS1D_all_skipped_raises (f : F) (radius : option F)
  (self : Points F) (vpts : list (point F)) (Ncp : Z) :
  effective_polydata self = Some vpts ->
  point_locator self = None ->
  few_neighbours (Some vpts) ->
  neighbourhood_size 10 (length vpts) f radius = Ok Ncp ->
  exists self' : Points F,
    smoothMLS1D f radius self = (self', Raise IndexError) /\
    dataset self' = dataset self /\
    info_variances self' = Some [].
Proof.
  intros Hpoly Hloc Hfew HNcp.
  assert (Ec : points_get true self = (bind_polydata self, Ok vpts)).
  { unfold points_get. unfold bind. rewrite polydata_run. cbn [andb].
    fold (effective_polydata self). rewrite Hpoly. reflexivity. }
  pose proof (@smoothMLS1D_loop_all_skipped Ncp radius vpts vpts [] []
                (neighbourhood_size_locator _ _ _ _ HNcp) Hfew
                (bind_polydata self)) as Hloop.
  destruct Hloop as (st1 & El & Hd); [exact Hpoly | left; exact Hloc |].
  exists (set_info_variances [] st1).
  split; [| split; [exact Hd | reflexivity]].
  unfold smoothMLS1D. rewrite (bind_Ok _ _ _ Ec).
  unfold bind at 1. unfold lift at 1. rewrite HNcp.
  unfold bind at 1. rewrite El.
  apply (store_run [] [] st1).
Qed.

End SmootherFacts.

(** ** Further properties of the store and of the fitters *)

Section StoreFacts.
Context {F : Type} `{Scalar F} `{Numerics F} `{VtkLocator F}.

(** X4.  Replacing the coordinates by an empty list raises IndexError and
    leaves the object as it was. *)
Lemma points_set_empty (transformed : bool) (self : Points F) :
  points (Some []) transformed self = (self, Raise IndexError).
Proof. reflexivity. Qed.


(** X3.  When a smoother returns, it stored at least one point and at most
    as many as it read. *)
Lemma smoothMLS_output_count (f : F) (radius : option F) (self self' : Points F) :
  smoothMLS1D f radius self = (self', Ok Self) \/
  smoothMLS2D f radius self = (self', Ok Self) ->
  exists coords newpts : list (point F),
    snd (points_get true self) = Ok coords /\
    dataset self' = Some newpts /\
    0 < length newpts <= length coords.
Proof.
  destruct (points_get_run true self) as [coords Ec].
  intros [E | E]; exists coords.
  - unfold smoothMLS1D in E. rewrite (bind_Ok _ _ _ Ec) in E.
    unfold bind at 1 in E. unfold lift at 1 in E.
    destruct (neighbourhood_size 10 (length coords) f radius) as [Ncp | e];
      [| discriminate E].
    unfold bind at 1 in E.
    destruct (smoothMLS1D_loop Ncp radius coords [] [] (bind_polydata self))
      as [st1 [[vs nl] | e]] eqn:El; [| discriminate E].
    destruct (smoothMLS1D_loop_parallel _ _ _ _ _ _ El) as (es & _ & Hnl & Hsub & _).
    cbn [app] in Hnl. subst nl.
    destruct (store_Ok _ _ _ E) as [Hd _].
    exists (map (@output_of F) es). rewrite Ec. split; [reflexivity |].
    split; [exact Hd |].
    apply subseq_length in Hsub. rewrite !length_map in *.
    rewrite store_run in E. destruct es; [discriminate E | simpl in *; lia].
  - unfold smoothMLS2D in E. rewrite (bind_Ok _ _ _ Ec) in E.
    unfold bind at 1 in E. unfold lift at 1 in E.
    destruct (neighbourhood_size 100 (length coords) f radius) as [Ncp | e];
      [| discriminate E].
    unfold bind at 1 in E.
    destruct (smoothMLS2D_loop Ncp radius coords [] [] (bind_polydata self))
      as [st1 [[vs nl] | e]] eqn:El; [| discriminate E].
    destruct (smoothMLS2D_loop_parallel _ _ _ _ _ _ El) as (es & _ & Hnl & Hsub & _).
    cbn [app] in Hnl. subst nl.
    destruct (store_Ok _ _ _ E) as [Hd _].
    exists (map (@output_of F) es). rewrite Ec. split; [reflexivity |].
    split; [exact Hd |].
    apply subseq_length in Hsub. rewrite !length_map in *.
    rewrite store_run in E. destruct es; [discriminate E | simpl in *; lia].
Qed.

End StoreFacts.

Section FitterFacts.
Local Open Scope R_scope.

Lemma fold_vmin_le (l : list (point R)) :
  forall acc : point R,
    le3 (fold_left vmin l acc) acc /\
    forall p : point R, In p l -> le3 (fold_left vmin l acc) p.
Proof.
  unfold le3.
  induction l as [| q l IH]; intros [[a0 a1] a2]; cbn [fold_left].
  - split; [cbn; repeat split; lra | intros p Hp; destruct Hp].
  - destruct q as [[q0 q1] q2].
    change (vmin (a0, a1, a2) (q0, q1, q2))
      with (Rmin a0 q0, Rmin a1 q1, Rmin a2 q2).
    destruct (IH (Rmin a0 q0, Rmin a1 q1, Rmin a2 q2)) as [Hacc Hin].
    cbn [fst snd] in Hacc.
    pose proof (Rmin_l a0 q0). pose proof (Rmin_l a1 q1). pose proof (Rmin_l a2 q2).
    pose proof (Rmin_r a0 q0). pose proof (Rmin_r a1 q1). pose proof (Rmin_r a2 q2).
    split.
    + cbn [fst snd] in *. intuition lra.
    + intros p [<- | Hp]; [cbn [fst snd] in *; intuition lra | apply Hin, Hp].
Qed.

Lemma fold_vmax_ge (l : list (point R)) :
  forall acc : point R,
    le3 acc (fold_left vmax l acc) /\
    forall p : point R, In p l -> le3 p (fold_left vmax l acc).
Proof.
  unfold le3.
  induction l as [| q l IH]; intros [[a0 a1] a2]; cbn [fold_left].
  - split; [cbn; repeat split; lra | intros p Hp; destruct Hp].
  - destruct q as [[q0 q1] q2].
    change (vmax (a0, a1, a2) (q0, q1, q2))
      with (Rmax a0 q0, Rmax a1 q1, Rmax a2 q2).
    destruct (IH (Rmax a0 q0, Rmax a1 q1, Rmax a2 q2)) as [Hacc Hin].
    cbn [fst snd] in Hacc.
    pose proof (Rmax_l a0 q0). pose proof (Rmax_l a1 q1). pose proof (Rmax_l a2 q2).
    pose proof (Rmax_r a0 q0). pose proof (Rmax_r a1 q1). pose proof (Rmax_r a2 q2).
    split.
    + cbn [fst snd] in *. intuition lra.
    + intros p [<- | Hp]; [cbn [fst snd] in *; intuition lra | apply Hin, Hp].
Qed.

(** X2.  [points.min(axis=0)] and [points.max(axis=0)] are the corners of
    the axis-aligned bounding box: every point lies between them. *)
Lemma amin_amax_bounding_box (data : list (point R)) (xyz_min xyz_max : point R) :
  amin data = Ok xyz_min -> amax data = Ok xyz_max ->
  forall p : point R, In p data -> le3 xyz_min p /\ le3 p xyz_max.
Proof.
  destruct data as [| q data]; [discriminate |].
  cbn [amin amax]. intros Hlo Hhi p Hp.
  inversion Hlo; subst xyz_min. inversion Hhi; subst xyz_max.
  destruct (fold_vmin_le data q) as [Hq Hin].
  destruct (fold_vmax_ge data q) as [Hq' Hin'].
  destruct Hp as [<- | Hp]; [split; assumption | split; [apply Hin | apply Hin']; exact Hp].
Qed.

(** X1.  For coplanar points the columns of the sphere system are linearly
    dependent: in exact arithmetic its rank is below 4. *)
Lemma coplanar_sphere_system_dependent (coords : list (point R)) :
  coplanar coords ->
  exists v1 v2 v3 v4 : R,
    (v1, v2, v3) <> (0, 0, 0) /\
    forall row : list R, In row (sphere_A coords) -> row_dot row [v1; v2; v3; v4] = 0.
Proof.
  intros ([[n1 n2] n3] & d & Hn & Hplane).
  exists n1, n2, n3, (-2 * d). split; [exact Hn |].
  intros row Hrow. unfold sphere_A in Hrow.
  apply in_map_iff in Hrow. destruct Hrow as ([[x y] z] & <- & Hp).
  specialize (Hplane _ Hp). cbn in Hplane.
  unfold row_dot. cbn. lra.
Qed.

End FitterFacts.


(** ** The geometry of the fits *)

Section FitGeometry.
Local Open Scope R_scope.

Lemma point_eq (a0 a1 a2 b0 b1 b2 : R) :
  a0 = b0 -> a1 = b1 -> a2 = b2 -> (a0, a1, a2) = (b0, b1, b2).
Proof. intros -> -> ->. reflexivity. Qed.

Lemma cauchy_schwarz3 (a b : point R) : dot a b * dot a b <= dot a a * dot b b.
Proof.
  destruct a as [[a0 a1] a2], b as [[b0 b1] b2]. cbn.
  pose proof (pow2_ge_0 (a0 * b1 - a1 * b0)).
  pose proof (pow2_ge_0 (a1 * b2 - a2 * b1)).
  pose proof (pow2_ge_0 (a2 * b0 - a0 * b2)).
  nra.
Qed.

Lemma dot_le_norms (a b : point R) : dot a b <= norm a * norm b.
Proof.
  pose proof (cauchy_schwarz3 a b) as Hcs.
  pose proof (norm_nonneg a) as Ha. pose proof (norm_nonneg b) as Hb.
  pose proof (norm_sqr a) as Ea. pose proof (norm_sqr b) as Eb.
  destruct (Rle_or_lt (dot a b) (norm a * norm b)) as [Hle | Hgt]; [exact Hle |].
  exfalso.
  assert (0 <= norm a * norm b) by nra.
  assert ((norm a * norm b) * (norm a * norm b) < dot a b * dot a b) by nra.
  assert ((norm a * norm b) * (norm a * norm b) = dot a a * dot b b) by nra.
  lra.
Qed.

(** The triangle inequality for [np.linalg.norm]. *)
Lemma norm_vsub_le (a b : point R) : norm (vsub a b) <= norm a + norm b.
Proof.
  pose proof (norm_nonneg a) as Ha. pose proof (norm_nonneg b) as Hb.
  pose proof (norm_nonneg (vsub a b)) as Hab.
  pose proof (norm_sqr a) as Ea. pose proof (norm_sqr b) as Eb.
  pose proof (norm_sqr (vsub a b)) as Eab.
  pose proof (dot_le_norms (smul (-1) a) b) as Hd.
  assert (En : norm (smul (-1) a) = norm a).
  { unfold norm. f_equal. destruct a as [[a0 a1] a2]. cbn. ring. }
  rewrite En in Hd.
  assert (Ed : dot (vsub a b) (vsub a b) = dot a a + dot b b + 2 * dot (smul (-1) a) b).
  { destruct a as [[a0 a1] a2], b as [[b0 b1] b2]. cbn. ring. }
  destruct (Rle_or_lt (norm (vsub a b)) (norm a + norm b)) as [Hle | Hgt]; [exact Hle |].
  exfalso. nra.
Qed.

Lemma norm_smul (k : R) (v : point R) : 0 <= k -> norm (smul k v) = k * norm v.
Proof.
  intro Hk. unfold norm. cbn [fsqrt R_scalar].
  replace (dot (smul k v) (smul k v)) with (k * k * dot v v)
    by (destruct v as [[x y] z]; cbn; ring).
  rewrite sqrt_mult; [| nra | apply dot_self_nonneg].
  rewrite sqrt_square; [reflexivity | exact Hk].
Qed.

Lemma norm_unit (v : point R) : norm v <> 0 -> norm (vdiv v (norm v)) = 1.
Proof.
  intro Hn. pose proof (norm_nonneg v) as Hv.
  replace (vdiv v (norm v)) with (smul (/ norm v) v)
    by (destruct v as [[x y] z]; cbn; apply point_eq; field; exact Hn).
  rewrite norm_smul; [field; exact Hn |].
  left. apply Rinv_0_lt_compat. lra.
Qed.

(** X7.  The segment of [fitLine] contains the centroid, and it is at least
    as long as the diagonal of the bounding box of the points. *)
Theorem fitLine_segment_length (N : Numerics R) (points : fit_input R)
  (u : list (list R)) (s : list R) (vv0 : point R) (vh : list (point R)) :
  let data := input_coords points in
  data <> [] ->
  svd (center_rows data (mean data)) = Ok (u, s, vv0 :: vh) ->
  norm vv0 <> 0 ->
  exists (l : Line R) (xyz_min xyz_max : point R),
    fitLine points = Ok l /\
    amin data = Ok xyz_min /\ amax data = Ok xyz_max /\
    on_segment (line_p1 l) (line_p2 l) (mean data) /\
    norm (vsub xyz_max xyz_min) <= norm (vsub (line_p2 l) (line_p1 l)).
Proof.
  intros data Hne E Hn.
  destruct (fitLine_run N points Hne E) as (lo & hi & Elo & Ehi & Hl).
  fold data in Elo, Ehi, Hl.
  eexists _, lo, hi. split; [exact Hl |]. split; [exact Elo |]. split; [exact Ehi |].
  cbn [line_p1 line_p2].
  set (c := mean data). set (v := vdiv vv0 (norm vv0)).
  set (a := norm (vsub lo c)). set (b := norm (vsub hi c)).
  assert (Ha : 0 <= a) by apply norm_nonneg.
  assert (Hb : 0 <= b) by apply norm_nonneg.
  split.
  - clearbody a b c v.
    destruct (Req_dec (a + b) 0) as [Hz | Hnz].
    + exists 0. split; [lra |].
      assert (a = 0) by lra. assert (b = 0) by lra. subst a b.
      destruct c as [[c0 c1] c2], v as [[v0 v1] v2]. cbn.
      apply point_eq; ring.
    + exists (a / (a + b)). split.
      * split; [apply Rmult_le_pos; [lra | left; apply Rinv_0_lt_compat; lra] |].
        apply Rmult_le_reg_r with (a + b); [lra |].
        unfold Rdiv. rewrite Rmult_assoc, Rinv_l, Rmult_1_r; lra.
      * destruct c as [[c0 c1] c2], v as [[v0 v1] v2]. cbn.
        apply point_eq; field; exact Hnz.
  - replace (vsub (vadd c (smul b v)) (vsub c (smul a v))) with (smul (a + b) v)
      by (destruct c as [[c0 c1] c2], v as [[v0 v1] v2]; cbn; apply point_eq; ring).
    rewrite norm_smul by lra. unfold v. rewrite norm_unit by exact Hn.
    replace (vsub hi lo) with (vsub (vsub hi c) (vsub lo c))
      by (destruct hi as [[h0 h1] h2], lo as [[l0 l1] l2], c as [[c0 c1] c2];
          cbn; apply point_eq; ring).
    pose proof (norm_vsub_le (vsub hi c) (vsub lo c)). fold a b in H. lra.
Qed.

(** X8.  The normal of [fitPlane] is orthogonal to the first two
    right-singular vectors, and of unit length when those are orthonormal. *)
Theorem fitPlane_normal_orthogonal (N : Numerics R) (points : fit_input R)
  (u : list (list R)) (s : list R) (vv0 vv1 : point R) (vh : list (point R))
  (pla : Plane R) :
  let data := input_coords points in
  svd (center_rows data (mean data)) = Ok (u, s, vv0 :: vv1 :: vh) ->
  fitPlane points = Ok pla ->
  dot (normal pla) vv0 = 0 /\ dot (normal pla) vv1 = 0 /\
  (dot vv0 vv0 = 1 -> dot vv1 vv1 = 1 -> dot vv0 vv1 = 0 -> norm (normal pla) = 1).
Proof.
  intros data E Hp. unfold fitPlane in Hp. fold data in Hp. rewrite E in Hp.
  cbn [rbind index nth_error] in Hp.
  destruct (amin data) as [lo | e]; [| discriminate Hp].
  destruct (amax data) as [hi | e]; [| discriminate Hp].
  cbn [rbind] in Hp. unfold index in Hp.
  destruct (nth_error s 2) as [dd2 | ]; [| discriminate Hp]. cbn [rbind] in Hp.
  inversion Hp; subst pla. cbn [normal].
  destruct vv0 as [[a0 a1] a2], vv1 as [[b0 b1] b2].
  split; [cbn; ring |]. split; [cbn; ring |].
  intros H0 H1 H01. unfold norm. cbn [fsqrt R_scalar].
  replace (dot (cross (a0, a1, a2) (b0, b1, b2)) (cross (a0, a1, a2) (b0, b1, b2)))
    with (dot (a0, a1, a2) (a0, a1, a2) * dot (b0, b1, b2) (b0, b1, b2)
          - dot (a0, a1, a2) (b0, b1, b2) * dot (a0, a1, a2) (b0, b1, b2))
    by (cbn; ring).
  rewrite H0, H1, H01.
  replace (1 * 1 - 0 * 0) with 1 by ring. apply sqrt_1.
Qed.

(** X9.  The semi-axes of [fitEllipsoid] come largest first, as the comment
    of line 573 says, when numpy's singular values do and the quantile of
    the F distribution is not negative. *)
Theorem fitEllipsoid_axes_descending (N : Numerics R) (points : fit_input R) (pvalue : R)
  (U : list (list R)) (s0 s1 s2 : R) (R0 R1 R2 : point R) (Rrest : list (point R)) :
  let coords := input_coords points in
  (4 <= length coords)%nat ->
  svd (np_cov coords) = Ok (U, [s0; s1; s2], R0 :: R1 :: R2 :: Rrest) ->
  0 <= s2 <= s1 -> s1 <= s0 ->
  0 <= f_ppf pvalue 3 (Z.of_nat (length coords) - 3) ->
  exists ell : Ellipsoid R,
    fitEllipsoid points pvalue = ([], Ok (Some ell)) /\
    nr_of_points ell = length coords /\
    0 <= vc ell <= vb ell /\ vb ell <= va ell.
Proof.
  intros coords Hn E Hs21 Hs10 Hq.
  unfold fitEllipsoid. fold coords.
  destruct (Nat.ltb_spec (length coords) 4) as [Hlt | _]; [lia |].
  rewrite E. cbn [rbind length map index nth_error].
  destruct R0 as [[R00 R01] R02], R1 as [[R10 R11] R12], R2 as [[R20 R21] R22].
  destruct (mean coords) as [[c0 c1] c2].
  eexists. split; [reflexivity |]. cbn [nr_of_points va vb vc].
  split; [reflexivity |].
  set (n := Z.of_nat (length coords)).
  assert (Hn4 : 4 <= IZR n) by (apply IZR_le; unfold n; lia).
  change (Z.of_nat 3) with 3%Z.
  set (q := f_ppf pvalue 3 (n - 3)) in *.
  cbn [fmul fdiv fadd fone fsqrt of_Z R_scalar].
  rewrite !minus_IZR, !plus_IZR.
  set (fppf := q * (IZR n - 1) * 3 * (IZR n + 1) / IZR n / (IZR n - 3)).
  set (cfac := 1 + 6 / (IZR n - 1)).
  assert (Hf : 0 <= fppf).
  { assert (0 < / IZR n) by (apply Rinv_0_lt_compat; lra).
    assert (0 < / (IZR n - 3)) by (apply Rinv_0_lt_compat; lra).
    assert (Hq' : 0 <= q) by exact Hq.
    unfold fppf, Rdiv.
    repeat apply Rmult_le_pos; lra. }
  assert (Hc : 0 < / cfac).
  { apply Rinv_0_lt_compat. unfold cfac, Rdiv.
    assert (0 < / (IZR n - 1)) by (apply Rinv_0_lt_compat; lra). nra. }
  assert (H2 : 0 <= R_sqrt.sqrt (s2 * fppf)) by apply sqrt_pos.
  assert (H21 : R_sqrt.sqrt (s2 * fppf) <= R_sqrt.sqrt (s1 * fppf))
    by (apply sqrt_le_1_alt; nra).
  assert (H10 : R_sqrt.sqrt (s1 * fppf) <= R_sqrt.sqrt (s0 * fppf))
    by (apply sqrt_le_1_alt; nra).
  unfold Rdiv at 1 2 3 4. repeat split; nra.
Qed.

End FitGeometry.

(** ** The smoothers: projections *)

Section SmootherGeometry.
Local Open Scope R_scope.

(** X10.  The points that [smoothMLS2D] stores come, in order, from points
    that it read; each of them is its input point moved
    along the normal [cv] of the plane fitted to the neighbourhood, onto the
    plane of that normal through the mean of the neighbourhood; an input
    point that lies in this plane is stored as it is. *)
Theorem smoothMLS2D_projects_on_plane (N : Numerics R) (V : VtkLocator R)
  (f : R) (radius : option R) (self self' : Points R) :
  smoothMLS2D f radius self = (self', Ok Self) ->
  exists (Ncp : Z) (coords : list (point R)) (es : list (emitted R)),
    snd (points_get true self) = Ok coords /\
    subseq (map (@input_of R) es) coords /\
    dataset self' = Some (map (@output_of R) es) /\
    Forall (fun e : emitted R =>
              exists (st st' : Points R) (pts : list (point R)) (uu : list (list R))
                     (dd : list R) (vv0 vv1 : point R) (vh : list (point R)),
                closestPoint (input_of e) Ncp radius st = (st', Ok (Many pts)) /\
                svd (center_rows pts (mean pts)) = Ok (uu, dd, vv0 :: vv1 :: vh) /\
                plane_projection (mean pts) (cross vv0 vv1) (input_of e) (output_of e))
           es.
Proof.
  intro E. unfold smoothMLS2D in E.
  destruct (points_get_run true self) as [coords Ec].
  rewrite (bind_Ok _ _ _ Ec) in E.
  unfold bind at 1 in E. unfold lift at 1 in E.
  destruct (neighbourhood_size 100 (length coords) f radius) as [Ncp | e];
    [| discriminate E].
  unfold bind at 1 in E.
  destruct (smoothMLS2D_loop Ncp radius coords [] [] (bind_polydata self))
    as [st1 [[vs nl] | e]] eqn:El; [| discriminate E].
  destruct (smoothMLS2D_loop_parallel _ _ _ _ _ _ El) as (es & _ & Hnl & Hsub & Hall).
  cbn [app] in Hnl. subst nl.
  destruct (store_Ok _ _ _ E) as [Hd _].
  exists Ncp, coords, es. rewrite Ec.
  split; [reflexivity |]. split; [exact Hsub |]. split; [exact Hd |].
  eapply Forall_impl; [| exact Hall].
  intros e (st & st' & pts & uu & dd & vv & vv0 & vv1 & dd2
            & Hc & _ & Hsvd & H0 & H1 & _ & _ & Ho).
  destruct vv as [| w0 [| w1 vh]]; try discriminate.
  cbn in H0, H1. inversion H0; inversion H1; subst w0 w1.
  exists st, st', pts, uu, dd, vv0, vv1, vh.
  split; [exact Hc |]. split; [exact Hsvd |].
  cbv zeta in Ho. rewrite Ho. unfold plane_projection.
  set (cv := cross vv0 vv1). set (c := mean pts). set (p := input_of e).
  split; [eexists; reflexivity |].
  intro Hcv. clearbody cv c p.
  destruct cv as [[n0 n1] n2], c as [[c0 c1] c2], p as [[p0 p1] p2].
  cbn in Hcv |- *. split.
  - field. exact Hcv.
  - intro Hon.
    replace (n0 * c0 + n1 * c1 + n2 * c2 - (n0 * p0 + n1 * p1 + n2 * p2))
      with (- (n0 * (p0 - c0) + n1 * (p1 - c1) + n2 * (p2 - c2))) by ring.
    rewrite Hon. apply point_eq; field; exact Hcv.
Qed.

(** X11.  The points that [smoothMLS1D] stores come, in order, from points
    that it read; each of them lies on the line through the
    mean of the neighbourhood along the first right-singular vector [vv0];
    when [vv0] is a unit vector it is the orthogonal projection of the input
    point on that line, and an input point on the line is stored as it
    is. *)
Theorem smoothMLS1D_projects_on_line (N : Numerics R) (V : VtkLocator R)
  (f : R) (radius : option R) (self self' : Points R) :
  smoothMLS1D f radius self = (self', Ok Self) ->
  exists (Ncp : Z) (coords : list (point R)) (es : list (emitted R)),
    snd (points_get true self) = Ok coords /\
    subseq (map (@input_of R) es) coords /\
    dataset self' = Some (map (@output_of R) es) /\
    Forall (fun e : emitted R =>
              exists (st st' : Points R) (pts : list (point R)) (uu : list (list R))
                     (dd : list R) (vv0 : point R) (vh : list (point R)),
                closestPoint (input_of e) Ncp radius st = (st', Ok (Many pts)) /\
                svd (center_rows pts (mean pts)) = Ok (uu, dd, vv0 :: vh) /\
                line_projection (mean pts) vv0 (input_of e) (output_of e))
           es.
Proof.
  intro E. unfold smoothMLS1D in E.
  destruct (points_get_run true self) as [coords Ec].
  rewrite (bind_Ok _ _ _ Ec) in E.
  unfold bind at 1 in E. unfold lift at 1 in E.
  destruct (neighbourhood_size 10 (length coords) f radius) as [Ncp | e];
    [| discriminate E].
  unfold bind at 1 in E.
  destruct (smoothMLS1D_loop Ncp radius coords [] [] (bind_polydata self))
    as [st1 [[vs nl] | e]] eqn:El; [| discriminate E].
  destruct (smoothMLS1D_loop_parallel _ _ _ _ _ _ El) as (es & _ & Hnl & Hsub & Hall).
  cbn [app] in Hnl. subst nl.
  destruct (store_Ok _ _ _ E) as [Hd _].
  exists Ncp, coords, es. rewrite Ec.
  split; [reflexivity |]. split; [exact Hsub |]. split; [exact Hd |].
  eapply Forall_impl; [| exact Hall].
  intros e (st & st' & pts & uu & dd & vv & vv0 & dd1 & dd2
            & Hc & _ & Hsvd & H0 & _ & _ & _ & Ho).
  destruct vv as [| w0 vh]; try discriminate.
  cbn in H0. inversion H0; subst w0.
  exists st, st', pts, uu, dd, vv0, vh.
  split; [exact Hc |]. split; [exact Hsvd |].
  rewrite Ho. unfold line_projection.
  set (c := mean pts). set (p := input_of e).
  split; [eexists; reflexivity |].
  intro Hv. clearbody c p.
  destruct vv0 as [[v0 v1] v2], c as [[c0 c1] c2], p as [[p0 p1] p2].
  cbn in Hv |- *. split.
  - set (k := (p0 - c0) * v0 + (p1 - c1) * v1 + (p2 - c2) * v2).
    replace ((p0 - (k * v0 + c0)) * v0 + (p1 - (k * v1 + c1)) * v1 + (p2 - (k * v2 + c2)) * v2)
      with (k - k * (v0 * v0 + v1 * v1 + v2 * v2)) by (unfold k; ring).
    rewrite Hv. ring.
  - intros k Hk. inversion Hk; subst p0 p1 p2.
    replace ((k * v0 + c0 - c0) * v0 + (k * v1 + c1 - c1) * v1 + (k * v2 + c2 - c2) * v2)
      with (k * (v0 * v0 + v1 * v1 + v2 * v2)) by ring.
    rewrite Hv, Rmult_1_r. reflexivity.
Qed.

End SmootherGeometry.

(** ** applyTransform, normalize, mirror and averageSize *)

Section TransformFacts.
Local Open Scope R_scope.

Lemma points_get_world (self : Points R) :
  points_get true self = (bind_polydata self, Ok (world_coords self)).
Proof.
  unfold points_get. unfold bind. rewrite polydata_run. cbn [andb].
  fold (effective_polydata self). unfold world_coords.
  destruct (effective_polydata self); reflexivity.
Qed.

Lemma map_TransformPoint_identity (l : list (point R)) :
  map (TransformPoint identity4) l = l.
Proof.
  induction l as [| p l IH]; [reflexivity |].
  cbn [map]. rewrite IH, TransformPoint_identity. reflexivity.
Qed.

Lemma applyTransform_run (transformation : vtkMatrix4x4 R) (self : Points R) :
  applyTransform transformation self =
  (_update (vtkTransformPolyDataFilter transformation (effective_polydata self))
     (PokeMatrix identity4 (bind_polydata self)), Ok tt).
Proof.
  unfold applyTransform. unfold bind at 1. rewrite polydata_run. cbn [andb].
  fold (effective_polydata self). reflexivity.
Qed.

(** X16.  [applyTransform] bakes the pose into the data: it never raises, the
    matrix of the actor is the identity afterwards, and the stored
    coordinates, which are then also the coordinates in space, are the
    images under the transformation of the coordinates in space before the
    call.  The cached locators are kept. *)
Theorem applyTransform_bakes_pose (transformation : vtkMatrix4x4 R) (self : Points R) :
  let self' := fst (applyTransform transformation self) in
  snd (applyTransform transformation self) = Ok tt /\
  Matrix self' = identity4 /\
  snd (points_get false self') = Ok (map (TransformPoint transformation) (world_coords self)) /\
  snd (points_get true self') = Ok (map (TransformPoint transformation) (world_coords self)) /\
  point_locator self' = point_locator self /\ cell_locator self' = cell_locator self.
Proof.
  rewrite applyTransform_run. cbn [fst snd].
  split; [reflexivity |]. split; [reflexivity |].
  unfold points_get, bind. rewrite !polydata_run. unfold world_coords.
  cbn [andb _update PokeMatrix bind_polydata dataset IsIdentity Matrix orb negb
       point_locator cell_locator].
  destruct (effective_polydata self) as [vpts |]; cbn [vtkTransformPolyDataFilter option_map].
  - split; [reflexivity |]. split; [| split; reflexivity].
    destruct (GetNumberOfPoints _ =? 0)%nat; [reflexivity |].
    cbn [negb option_map]. rewrite map_TransformPoint_identity. reflexivity.
  - repeat split; reflexivity.
Qed.

(** *** normalize *)

Lemma TransformPoint_Scale (sx sy sz : R) (p : point R) :
  TransformPoint (Scale sx sy sz) p = vmul (sx, sy, sz) p.
Proof. destruct p as [[x y] z]. cbn. apply point_eq; ring. Qed.

Lemma map_TransformPoint_Scale (s : R) (l : list (point R)) :
  map (TransformPoint (Scale s s s)) l = map (smul s) l.
Proof.
  apply map_ext. intros [[x y] z]. rewrite TransformPoint_Scale. reflexivity.
Qed.

Lemma fold_vadd_smul (s : R) (l : list (point R)) :
  forall acc : point R,
    fold_left vadd (map (smul s) l) (smul s acc) = smul s (fold_left vadd l acc).
Proof.
  induction l as [| p l IH]; intro acc; [reflexivity |].
  cbn [map fold_left]. rewrite <- IH. f_equal.
  destruct acc as [[a0 a1] a2], p as [[x y] z]. cbn. apply point_eq; ring.
Qed.

Lemma mean_smul (s : R) (l : list (point R)) :
  mean (map (smul s) l) = smul s (mean l).
Proof.
  assert (Ez : smul s (@vzero R _) = vzero)
    by (unfold vzero; cbn; apply point_eq; ring).
  unfold mean, vsum. rewrite length_map.
  rewrite <- Ez at 1. rewrite fold_vadd_smul.
  destruct (fold_left vadd l vzero) as [[x y] z]. cbn.
  unfold Rdiv. apply point_eq; ring.
Qed.

Lemma sq_dist_sum_smul (s : R) (l : list (point R)) (c : point R) :
  sq_dist_sum (map (smul s) l) (smul s c) = s * s * sq_dist_sum l c.
Proof.
  unfold sq_dist_sum. induction l as [| p l IH]; cbn [map fold_right]; [ring |].
  rewrite IH. destruct p as [[x y] z], c as [[c0 c1] c2]. cbn. ring.
Qed.

Lemma sq_dist_sum_nonneg (l : list (point R)) (c : point R) : 0 <= sq_dist_sum l c.
Proof.
  unfold sq_dist_sum. induction l as [| p l IH]; cbn [fold_right]; [lra |].
  pose proof (dot_self_nonneg (vsub p c)). lra.
Qed.

(** [np.sum(np.sum(pts * pts, axis=0))] is the sum of the squared
    distances. *)
Lemma sum3_squares (l : list (point R)) (c : point R) :
  forall acc : point R,
    sum3 (fold_left vadd (map (fun p => vmul p p) (center_rows l c)) acc)
    = sum3 acc + sq_dist_sum l c.
Proof.
  unfold sq_dist_sum, center_rows.
  induction l as [| p l IH]; intro acc; cbn [map fold_left fold_right]; [ring |].
  rewrite IH. destruct acc as [[a0 a1] a2], p as [[x y] z], c as [[c0 c1] c2].
  cbn. ring.
Qed.

Lemma normalize_run (self : Points R) (p : point R) (l : list (point R)) :
  world_coords self = p :: l ->
  let coords := p :: l in
  let scale := 1 / R_sqrt.sqrt (sq_dist_sum coords (mean coords) / INR (length coords)) in
  normalize self =
  (_update (vtkTransformPolyDataFilter (Scale scale scale scale) (dataset self))
     (bind_polydata self), Ok tt).
Proof.
  intros Hw coords scale. unfold normalize.
  rewrite (bind_Ok _ _ _ (points_get_world self)). rewrite Hw.
  cbn [length Nat.eqb]. unfold bind, get_self, modify.
  cbn [bind_polydata dataset].
  fold coords. unfold vsum. rewrite sum3_squares.
  unfold center_rows. rewrite length_map.
  cbn [sum3 vzero fzero fone fadd fdiv fsqrt of_Z R_scalar].
  rewrite <- INR_IZR_INZ. rewrite !Rplus_0_l.
  reflexivity.
Qed.

(** [normalize] at the identity pose on points that are not all the same:
    the stored points are scaled about the origin, and the sum of the
    squared distances from the centroid becomes the number of points. *)
Lemma normalize_identity_run (self : Points R) (coords : list (point R)) :
  IsIdentity self = true ->
  dataset self = Some coords ->
  0 < sq_dist_sum coords (mean coords) ->
  exists (self' : Points R) (coords' : list (point R)),
    normalize self = (self', Ok tt) /\
    dataset self' = Some coords' /\ IsIdentity self' = true /\
    length coords' = length coords /\ (0 < length coords')%nat /\
    sq_dist_sum coords' (mean coords') = INR (length coords').
Proof.
  intros Hid Hd Hpos.
  assert (Hw : world_coords self = coords).
  { unfold world_coords, effective_polydata. rewrite Hid, Hd. reflexivity. }
  destruct coords as [| p l]; [cbn in Hpos; lra |].
  set (coords := p :: l) in *.
  pose proof (normalize_run self Hw) as Hrun. cbv zeta in Hrun. fold coords in Hrun.
  set (S := sq_dist_sum coords (mean coords)) in *.
  set (n := INR (length coords)) in *.
  assert (Hn : 0 < n) by (unfold n, coords; apply lt_0_INR; simpl; lia).
  set (scale := 1 / R_sqrt.sqrt (S / n)) in *.
  eexists _, (map (smul scale) coords).
  split; [exact Hrun |].
  split; [cbn [_update dataset]; rewrite Hd; cbn [vtkTransformPolyDataFilter option_map];
          rewrite map_TransformPoint_Scale; reflexivity |].
  split; [exact Hid |].
  split; [apply length_map |].
  split; [rewrite length_map; unfold coords; simpl; lia |].
  rewrite mean_smul, sq_dist_sum_smul, length_map. fold S n.
  assert (Hq : 0 < S / n) by (apply Rdiv_lt_0_compat; assumption).
  assert (Hs : scale * scale = n / S).
  { unfold scale.
    pose proof (sqrt_lt_R0 _ Hq) as Hsq.
    pose proof (sqrt_sqrt (S / n) (Rlt_le _ _ Hq)) as Hss.
    replace (1 / R_sqrt.sqrt (S / n) * (1 / R_sqrt.sqrt (S / n)))
      with (1 / (R_sqrt.sqrt (S / n) * R_sqrt.sqrt (S / n))) by (field; lra).
    rewrite Hss. field. split; lra. }
  rewrite Hs. field. lra.
Qed.

(** X17.  [normalize] on an object at the identity pose whose points are not
    all the same: afterwards the mean of the squared distances of the points
    from their centroid is 1 (the root-mean-square size is the unit); the
    number of points is kept. *)
Theorem normalize_unit_rms (self : Points R) (coords : list (point R)) :
  IsIdentity self = true ->
  dataset self = Some coords ->
  0 < sq_dist_sum coords (mean coords) ->
  exists (self' : Points R) (coords' : list (point R)),
    normalize self = (self', Ok tt) /\
    dataset self' = Some coords' /\
    length coords' = length coords /\
    sq_dist_sum coords' (mean coords') / INR (length coords') = 1.
Proof.
  intros Hid Hd Hpos.
  destruct (normalize_identity_run self Hid Hd Hpos)
    as (self' & coords' & Hrun & Hd' & _ & Hl & Hn & Hrms).
  exists self', coords'. split; [exact Hrun |]. split; [exact Hd' |].
  split; [exact Hl |]. rewrite Hrms.
  apply Rinv_r. apply Rgt_not_eq. apply lt_0_INR. exact Hn.
Qed.

(** With no point [normalize] returns the object as it is. *)
Lemma normalize_empty (self : Points R) :
  world_coords self = [] ->
  normalize self = (bind_polydata self, Ok tt).
Proof.
  intro Hw. unfold normalize.
  rewrite (bind_Ok _ _ _ (points_get_world self)). rewrite Hw. reflexivity.
Qed.

(** X29.  [normalize] is idempotent: normalizing an object that has just
    been normalized (identity pose, points not all the same) scales by 1
    and leaves the coordinates as they are. *)
Theorem normalize_idempotent (self : Points R) (coords : list (point R)) :
  IsIdentity self = true ->
  dataset self = Some coords ->
  0 < sq_dist_sum coords (mean coords) ->
  exists self' self'' : Points R,
    normalize self = (self', Ok tt) /\
    normalize self' = (self'', Ok tt) /\
    dataset self'' = dataset self'.
Proof.
  intros Hid Hd Hpos.
  destruct (normalize_identity_run self Hid Hd Hpos)
    as (self' & coords' & Hrun & Hd' & Hid' & _ & Hlen' & Hrms).
  assert (Hw' : world_coords self' = coords')
    by (unfold world_coords, effective_polydata; rewrite Hid', Hd'; reflexivity).
  destruct coords' as [| p' l']; [simpl in Hlen'; lia |].
  pose proof (normalize_run self' Hw') as Hrun'. cbv zeta in Hrun'.
  exists self'. eexists. split; [exact Hrun |]. split; [exact Hrun' |].
  rewrite Hrms.
  assert (Hn : 0 < INR (length (p' :: l'))) by (apply lt_0_INR; exact Hlen').
  replace (INR (length (p' :: l')) / INR (length (p' :: l'))) with 1 by (field; lra).
  rewrite sqrt_1. replace (1 / 1) with 1 by field.
  cbn [_update dataset]. rewrite Hd'.
  cbn [vtkTransformPolyDataFilter option_map]. f_equal.
  rewrite map_TransformPoint_Scale. rewrite <- (map_id (p' :: l')) at 2.
  apply map_ext. intros [[x y] z]. cbn. apply point_eq; ring.
Qed.

(** *** mirror *)

(** X19.  Mirroring twice along the same axis restores the coordinates. *)
Theorem mirror_involution (a : axis) (self : Points R) :
  has_polydata self = true ->
  exists self1 self2 : Points R,
    mirror a self = (self1, Ok tt) /\ mirror a self1 = (self2, Ok tt) /\
    dataset self2 = dataset self /\ Matrix self2 = Matrix self.
Proof.
  intro Hp.
  assert (Hrun : forall st : Points R,
             has_polydata st = true ->
             mirror a st =
             (_update (vtkTransformPolyDataFilter
                         (match a with
                          | AxisX => Scale (-1) 1 1
                          | AxisY => Scale 1 (-1) 1
                          | AxisZ => Scale 1 1 (-1)
                          | AxisN => Scale 1 1 1
                          end) (dataset st)) st, Ok tt)).
  { intros st Hst. unfold mirror.
    destruct a; unfold bind, get_self, modify; rewrite Hst; reflexivity. }
  eexists _, _. split; [apply Hrun, Hp |]. split; [apply Hrun; reflexivity |].
  split; [| reflexivity].
  cbn [_update dataset].
  destruct (dataset self) as [vpts |]; [| reflexivity].
  cbn [vtkTransformPolyDataFilter option_map]. f_equal.
  rewrite map_map. rewrite <- (map_id vpts) at 2.
  apply map_ext. intros [[x y] z].
  destruct a; cbn; apply point_eq; ring.
Qed.

(** *** averageSize *)

Lemma fold_fadd_shift (l : list R) :
  forall acc : R, fold_left Rplus l acc = acc + fold_right Rplus 0 l.
Proof.
  induction l as [| x l IH]; intro acc; cbn [fold_left fold_right]; [ring |].
  rewrite IH. ring.
Qed.

Lemma sum_norms_nonneg (l : list (point R)) : 0 <= fold_right Rplus 0 (map norm l).
Proof.
  induction l as [| p l IH]; cbn [map fold_right]; [lra |].
  pose proof (norm_nonneg p). lra.
Qed.

(** The sum of n numbers, squared, is at most n times the sum of their
    squares. *)
Lemma sum_sqr_le (l : list R) :
  fold_right Rplus 0 l * fold_right Rplus 0 l
  <= INR (length l) * fold_right Rplus 0 (map (fun x => x * x) l).
Proof.
  induction l as [| x l IH]; [cbn; lra |].
  cbn [length map fold_right]. rewrite S_INR.
  set (s := fold_right Rplus 0 l) in *.
  set (q := fold_right Rplus 0 (map (fun x => x * x) l)) in *.
  set (n := INR (length l)) in *.
  assert (Hn : 0 <= n) by apply pos_INR.
  assert (Hq : 0 <= q).
  { unfold q. clear. induction l as [| y l IH]; cbn [map fold_right]; [lra | nra]. }
  clearbody s q n.
  (* (x + s)^2 <= (n + 1) (x^2 + q), from s^2 <= n q and 2 x s <= n x^2 + q *)
  destruct (Req_dec n 0) as [Hz | Hnz].
  - rewrite Hz in IH. assert (Hs : s = 0) by nra. rewrite Hs, Hz. nra.
  - assert (0 < n) by lra.
    assert (2 * x * s <= n * (x * x) + q).
    { assert (Hsq : 0 <= (n * x - s) * (n * x - s)) by apply Rle_0_sqr.
      assert (E : (n * x - s) * (n * x - s)
                  = n * (n * (x * x)) - n * (2 * x * s) + s * s) by ring.
      assert (n * (2 * x * s) <= n * (n * (x * x) + q)) by lra.
      apply Rmult_le_reg_l with n; assumption. }
    replace ((x + s) * (x + s)) with (x * x + 2 * x * s + s * s) by ring.
    replace ((n + 1) * (x * x + q)) with (n * (x * x) + q + (x * x + n * q)) by ring.
    lra.
Qed.

Lemma averageSize_run (self : Points R) :
  averageSize self =
  (bind_polydata self,
   Ok (match world_coords self with
       | [] => 0
       | _ :: _ =>
           mean1 (map norm (center_rows (world_coords self)
                              (vtkCenterOfMass (effective_polydata self))))
       end)).
Proof.
  unfold averageSize, centerOfMass. unfold bind at 1 2. rewrite polydata_run.
  cbn [andb]. fold (effective_polydata self). unfold ret at 1.
  assert (Eb : bind_polydata (bind_polydata self) = bind_polydata self) by reflexivity.
  rewrite (bind_Ok _ _ _ (points_get_world (bind_polydata self))).
  rewrite Eb.
  assert (Ew : world_coords (bind_polydata self) = world_coords self) by reflexivity.
  rewrite Ew. destruct (world_coords self); reflexivity.
Qed.

(** [averageSize] never raises and is not negative; with no point it
    is 0. *)
Theorem averageSize_nonneg (self : Points R) :
  exists v : R,
    snd (averageSize self) = Ok v /\ 0 <= v /\ (world_coords self = [] -> v = 0).
Proof.
  rewrite averageSize_run. cbn [snd]. eexists. split; [reflexivity |].
  destruct (world_coords self) as [| p l]; [split; [lra | reflexivity] |].
  split; [| discriminate].
  unfold mean1. cbn [fzero fadd fdiv of_Z R_scalar].
  rewrite fold_fadd_shift, Rplus_0_l, <- INR_IZR_INZ.
  apply Rmult_le_pos; [apply sum_norms_nonneg |].
  left. apply Rinv_0_lt_compat. rewrite length_map. unfold center_rows.
  rewrite length_map. apply lt_0_INR. simpl. lia.
Qed.

(** X18.  After [normalize] (identity pose, points not all the same) the
    average size is at most 1: it is the root-mean-square size that
    [normalize] sets to the unit, and the mean distance cannot exceed it. *)
Theorem averageSize_after_normalize (self : Points R) (coords : list (point R)) :
  IsIdentity self = true ->
  dataset self = Some coords ->
  0 < sq_dist_sum coords (mean coords) ->
  exists v : R,
    snd (averageSize (fst (normalize self))) = Ok v /\ 0 <= v <= 1.
Proof.
  intros Hid Hd Hpos.
  destruct (normalize_identity_run self Hid Hd Hpos)
    as (self' & coords' & Hrun & Hd' & Hid' & _ & Hlen' & Hrms).
  rewrite Hrun. cbn [fst].
  assert (Hw' : world_coords self' = coords')
    by (unfold world_coords, effective_polydata; rewrite Hid', Hd'; reflexivity).
  assert (He' : effective_polydata self' = Some coords')
    by (unfold effective_polydata; rewrite Hid', Hd'; reflexivity).
  rewrite averageSize_run. cbn [snd]. rewrite Hw', He'.
  destruct coords' as [| p' l']; [simpl in Hlen'; lia |].
  eexists. split; [reflexivity |].
  set (cs := p' :: l') in *. cbn [vtkCenterOfMass].
  change (match cs with [] => vzero | _ :: _ => mean cs end) with (mean cs).
  unfold mean1. cbn [fzero fadd fdiv of_Z R_scalar].
  rewrite fold_fadd_shift, Rplus_0_l, <- INR_IZR_INZ.
  set (ds := map norm (center_rows cs (mean cs))).
  assert (Hlen : length ds = length cs)
    by (unfold ds, center_rows; rewrite !length_map; reflexivity).
  rewrite Hlen.
  set (n := INR (length cs)) in *.
  assert (Hn : 0 < n) by (unfold n; apply lt_0_INR; exact Hlen').
  assert (Hs0 : 0 <= fold_right Rplus 0 ds) by apply sum_norms_nonneg.
  assert (Hsq : fold_right Rplus 0 (map (fun x => x * x) ds) = sq_dist_sum cs (mean cs)).
  { unfold ds, sq_dist_sum, center_rows. generalize (mean cs) as c. clear.
    intro c. induction cs as [| q l IH]; [reflexivity |].
    cbn [map fold_right]. rewrite IH, norm_sqr. reflexivity. }
  pose proof (sum_sqr_le ds) as Hle. rewrite Hlen, Hsq, Hrms in Hle. fold n in Hle.
  assert (Hsum : fold_right Rplus 0 ds <= n) by nra.
  split.
  - apply Rmult_le_pos; [exact Hs0 | left; apply Rinv_0_lt_compat; exact Hn].
  - apply (Rmult_le_reg_r n); [exact Hn |].
    unfold Rdiv. rewrite Rmult_assoc, Rinv_l, Rmult_1_r by lra. lra.
Qed.

End TransformFacts.

(** ** deletePoints: the renaming *)

Section RenumberingFacts.
Context {F : Type} `{Scalar F}.

Lemma mapM_Ok {A B : Type} (f : A -> result B) (l : list A) (l' : list B) :
  mapM f l = Ok l' -> Forall2 (fun x y => f x = Ok y) l l'.
Proof.
  revert l'. induction l as [| x l IH]; intros l' E; cbn [mapM] in E.
  - inversion E. constructor.
  - destruct (f x) as [y | e] eqn:Ex; [| discriminate E]. cbn [rbind] in E.
    destruct (mapM f l) as [ys | e]; [| discriminate E]. cbn [rbind] in E.
    inversion E. constructor; [exact Ex | apply IH; reflexivity].
Qed.

Lemma Forall2_In_l {A B : Type} (P : A -> B -> Prop) (l : list A) (l' : list B) (x : A)
  (HP : Forall2 P l l') (Hx : In x l) : exists y : B, In y l' /\ P x y.
Proof.
  revert Hx. induction HP as [| a b l l' Hab _ IH]; intro Hin; [destruct Hin |].
  destruct Hin as [-> | Hin].
  - exists b. split; [left; reflexivity | exact Hab].
  - destruct (IH Hin) as (y & Hy & Hp). exists y. split; [right; exact Hy | exact Hp].
Qed.

Lemma insert_unique_In (i k : nat) (l : list nat) :
  In k (insert_unique i l) <-> k = i \/ In k l.
Proof.
  induction l as [| j l IH]; cbn [insert_unique].
  - simpl. intuition congruence.
  - destruct (Nat.ltb_spec i j); [simpl; intuition congruence |].
    destruct (Nat.eqb_spec i j); [subst; simpl; intuition congruence |].
    simpl. rewrite IH. intuition congruence.
Qed.

Lemma np_unique_In (k : nat) (ids : list nat) : In k (np_unique ids) <-> In k ids.
Proof.
  unfold np_unique. induction ids as [| i ids IH]; cbn [fold_right]; [reflexivity |].
  rewrite insert_unique_In, IH. simpl. intuition congruence.
Qed.

Lemma insert_unique_sorted (i : nat) (l : list nat) :
  StronglySorted lt l -> StronglySorted lt (insert_unique i l).
Proof.
  induction l as [| j l IH]; intro Hs; cbn [insert_unique].
  - repeat constructor.
  - inversion Hs as [| ? ? Hs' Hall]; subst.
    destruct (Nat.ltb_spec i j) as [Hlt | Hge].
    + constructor; [exact Hs |]. constructor; [exact Hlt |].
      rewrite Forall_forall in Hall |- *. intros x Hx. specialize (Hall x Hx). lia.
    + destruct (Nat.eqb_spec i j) as [-> | Hne]; [exact Hs |].
      constructor; [apply IH, Hs' |].
      rewrite Forall_forall in Hall |- *. intros x Hx.
      apply insert_unique_In in Hx. destruct Hx as [-> | Hx]; [lia | apply Hall, Hx].
Qed.

Lemma np_unique_sorted (ids : list nat) : StronglySorted lt (np_unique ids).
Proof.
  unfold np_unique. induction ids as [| i ids IH]; cbn [fold_right].
  - constructor.
  - apply insert_unique_sorted, IH.
Qed.

Lemma sorted_nth_lt (l : list nat) :
  StronglySorted lt l ->
  forall (a b x y : nat),
    nth_error l a = Some x -> nth_error l b = Some y -> (a < b)%nat -> (x < y)%nat.
Proof.
  induction 1 as [| j l Hs IH Hall]; intros a b x y Ha Hb Hab.
  - destruct a; discriminate Ha.
  - destruct b as [| b]; [lia |]. cbn in Hb.
    destruct a as [| a]; cbn in Ha.
    + inversion Ha; subst. rewrite Forall_forall in Hall.
      apply Hall. eapply nth_error_In, Hb.
    + apply (IH a b); [assumption | assumption | lia].
Qed.

Lemma sorted_NoDup (l : list nat) : StronglySorted lt l -> NoDup l.
Proof.
  induction 1 as [| j l Hs IH Hall]; constructor; [| exact IH].
  intro Hin. rewrite Forall_forall in Hall. specialize (Hall j Hin). lia.
Qed.

Lemma where_first_Ok (l : list nat) (i idx : nat) :
  where_first l i = Ok idx -> nth_error l idx = Some i.
Proof.
  revert idx. induction l as [| j l IH]; intros idx E; cbn [where_first] in E.
  - discriminate E.
  - destruct (Nat.eqb_spec j i) as [-> | Hne].
    + inversion E. reflexivity.
    + destruct (where_first l i) as [k | e]; [| discriminate E].
      cbn [rbind] in E. inversion E. cbn. apply IH. reflexivity.
Qed.

Lemma where_first_In (l : list nat) (i : nat) :
  In i l -> exists idx : nat, where_first l i = Ok idx.
Proof.
  induction l as [| j l IH]; intro Hin; [destruct Hin |].
  cbn [where_first]. destruct (Nat.eqb_spec j i) as [-> | Hne]; [eexists; reflexivity |].
  destruct Hin as [-> | Hin]; [congruence |].
  destruct (IH Hin) as [k ->]. eexists. reflexivity.
Qed.

(** [coords[pts_inds]] *)
Lemma take_nth {A : Type} (coords : list A) (inds : list nat) (res : list A) :
  mapM (fun i => index coords i) inds = Ok res ->
  length res = length inds /\
  forall (k i : nat), nth_error inds k = Some i -> nth_error res k = nth_error coords i /\
                                                   (i < length coords)%nat.
Proof.
  intro E. apply mapM_Ok in E.
  induction E as [| i p inds res Hi _ IH].
  - split; [reflexivity |]. intros k i Hk. destruct k; discriminate Hk.
  - destruct IH as [Hlen Hnth]. split; [simpl; lia |].
    intros k j Hk. destruct k as [| k].
    + cbn in Hk |- *. inversion Hk; subst j.
      apply index_Ok in Hi. split; [symmetry; exact Hi |].
      apply nth_error_Some. congruence.
    + cbn in Hk |- *. apply Hnth, Hk.
Qed.

Lemma deletePoints_rename_Ok (faces newfaces : list (list nat)) (self self' : Points F) :
  deletePoints_rename faces self = (self', Ok newfaces) ->
  exists (coords newcoords : list (point F)),
    snd (points_get false self) = Ok coords /\
    dataset self' = Some newcoords /\
    mapM (fun f => mapM (fun i => where_first (np_unique (concat faces)) i) f) faces
      = Ok newfaces /\
    mapM (fun i => index coords i) (np_unique (concat faces)) = Ok newcoords /\
    np_unique (concat faces) <> [].
Proof.
  intro E. unfold deletePoints_rename in E.
  destruct (points_get_run false self) as [coords Ec].
  rewrite (bind_Ok _ _ _ Ec) in E.
  destruct (rectangular faces); cbn [negb] in E; [| discriminate E].
  unfold bind at 1 in E. unfold lift at 1 in E.
  destruct (mapM _ faces) as [nf | e] eqn:Ef; [| discriminate E].
  destruct (np_unique (concat faces)) as [| i0 inds] eqn:Eu; [discriminate E |].
  unfold bind at 1 in E. unfold lift at 1 in E.
  destruct (mapM _ (i0 :: inds)) as [nc | e] eqn:En; [| discriminate E].
  unfold bind, modify, ret in E. inversion E; subst.
  exists coords, nc. rewrite Ec. cbn [snd _update dataset].
  repeat split; try reflexivity; try assumption. discriminate.
Qed.

(** X20.  The renaming of [deletePoints] keeps the geometry: the new faces
    have the shape of the old ones, every new vertex id is an index of the new
    point array, and it names the point that the old id named.  The renaming
    keeps the order of the ids. *)
Theorem deletePoints_rename_keeps_geometry (faces newfaces : list (list nat))
  (self self' : Points F) :
  deletePoints_rename faces self = (self', Ok newfaces) ->
  exists (coords newcoords : list (point F)),
    snd (points_get false self) = Ok coords /\
    dataset self' = Some newcoords /\
    Forall2 (Forall2 (fun i idx =>
                        (idx < length newcoords)%nat /\
                        nth_error newcoords idx = nth_error coords i))
            faces newfaces /\
    (forall i j idx jdx : nat,
        where_first (np_unique (concat faces)) i = Ok idx ->
        where_first (np_unique (concat faces)) j = Ok jdx ->
        (i < j)%nat -> (idx < jdx)%nat).
Proof.
  intro E. destruct (deletePoints_rename_Ok _ _ E) as (coords & nc & Ec & Hd & Ef & En & _).
  exists coords, nc. split; [exact Ec |]. split; [exact Hd |].
  destruct (take_nth _ _ En) as [Hlen Hnth].
  split.
  - apply mapM_Ok in Ef.
    eapply Forall2_impl; [| exact Ef].
    intros f nf Hf. cbn beta in Hf. apply mapM_Ok in Hf.
    eapply Forall2_impl; [| exact Hf].
    intros i idx Hi. cbn beta in Hi. apply where_first_Ok in Hi.
    destruct (Hnth _ _ Hi) as [Hp Hlt]. split; [| exact Hp].
    apply nth_error_Some. rewrite Hp. apply nth_error_Some. exact Hlt.
  - intros i j idx jdx Hi Hj Hij.
    apply where_first_Ok in Hi, Hj.
    destruct (Nat.lt_trichotomy idx jdx) as [Hlt | [Heq | Hgt]]; [exact Hlt | |].
    + subst. rewrite Hi in Hj. inversion Hj. lia.
    + pose proof (@sorted_nth_lt _ (np_unique_sorted (concat faces)) _ _ _ _ Hj Hi Hgt). lia.
Qed.

(** X21.  After the renaming no point is left unused and none is repeated:
    the new point array has one point for each distinct vertex id of the
    faces, so it is not longer than the old one, and every index of it occurs
    in a new face. *)
Theorem deletePoints_rename_compact (faces newfaces : list (list nat))
  (self self' : Points F) :
  deletePoints_rename faces self = (self', Ok newfaces) ->
  exists (coords newcoords : list (point F)),
    snd (points_get false self) = Ok coords /\
    dataset self' = Some newcoords /\
    (0 < length newcoords <= length coords)%nat /\
    forall idx : nat, (idx < length newcoords)%nat -> In idx (concat newfaces).
Proof.
  intro E. destruct (deletePoints_rename_Ok _ _ E) as (coords & nc & Ec & Hd & Ef & En & Hne).
  exists coords, nc. split; [exact Ec |]. split; [exact Hd |].
  destruct (take_nth _ _ En) as [Hlen Hnth].
  set (u := np_unique (concat faces)) in *.
  split; [split |].
  - rewrite Hlen. destruct u; [congruence | simpl; lia].
  - rewrite Hlen.
    assert (Hnd : NoDup u) by apply sorted_NoDup, np_unique_sorted.
    assert (Hincl : incl u (seq 0 (length coords))).
    { intros i Hi. apply In_nth_error in Hi. destruct Hi as [k Hk].
      apply in_seq. destruct (Hnth _ _ Hk) as [_ Hlt]. lia. }
    pose proof (NoDup_incl_length Hnd Hincl) as Hle. rewrite length_seq in Hle. exact Hle.
  - intros idx Hidx. rewrite Hlen in Hidx.
    destruct (nth_error u idx) as [i |] eqn:Hi;
      [| apply nth_error_None in Hi; lia].
    assert (Hin : In i (concat faces)).
    { apply np_unique_In. eapply nth_error_In, Hi. }
    apply in_concat in Hin. destruct Hin as (f & Hf & Hif).
    apply mapM_Ok in Ef.
    destruct (Forall2_In_l _ Ef Hf) as (nf & Hnf & Hm).
    cbn beta in Hm. apply mapM_Ok in Hm.
    destruct (Forall2_In_l _ Hm Hif) as (idx' & Hidx' & Hw).
    cbn beta in Hw. apply where_first_Ok in Hw.
    assert (idx' = idx).
    { pose proof (NoDup_nth_error u) as [Hinj _].
      specialize (Hinj (sorted_NoDup (np_unique_sorted (concat faces)))).
      apply Hinj; [apply nth_error_Some; fold u; congruence | congruence]. }
    subst idx'. apply in_concat. exists nf. split; assumption.
Qed.

Lemma sorted_ext (l1 l2 : list nat) :
  StronglySorted lt l1 -> StronglySorted lt l2 ->
  (forall x : nat, In x l1 <-> In x l2) -> l1 = l2.
Proof.
  intro H1. revert l2. induction H1 as [| a l1 Hs1 IH Ha]; intros l2 H2 Hin.
  - destruct l2 as [| b l2]; [reflexivity |].
    exfalso. apply (proj2 (Hin b)). left. reflexivity.
  - destruct H2 as [| b l2 Hs2 Hb].
    + exfalso. apply (proj1 (Hin a)). left. reflexivity.
    + rewrite Forall_forall in Ha, Hb.
      assert (Eab : a = b).
      { destruct (proj1 (Hin a) (or_introl eq_refl)) as [E | Hin2]; [congruence |].
        destruct (proj2 (Hin b) (or_introl eq_refl)) as [E | Hin1]; [congruence |].
        specialize (Ha _ Hin1). specialize (Hb _ Hin2). lia. }
      subst b. f_equal. apply IH; [exact Hs2 |].
      intro x. split; intro Hx.
      * destruct (proj1 (Hin x) (or_intror Hx)) as [E | Hx2]; [| exact Hx2].
        subst x. specialize (Ha _ Hx). lia.
      * destruct (proj2 (Hin x) (or_intror Hx)) as [E | Hx1]; [| exact Hx1].
        subst x. specialize (Hb _ Hx). lia.
Qed.

Lemma seq_sorted (a n : nat) : StronglySorted lt (seq a n).
Proof.
  revert a. induction n as [| n IH]; intro a; cbn [seq]; constructor; [apply IH |].
  apply Forall_forall. intros x Hx. apply in_seq in Hx. lia.
Qed.

Lemma where_first_seq (a n i : nat) :
  (a <= i < a + n)%nat -> where_first (seq a n) i = Ok (i - a)%nat.
Proof.
  revert a. induction n as [| n IH]; intros a Hi; [lia |].
  cbn [seq where_first]. destruct (Nat.eqb_spec a i) as [-> | Hne].
  - rewrite Nat.sub_diag. reflexivity.
  - rewrite IH by lia. cbn [rbind]. f_equal. lia.
Qed.

Lemma mapM_id {A : Type} (f : A -> result A) (l : list A) :
  (forall x : A, In x l -> f x = Ok x) -> mapM f l = Ok l.
Proof.
  induction l as [| x l IH]; intro Hf; [reflexivity |].
  cbn [mapM]. rewrite (Hf x (or_introl eq_refl)). cbn [rbind].
  rewrite IH; [reflexivity |]. intros y Hy. apply Hf. right. exact Hy.
Qed.

Lemma mapM_index_seq {A : Type} (pre l : list A) :
  mapM (fun i => index (pre ++ l) i) (seq (length pre) (length l)) = Ok l.
Proof.
  revert pre. induction l as [| x l IH]; intro pre; [reflexivity |].
  cbn [length seq mapM].
  assert (E : index (pre ++ x :: l) (length pre) = Ok x).
  { apply index_Ok. rewrite nth_error_app2 by lia. rewrite Nat.sub_diag. reflexivity. }
  rewrite E. cbn [rbind].
  specialize (IH (pre ++ [x])). rewrite <- app_assoc in IH. cbn [app] in IH.
  rewrite length_app in IH. cbn [length] in IH. rewrite Nat.add_1_r in IH.
  rewrite IH. reflexivity.
Qed.

Lemma rectangular_Forall2 {A B : Type} (P : A -> B -> Prop)
  (l1 : list (list A)) (l2 : list (list B)) :
  Forall2 (Forall2 P) l1 l2 -> rectangular l2 = rectangular l1.
Proof.
  intro H12. destruct H12 as [| r1 r2 l1 l2 Hr Hl]; [reflexivity |].
  cbn [rectangular]. apply Forall2_length in Hr.
  induction Hl as [| s1 s2 l1 l2 Hs _ IH]; [reflexivity |].
  cbn [forallb]. apply Forall2_length in Hs.
  f_equal; [rewrite Hs, Hr; reflexivity | exact IH].
Qed.

(** X30.  The renaming is idempotent: applied to the faces and points that
    it has produced it returns the same faces and leaves the points as they
    are. *)
Theorem deletePoints_rename_idempotent (faces newfaces : list (list nat))
  (self self' : Points F) :
  deletePoints_rename faces self = (self', Ok newfaces) ->
  exists self'' : Points F,
    deletePoints_rename newfaces self' = (self'', Ok newfaces) /\
    dataset self'' = dataset self'.
Proof.
  intro E. destruct (deletePoints_rename_Ok _ _ E) as (coords & nc & Ec & Hd & Ef & En & Hne).
  destruct (take_nth _ _ En) as [Hlen Hnth].
  set (u := np_unique (concat faces)) in *.
  (* the new ids are the indices of the new points *)
  assert (Hids : forall idx : nat, In idx (concat newfaces) <-> (idx < length nc)%nat).
  { intro idx. split.
    - intro Hin. apply in_concat in Hin. destruct Hin as (nf & Hnf & Hidx).
      apply mapM_Ok in Ef. apply Forall2_flip in Ef.
      destruct (Forall2_In_l _ Ef Hnf) as (f & _ & Hm). cbn beta in Hm.
      apply mapM_Ok in Hm. apply Forall2_flip in Hm.
      destruct (Forall2_In_l _ Hm Hidx) as (i & _ & Hw). cbn beta in Hw.
      apply where_first_Ok in Hw. rewrite Hlen. apply nth_error_Some. congruence.
    - intro Hidx. rewrite Hlen in Hidx.
      destruct (nth_error u idx) as [i |] eqn:Hi; [| apply nth_error_None in Hi; lia].
      assert (Hin : In i (concat faces)) by (apply np_unique_In; eapply nth_error_In, Hi).
      apply in_concat in Hin. destruct Hin as (f & Hf & Hif).
      pose proof (mapM_Ok _ _ Ef) as Ef'.
      destruct (Forall2_In_l _ Ef' Hf) as (nf & Hnf & Hm).
      cbn beta in Hm. apply mapM_Ok in Hm.
      destruct (Forall2_In_l _ Hm Hif) as (idx' & Hidx' & Hw).
      cbn beta in Hw. apply where_first_Ok in Hw.
      assert (idx' = idx).
      { pose proof (NoDup_nth_error u) as [Hinj _].
        specialize (Hinj (sorted_NoDup (np_unique_sorted (concat faces)))).
        apply Hinj; [apply nth_error_Some; fold u; congruence | congruence]. }
      subst idx'. apply in_concat. exists nf. split; assumption. }
  assert (Hu : np_unique (concat newfaces) = seq 0 (length nc)).
  { apply sorted_ext; [apply np_unique_sorted | apply seq_sorted |].
    intro x. rewrite np_unique_In, Hids, in_seq. lia. }
  assert (Hrect : rectangular newfaces = rectangular faces).
  { apply mapM_Ok in Ef.
    apply (@rectangular_Forall2 _ _ (fun i idx => where_first u i = Ok idx)).
    eapply Forall2_impl; [| exact Ef]. intros f nf Hf. cbn beta in Hf.
    apply mapM_Ok in Hf. exact Hf. }
  assert (Hr : rectangular faces = true).
  { unfold deletePoints_rename in E.
    destruct (points_get_run false self) as [cs Ecs].
    rewrite (bind_Ok _ _ _ Ecs) in E.
    destruct (rectangular faces); [reflexivity | discriminate E]. }
  assert (Hp : has_polydata self' = true /\ exists d, self' = _update (Some nc) d).
  { unfold deletePoints_rename in E.
    destruct (points_get_run false self) as [cs Ecs].
    rewrite (bind_Ok _ _ _ Ecs) in E. rewrite Hr in E. cbn [negb] in E.
    unfold bind at 1 in E. unfold lift at 1 in E.
    rewrite Ecs in Ec. cbn [snd] in Ec. inversion Ec; subst cs.
    fold u in E. rewrite Ef in E.
    destruct u as [| i0 inds] eqn:Eu; [congruence |].
    unfold bind at 1 in E. unfold lift at 1 in E. rewrite En in E.
    unfold bind, modify, ret in E. inversion E; subst self'.
    split; [reflexivity | eexists; reflexivity]. }
  destruct Hp as [Hp [d Hself']].
  assert (Eget : points_get false self' = (self', Ok nc)).
  { unfold points_get, bind. rewrite polydata_run. cbn [andb]. rewrite Hd.
    replace (bind_polydata self') with self'
      by (rewrite Hself'; reflexivity).
    reflexivity. }
  exists (_update (Some nc) self'). split; [| cbn [_update dataset]; symmetry; exact Hd].
  unfold deletePoints_rename. rewrite (bind_Ok _ _ _ Eget).
  rewrite Hrect, Hr. cbn [negb]. rewrite Hu.
  assert (Ef2 : mapM (fun f => mapM (fun i => where_first (seq 0 (length nc)) i) f) newfaces
                = Ok newfaces).
  { apply mapM_id. intros nf Hnf. apply mapM_id. intros idx Hidx.
    assert (Hin : In idx (concat newfaces)) by (apply in_concat; exists nf; split; assumption).
    apply Hids in Hin. rewrite where_first_seq by lia. rewrite Nat.sub_0_r. reflexivity. }
  unfold bind at 1. unfold lift at 1. rewrite Ef2.
  assert (Hnc : nc <> []).
  { intros ->. subst u. destruct (np_unique (concat faces)); [congruence | discriminate Hlen]. }
  clear - Hnc. destruct nc as [| p0 nc']; [congruence |].
  pose proof (mapM_index_seq [] (p0 :: nc')) as Hm. cbn [app length seq] in Hm |- *.
  unfold bind at 1. unfold lift at 1. rewrite Hm.
  reflexivity.
Qed.

End RenumberingFacts.

(** ** smoothMLS3D *)

Section MLS3DFacts.
Context {F : Type} `{Scalar F} `{Numerics F} `{KDTree F}.

Lemma mapM_length {A B : Type} (f : A -> result B) (l : list A) (l' : list B) :
  mapM f l = Ok l' -> length l' = length l.
Proof.
  intro E. apply mapM_Ok in E. induction E; simpl; congruence.
Qed.

Lemma smoothMLS3D_loop_few (coords4d : list (point4 F)) (neighbours : Z)
  (todo : list (point4 F)) :
  kd_query_shape -> (neighbours <= 5)%Z ->
  forall (acc out : list (point4 F)),
    smoothMLS3D_loop coords4d neighbours todo acc = Ok out -> out = acc.
Proof.
  intros Hshape Hn. induction todo as [| mypt rest IH]; intros acc out E.
  - inversion E. reflexivity.
  - cbn [smoothMLS3D_loop] in E.
    destruct (kd_query coords4d neighbours mypt neighbours) as [ids | e] eqn:Eq;
      [| discriminate E].
    cbn [rbind] in E.
    destruct (closest_rows coords4d ids) as [[closest nc] | e] eqn:Ec; [| discriminate E].
    cbn [rbind] in E.
    assert (Hskip : (neighbours <=? Z.of_nat nc)%Z && (5 <? nc)%nat = false).
    { destruct ids as [i | l]; cbn [closest_rows] in Ec.
      - destruct (index coords4d i); [| discriminate Ec]. inversion Ec; subst.
        apply Bool.andb_false_r.
      - destruct (mapM _ l) as [rows | e] eqn:Em; [| discriminate Ec].
        inversion Ec; subst. apply mapM_length in Em.
        pose proof (Hshape _ _ _ _ _ Eq) as Hk.
        destruct (Nat.ltb_spec 5 (length closest)); [lia | apply Bool.andb_false_r]. }
    rewrite Hskip in E. apply IH, E.
Qed.

(** X22.  With [neighbours] at most 5 [smoothMLS3D] never returns: no
    neighbourhood passes the test [nc >= neighbours and nc > 5], no point is
    kept, and the slicing of the empty result raises IndexError when no
    earlier step has raised. *)
Theorem smoothMLS3D_few_neighbours_raises (meshs : list (Points F * F)) (neighbours : Z) :
  kd_query_shape -> (neighbours <= 5)%Z ->
  exists e : exn,
    smoothMLS3D meshs neighbours = Raise e /\
    forall coords4d out : list (point4 F),
      build_coords4d meshs = Ok coords4d -> meshs <> [] ->
      kd_build coords4d neighbours = Ok tt ->
      smoothMLS3D_loop coords4d neighbours coords4d [] = Ok out ->
      e = IndexError.
Proof.
  intros Hshape Hn. unfold smoothMLS3D.
  destruct (build_coords4d meshs) as [coords4d | e];
    [| eexists; split; [reflexivity | discriminate]].
  cbn [rbind]. destruct meshs as [| a rest];
    [eexists; split; [reflexivity | congruence] |].
  destruct (kd_build coords4d neighbours) as [[] | e] eqn:Ek;
    [| eexists; split; [reflexivity |];
       intros c4 out Ec _ Hk; inversion Ec; subst c4; rewrite Ek in Hk; discriminate Hk].
  cbn [rbind].
  destruct (smoothMLS3D_loop coords4d neighbours coords4d []) as [out | e] eqn:El;
    [| eexists; split; [reflexivity |];
       intros c4 out Ec _ _ Hl; inversion Ec; subst c4; rewrite El in Hl; discriminate Hl].
  cbn [rbind]. apply (smoothMLS3D_loop_few _ _ Hshape Hn) in El. subst out.
  eexists. split; reflexivity.
Qed.

Lemma build_coords4d_length (meshs : list (Points F * F)) (coords4d : list (point4 F)) :
  build_coords4d meshs = Ok coords4d ->
  length coords4d
  = fold_right (fun a n => (length (input_coords (OfPoints (fst a))) + n)%nat) 0%nat meshs /\
  Forall (fun a => input_coords (OfPoints (fst a)) <> []) meshs.
Proof.
  revert coords4d. induction meshs as [| [a time] rest IH]; intros coords4d E.
  - inversion E. split; [reflexivity | constructor].
  - cbn [build_coords4d] in E.
    destruct (input_coords (OfPoints a)) as [| p l] eqn:Ea; [discriminate E |].
    cbn [append_time rbind] in E.
    destruct (build_coords4d rest) as [more |]; [| discriminate E].
    cbn [rbind] in E. inversion E; subst. destruct (IH _ eq_refl) as [Hl Hall].
    split.
    + cbn [fold_right fst]. rewrite Ea. simpl.
      rewrite length_app, length_map, Hl. reflexivity.
    + constructor; [cbn [fst]; rewrite Ea; discriminate | exact Hall].
Qed.

Lemma smoothMLS3D_loop_length (coords4d : list (point4 F)) (neighbours : Z)
  (todo : list (point4 F)) :
  forall (acc out : list (point4 F)),
    smoothMLS3D_loop coords4d neighbours todo acc = Ok out ->
    length acc <= length out <= length acc + length todo.
Proof.
  induction todo as [| mypt rest IH]; intros acc out E.
  - inversion E. simpl. lia.
  - cbn [smoothMLS3D_loop] in E.
    destruct (kd_query coords4d neighbours mypt neighbours) as [ids | e]; [| discriminate E].
    cbn [rbind] in E.
    destruct (closest_rows coords4d ids) as [[closest nc] | e]; [| discriminate E].
    cbn [rbind] in E.
    destruct ((neighbours <=? Z.of_nat nc)%Z && (5 <? nc)%nat).
    + destruct (lstsq _ _) as [[[[m r] k] sv] | e]; [| discriminate E].
      cbn [rbind] in E.
      destruct m as [| m0 [| m1 [| m2 [| m3 [| ? ?]]]]]; try discriminate E.
      cbn [rbind] in E. apply IH in E. rewrite length_app in E. simpl in *. lia.
    + apply IH in E. simpl. lia.
Qed.

(** X23.  When [smoothMLS3D] returns, no input cloud was empty, the new
    object holds at least one point and at most as many as the input clouds
    together, at the identity pose, and there is one smoothed time for each
    of its points. *)
Theorem smoothMLS3D_output_count (meshs : list (Points F * F)) (neighbours : Z)
  (act : Points F) (ctimes : list F) :
  smoothMLS3D meshs neighbours = Ok (act, ctimes) ->
  exists ccoords3d : list (point F),
    dataset act = Some ccoords3d /\ IsIdentity act = true /\
    length ctimes = length ccoords3d /\
    0 < length ccoords3d
      <= fold_right (fun a n => (length (input_coords (OfPoints (fst a))) + n)%nat) 0%nat meshs /\
    meshs <> [] /\
    Forall (fun a => input_coords (OfPoints (fst a)) <> []) meshs.
Proof.
  intro E. unfold smoothMLS3D in E.
  destruct (build_coords4d meshs) as [coords4d | e] eqn:Eb; [| discriminate E].
  cbn [rbind] in E. destruct meshs as [| a rest]; [discriminate E |].
  destruct (kd_build coords4d neighbours) as [[] | e]; [| discriminate E].
  cbn [rbind] in E.
  destruct (smoothMLS3D_loop coords4d neighbours coords4d []) as [out | e] eqn:El;
    [| discriminate E].
  cbn [rbind] in E. destruct out as [| q out]; [discriminate E |].
  inversion E; subst. eexists. split; [reflexivity |]. split; [reflexivity |].
  destruct (build_coords4d_length _ Eb) as [Hl Hall].
  apply smoothMLS3D_loop_length in El. rewrite Hl in El.
  cbn [map length] in *. rewrite ?length_map. split; [reflexivity |].
  split; [simpl in *; lia |]. split; [discriminate | exact Hall].
Qed.

End MLS3DFacts.

(** ** Points.__init__: the formats of the coordinates *)

Section ConstructorFacts.
Context {F : Type} `{Scalar F}.

Lemma zip3_length (c0 c1 c2 : list F) :
  length c1 = length c0 -> length c2 = length c0 -> length (zip3 c0 c1 c2) = length c0.
Proof.
  revert c1 c2. induction c0 as [| x c0 IH]; intros [| y c1] [| z c2] H1 H2;
    try discriminate; [reflexivity |].
  cbn [zip3 length]. f_equal. apply IH; simpl in *; lia.
Qed.

(** X24.  [Points(...)] accepts both shapes, as its docstring says: for
    N > 3 the three sequences [all_x, all_y, all_z] give the same points as
    the N rows (x, y, z). *)
Theorem Points_init_both_shapes (xs ys zs : list F) :
  3 < length xs -> length ys = length xs -> length zs = length xs ->
  let rows := map row_of (zip3 xs ys zs) in
  Points_init_plist [xs; ys; zs] = Ok rows /\
  Points_init_plist rows = Ok rows /\
  length rows = length xs.
Proof.
  intros Hn Hy Hz rows.
  assert (Hlen : length rows = length xs).
  { unfold rows. rewrite length_map. apply zip3_length; assumption. }
  assert (Hrow : forall r, nth_error rows 0 = Some r -> length r = 3).
  { intros r Hr. apply nth_error_In in Hr. unfold rows in Hr.
    apply in_map_iff in Hr. destruct Hr as ([[x y] z] & <- & _). reflexivity. }
  split; [| split; [| exact Hlen]].
  - unfold Points_init_plist. cbn [length Nat.eqb index nth_error rbind].
    destruct (Nat.ltb_spec 3 (length xs)) as [_ | Hle]; [| lia].
    unfold np_stack3. rewrite Hy, Hz, !Nat.eqb_refl. cbn [andb rbind].
    fold rows. unfold index.
    destruct (nth_error rows 0) as [r |] eqn:Er.
    + cbn [rbind]. rewrite (Hrow r eq_refl). reflexivity.
    + apply nth_error_None in Er. lia.
  - unfold Points_init_plist. rewrite Hlen.
    destruct (Nat.eqb_spec (length xs) 3) as [E3 | _]; [lia |].
    destruct (Nat.eqb_spec (length xs) 2) as [E2 | _]; [lia |].
    cbn [rbind].
    destruct (Nat.eqb_spec (length xs) 0) as [E0 | _]; [lia |].
    unfold index. destruct (nth_error rows 0) as [r |] eqn:Er.
    + cbn [rbind]. rewrite (Hrow r eq_refl). reflexivity.
    + apply nth_error_None in Er. lia.
Qed.

Lemma append_zeros_rows (pts : list (F * F)) :
  append_zeros (map (fun p => [fst p; snd p]) pts)
  = Ok (map (fun p => (fst p, snd p, fzero)) pts).
Proof.
  induction pts as [| [x y] pts IH]; [reflexivity |].
  cbn [map append_zeros fst snd]. rewrite IH. reflexivity.
Qed.

(** X25.  Points given in two dimensions are placed in the plane z = 0:
    as rows (x, y), whatever their number, and for N > 3 also as the two
    sequences [all_x, all_y]. *)
Theorem Points_init_2d (pts : list (F * F)) :
  pts <> [] ->
  let rows := map (fun p => row_of (fst p, snd p, fzero)) pts in
  Points_init_plist (map (fun p => [fst p; snd p]) pts) = Ok rows /\
  (3 < length pts ->
   Points_init_plist [map fst pts; map snd pts] = Ok rows).
Proof.
  intros Hne rows.
  assert (Hrows : rows = map row_of (map (fun p => (fst p, snd p, fzero)) pts))
    by (unfold rows; rewrite map_map; reflexivity).
  split.
  - unfold Points_init_plist. rewrite length_map.
    destruct pts as [| [x y] pts]; [congruence |].
    set (l := (x, y) :: pts) in *.
    assert (E0 : index (map (fun p : F * F => [fst p; snd p]) l) 0 = Ok [x; y]) by reflexivity.
    rewrite E0. cbn [rbind length Nat.ltb Nat.leb].
    assert (Hpre : (if (length l =? 3)%nat then Ok (map (fun p : F * F => [fst p; snd p]) l)
                    else if (length l =? 2)%nat
                         then Ok (map (fun p : F * F => [fst p; snd p]) l)
                         else Ok (map (fun p : F * F => [fst p; snd p]) l))
                   = Ok (map (fun p : F * F => [fst p; snd p]) l))
      by (destruct (length l =? 3)%nat, (length l =? 2)%nat; reflexivity).
    rewrite Hpre. cbn [rbind]. rewrite E0. cbn [rbind length Nat.eqb].
    rewrite append_zeros_rows. cbn [rbind]. rewrite Hrows.
    unfold l. reflexivity.
  - intro Hn. unfold Points_init_plist.
    cbn [length Nat.eqb index nth_error rbind]. rewrite !length_map.
    destruct (Nat.ltb_spec 3 (length pts)) as [_ | Hle]; [| lia].
    unfold np_stack3. rewrite !length_map, repeat_length, !Nat.eqb_refl.
    cbn [andb rbind].
    assert (Ez : zip3 (map fst pts) (map snd pts) (repeat fzero (length pts))
                 = map (fun p => (fst p, snd p, fzero)) pts).
    { clear. induction pts as [| [x y] pts IH]; [reflexivity |].
      cbn [map length repeat zip3 fst snd]. rewrite IH. reflexivity. }
    rewrite Ez, <- Hrows.
    destruct pts as [| [x y] pts]; [congruence |]. reflexivity.
Qed.

End ConstructorFacts.

(** ** closestPoint as a query, and the trail *)

Section QueryFacts.
Context {F : Type} `{Scalar F} `{VtkLocator F}.

Lemma closestPoint_run (pt : point F) (N : Z) (radius : option F) (self : Points F) :
  let poly := effective_polydata self in
  closestPoint pt N radius self =
  if (1 <? N)%Z || truthy radius then
    let loc := match point_locator self with Some l => l | None => poly end in
    let vtklist := if (1 <? N)%Z then FindClosestNPoints loc N pt
                   else match radius with
                        | Some r => FindPointsWithinRadius loc r pt
                        | None => []
                        end in
    (set_point_locator loc (bind_polydata self),
     match vtklist with
     | [] => Ok (Many [])
     | _ :: _ => match poly with
                 | None => Raise AttributeError
                 | Some vpts => Ok (Many (map (fun vi => nth vi vpts vzero) vtklist))
                 end
     end)
  else
    let loc := match cell_locator self with Some l => l | None => poly end in
    (set_cell_locator loc (bind_polydata self), Ok (One (fst (FindClosestPoint loc pt)))).
Proof.
  intro poly. unfold closestPoint. unfold bind at 1. rewrite polydata_run.
  cbn [andb]. fold (effective_polydata self). fold poly.
  destruct self as [d hp ii m pl cl iv].
  destruct ((1 <? N)%Z || truthy radius).
  - unfold bind, get_self, modify, ret, raise. cbn.
    destruct pl as [l |]; cbn.
    + destruct (if (1 <? N)%Z then _ else _); [reflexivity |].
      destruct poly; reflexivity.
    + destruct (if (1 <? N)%Z then _ else _); [reflexivity |].
      destruct poly; reflexivity.
  - unfold bind, get_self, modify, ret. cbn.
    destruct cl as [l |]; reflexivity.
Qed.


End QueryFacts.

Section TrailFacts.
Context {F : Type} `{Scalar F} `{Less F}.

Lemma length_tl_app {A : Type} (l : list A) (x : A) : length (tl (l ++ [x])) = length l.
Proof. destruct l; simpl; [reflexivity |]. rewrite length_app. simpl. lia. Qed.

(** X26.  [updateTrail] keeps the number of positions of the trail, the
    segment size and the offset, whatever it returns; when it returns
    [self], the oldest position is dropped and the current one appended. *)
Theorem updateTrail_keeps_length (position : point F) (self : Trailed F) :
  let self' := fst (updateTrail position self) in
  trail_length (trailPoints self') = trail_length (trailPoints self) /\
  trailSegmentSize self' = trailSegmentSize self /\
  trailOffset self' = trailOffset self /\
  (snd (updateTrail position self) = Ok ReturnsSelf ->
   exists l : list (point F),
     trailPoints self = Positions l /\
     trailPoints self' = Positions (tl (l ++ [trail_position position self]))).
Proof.
  assert (Hmoved : forall (l : list (point F)) (t : option (Points F)),
             trailPoints self = Positions l ->
             let st := mkTrailed (Positions (tl (l ++ [trail_position position self])))
                                 (trailSegmentSize self) (trailOffset self) t in
             trail_length (trailPoints st) = trail_length (trailPoints self) /\
             trailSegmentSize st = trailSegmentSize self /\
             trailOffset st = trailOffset self /\
             exists l0 : list (point F),
               trailPoints self = Positions l0 /\
               trailPoints st = Positions (tl (l0 ++ [trail_position position self]))).
  { intros l t Et. cbn. rewrite Et. cbn. rewrite length_tl_app.
    repeat split; try reflexivity. exists l. split; reflexivity. }
  unfold updateTrail.
  destruct (trailPoints self) as [[| n] | l] eqn:Et; cbn [fst snd].
  - rewrite Et. repeat split; try reflexivity. discriminate.
  - cbn [trailPoints trail_length trailSegmentSize trailOffset].
    rewrite repeat_length. repeat split; try reflexivity. discriminate.
  - destruct (rev l) as [| lastpos r];
      [cbn [fst snd]; rewrite Et; repeat split; try reflexivity; discriminate |].
    destruct (fless _ _);
      [cbn [fst snd]; rewrite Et; repeat split; try reflexivity; discriminate |].
    assert (Hgen : forall (t : option (Points F)) (r0 : result trail_ret),
               let st := mkTrailed (Positions (tl (l ++ [trail_position position self])))
                                   (trailSegmentSize self) (trailOffset self) t in
               trail_length (trailPoints (fst (st, r0))) = trail_length (Positions l) /\
               trailSegmentSize (fst (st, r0)) = trailSegmentSize self /\
               trailOffset (fst (st, r0)) = trailOffset self /\
               (snd (st, r0) = Ok ReturnsSelf ->
                exists l0 : list (point F),
                  Positions l = Positions l0 /\
                  trailPoints (fst (st, r0))
                  = Positions (tl (l0 ++ [trail_position position self])))).
    { intros t r0. cbn. rewrite length_tl_app. repeat split; try reflexivity.
      intros _. exists l. split; reflexivity. }
    destruct (trail self) as [line |]; [| apply Hgen].
    destruct (polydata true line) as [line' [[vpts |] | e]]; try apply Hgen.
    destruct (IsIdentity line' || _); apply Hgen.
Qed.

Lemma spaced_repeat (seg : F) (p : point F) (n : nat) : spaced seg (repeat p n).
Proof.
  induction n as [| [| n] IH]; cbn [repeat spaced]; try exact I.
  split; [left; reflexivity | exact IH].
Qed.

Lemma spaced_tl (seg : F) (l : list (point F)) : spaced seg l -> spaced seg (tl l).
Proof.
  destruct l as [| a [| b l]]; cbn [tl spaced]; try (intros; exact I).
  intros [_ Hs]. exact Hs.
Qed.

Lemma spaced_app (seg : F) (l : list (point F)) (lastpos p : point F) :
  spaced seg (l ++ [lastpos]) ->
  fless (norm (vsub p lastpos)) seg = false ->
  spaced seg ((l ++ [lastpos]) ++ [p]).
Proof.
  intros Hs Hp. induction l as [| a l IH].
  - cbn. split; [right; exact Hp | exact I].
  - destruct l as [| b l].
    + cbn in Hs |- *. destruct Hs as [Ha _]. repeat split; [exact Ha | right; exact Hp].
    + cbn [app spaced] in Hs |- *. destruct Hs as [Ha Hs]. split; [exact Ha |].
      apply IH. exact Hs.
Qed.

(** X27.  The spacing of the trail is an invariant of [updateTrail]: if any
    two consecutive positions are the same point or at least
    [trailSegmentSize] apart, they still are after the call; a trail that
    was not yet set satisfies it after its first update. *)
Theorem updateTrail_spacing (position : point F) (self : Trailed F) :
  match trailPoints self with
  | Unset _ => True
  | Positions l => spaced (trailSegmentSize self) l
  end ->
  match trailPoints (fst (updateTrail position self)) with
  | Unset n => trailPoints self = Unset n
  | Positions l => spaced (trailSegmentSize self) l
  end.
Proof.
  unfold updateTrail.
  destruct (trailPoints self) as [[| n] | l] eqn:Et; cbn [fst]; intro Hs.
  - rewrite Et. reflexivity.
  - cbn [trailPoints]. apply spaced_repeat.
  - destruct (rev l) as [| lastpos r] eqn:Er; [cbn [fst]; rewrite Et; exact Hs |].
    destruct (fless _ _) eqn:Hl; [cbn [fst]; rewrite Et; exact Hs |].
    assert (El : l = rev r ++ [lastpos]).
    { rewrite <- (rev_involutive l), Er. reflexivity. }
    assert (Hnew : spaced (trailSegmentSize self)
                     (tl (l ++ [trail_position position self]))).
    { apply spaced_tl. rewrite El. apply spaced_app; [rewrite <- El; exact Hs | exact Hl]. }
    destruct (trail self) as [line |]; [| exact Hnew].
    destruct (polydata true line) as [line' [[vpts |] | e]]; try exact Hnew.
    destruct (IsIdentity line' || _); exact Hnew.
Qed.

End TrailFacts.

(** ** smoothMLS2D: the number of points; the setter's column format *)

Section Smoother2DFacts.
Context {F : Type} `{Scalar F} `{Numerics F} `{VtkLocator F}.

(** Without a radius the loop of [smoothMLS2D] skips no point. *)
Lemma smoothMLS2D_loop_no_skip (Ncp : Z) (radius : option F) (coords : list (point F)) :
  truthy radius = false ->
  forall (variances : list F) (newpts : list (point F)) (self self' : Points F)
         (variances' : list F) (newpts' : list (point F)),
    smoothMLS2D_loop Ncp radius coords variances newpts self
      = (self', Ok (variances', newpts')) ->
    length newpts' = length newpts + length coords.
Proof.
  intro Hr.
  induction coords as [| p rest IH]; intros variances newpts self self' vs' nl' E.
  - cbn in E. inversion E; subst. simpl. lia.
  - cbn [smoothMLS2D_loop] in E. unfold bind at 1 in E.
    destruct (closestPoint p Ncp radius self) as [st1 [[pts | q] | e]];
      [| discriminate E | discriminate E].
    rewrite Hr in E. cbn [andb] in E.
    unfold bind, lift in E.
    destruct (svd _) as [[[uu dd] vv] | e]; [| discriminate E].
    destruct (index vv 0) as [vv0 | e]; [| discriminate E].
    destruct (index vv 1) as [vv1 | e]; [| discriminate E].
    destruct (index dd 2) as [dd2 | e]; [| discriminate E].
    apply IH in E. rewrite length_app in E. simpl in *. lia.
Qed.

(** X12.  With no radius given [smoothMLS2D] keeps the number of points: every
    point is replaced by its projection; only in radius mode are points
    dropped. *)
Theorem smoothMLS2D_keeps_count (f : F) (radius : option F) (self self' : Points F) :
  truthy radius = false ->
  smoothMLS2D f radius self = (self', Ok Self) ->
  exists coords newpts : list (point F),
    snd (points_get true self) = Ok coords /\
    dataset self' = Some newpts /\
    length newpts = length coords.
Proof.
  intros Hr E. unfold smoothMLS2D in E.
  destruct (points_get_run true self) as [coords Ec].
  rewrite (bind_Ok _ _ _ Ec) in E.
  unfold bind at 1 in E. unfold lift at 1 in E.
  destruct (neighbourhood_size 100 (length coords) f radius) as [Ncp | e];
    [| discriminate E].
  unfold bind at 1 in E.
  destruct (smoothMLS2D_loop Ncp radius coords [] [] (bind_polydata self))
    as [st1 [[vs nl] | e]] eqn:El; [| discriminate E].
  destruct (store_Ok _ _ _ E) as [Hd _].
  exists coords, nl. rewrite Ec. split; [reflexivity |]. split; [exact Hd |].
  eapply smoothMLS2D_loop_no_skip in El; [| exact Hr]. simpl in El. exact El.
Qed.

(** One radius query over a cloud in which no point has 5 neighbours within
    the radius. *)
Lemma closestPoint_sparse (pt : point F) (N : Z) (r : F)
  (self : Points F) (vpts : list (point F)) :
  truthy (Some r) = true -> (1 <? N)%Z = false ->
  effective_polydata self = Some vpts ->
  (forall q : point F, length (FindPointsWithinRadius (Some vpts) r q) < 5) ->
  point_locator self = None \/ point_locator self = Some (Some vpts) ->
  exists (self' : Points F) (trgp : list (point F)),
    closestPoint pt N (Some r) self = (self', Ok (Many trgp)) /\
    length trgp < 5 /\
    effective_polydata self' = Some vpts /\
    point_locator self' = Some (Some vpts) /\
    dataset self' = dataset self.
Proof.
  intros Hr HN Hpoly Hfew Hloc.
  rewrite closestPoint_run. cbv zeta. rewrite Hr, HN, Hpoly. cbn [orb].
  assert (El : match point_locator self with Some l => l | None => Some vpts end = Some vpts)
    by (destruct Hloc as [-> | ->]; reflexivity).
  rewrite El. specialize (Hfew pt).
  destruct (FindPointsWithinRadius (Some vpts) r pt) as [| vi ids].
  - eexists _, _. split; [reflexivity |]. split; [simpl; lia |].
    split; [exact Hpoly |]. split; reflexivity.
  - eexists _, _. split; [reflexivity |]. split; [rewrite length_map; exact Hfew |].
    split; [exact Hpoly |]. split; reflexivity.
Qed.

Lemma smoothMLS2D_loop_all_skipped (Ncp : Z) (r : F)
  (vpts coords : list (point F)) (variances : list F) (newpts : list (point F)) :
  truthy (Some r) = true -> (1 <? Ncp)%Z = false ->
  (forall q : point F, length (FindPointsWithinRadius (Some vpts) r q) < 5) ->
  forall self : Points F,
    effective_polydata self = Some vpts ->
    point_locator self = None \/ point_locator self = Some (Some vpts) ->
    exists self' : Points F,
      smoothMLS2D_loop Ncp (Some r) coords variances newpts self
        = (self', Ok (variances, newpts)) /\
      dataset self' = dataset self.
Proof.
  intros Hr HN Hfew.
  induction coords as [| p rest IH]; intros self Hpoly Hloc.
  - exists self. split; reflexivity.
  - destruct (closestPoint_sparse p Ncp r self Hr HN Hpoly Hfew Hloc)
      as (st1 & trgp & Ec & Hl & Hpoly1 & Hloc1 & Hd1).
    destruct (IH st1 Hpoly1 (or_intror Hloc1)) as (self' & El & Hd).
    exists self'. split; [| congruence].
    cbn [smoothMLS2D_loop]. unfold bind at 1. rewrite Ec, Hr. cbn [andb].
    destruct (Nat.ltb_spec (length trgp) 5); [exact El | lia].
Qed.

(** X13.  In radius mode, when no point has 5 neighbours within the radius,
    [smoothMLS2D] skips every point and then raises IndexError from the
    replacement of the coordinates by the empty list, as [smoothMLS1D]
    does; the coordinates are kept and an empty [info["variances"]] is left
    behind. *)
Theorem smoothMLS2D_all_skipped_raises (f r : F) (self : Points F) (vpts : list (point F)) :
  truthy (Some r) = true ->
  effective_polydata self = Some vpts ->
  point_locator self = None ->
  (forall q : point F, length (FindPointsWithinRadius (Some vpts) r q) < 5) ->
  exists self' : Points F,
    smoothMLS2D f (Some r) self = (self', Raise IndexError) /\
    dataset self' = dataset self /\
    info_variances self' = Some [].
Proof.
  intros Hr Hpoly Hloc Hfew.
  assert (Ec : points_get true self = (bind_polydata self, Ok vpts)).
  { unfold points_get. unfold bind. rewrite polydata_run. cbn [andb].
    fold (effective_polydata self). rewrite Hpoly. reflexivity. }
  assert (HNcp : neighbourhood_size 100 (length vpts) f (Some r) = Ok 0%Z)
    by (unfold neighbourhood_size; rewrite Hr; reflexivity).
  pose proof (@smoothMLS2D_loop_all_skipped 0%Z r vpts vpts [] [] Hr eq_refl Hfew
                (bind_polydata self)) as Hloop.
  destruct Hloop as (st1 & El & Hd); [exact Hpoly | left; exact Hloc |].
  exists (set_info_variances [] st1).
  split; [| split; [exact Hd | reflexivity]].
  unfold smoothMLS2D. rewrite (bind_Ok _ _ _ Ec).
  unfold bind at 1. unfold lift at 1. rewrite HNcp.
  unfold bind at 1. rewrite El.
  apply (store_run [] [] st1).
Qed.

(** X14.  The setter reads three sequences that are not of length 3 as
    [all_x, all_y, all_z]: the N points (x, y, z) become the coordinates. *)
Theorem points_setter_columns (xs ys zs : list F) (transformed : bool)
  (self : Points F) (vpts : list (point F)) :
  length xs <> 3 -> length ys = length xs -> length zs = length xs ->
  has_polydata self = true -> dataset self = Some vpts ->
  exists self' : Points F,
    points (Some [xs; ys; zs]) transformed self = (self', Ok Self) /\
    dataset self' = Some (zip3 xs ys zs) /\
    length (zip3 xs ys zs) = length xs /\
    Matrix self' = identity4.
Proof.
  intros Hn Hy Hz Hp Hd. unfold points.
  cbn [index nth_error lift bind length Nat.eqb andb].
  destruct (Nat.eqb_spec (length xs) 3) as [E3 | _]; [contradiction |].
  cbn [negb rbind]. unfold np_stack3. rewrite Hy, Hz, !Nat.eqb_refl. cbn [andb].
  unfold bind, get_self, lift, modify, ret, raise. rewrite Hp, Hd. cbn [negb].
  eexists. split; [reflexivity |]. cbn [dataset Matrix SetData PokeMatrix].
  split; [reflexivity |]. split; [apply zip3_length; assumption | reflexivity].
Qed.

End Smoother2DFacts.

(** ** pointColors: the look-up table *)

Section LookupTableFacts.
Local Open Scope R_scope.







End LookupTableFacts.

(** ** Runs on concrete inputs *)

Section Runs.

Lemma fitSphere_rank_deficient_witness :
  @fitSphere float _ rank3_numerics (OfArray square4) = Ok None.
Proof.
  apply (proj1 (@fitSphere_rank_deficient float _ rank3_numerics (OfArray square4)
                  [0.5; 0.5; 0; 0]%float [] [] 3%Z eq_refl)).
  lia.
Defined.

Lemma fitEllipsoid_insufficient_points_witness :
  @fitEllipsoid float _ shape_numerics (OfArray (firstn 3 square4)) 0.5%float
  = ([Messages.not_enough_points], Ok None).
Proof.
  apply (@fitEllipsoid_insufficient_points float _ shape_numerics).
  simpl. lia.
Defined.

Lemma fitPlane_three_points_witness :
  exists pla : Plane float,
    @fitPlane float _ shape_numerics (OfArray (firstn 3 square4)) = Ok pla /\
    normal pla = (0, 0, 1)%float.
Proof.
  destruct (@fitPlane_three_points float _ shape_numerics (OfArray (firstn 3 square4))
              _ _ _ shape_numerics_shape (le_n 3) eq_refl)
    as (vv0 & vv1 & vv2 & s0 & s1 & s2 & lo & hi & Evh & Es & Elo & Ehi & Hfit).
  eexists. split; [exact Hfit |].
  inversion Evh; subst. vm_compute. reflexivity.
Defined.

Lemma smoothMLS1D_neighbourhood_size_witness :
  @neighbourhood_size float _ 10 5 1%float None = Ok 5%Z.
Proof.
  assert (En : ftrunc (of_Z (Z.of_nat (length cloud5)) * 1%float / of_Z 10)%S = Ok 0%Z)
    by (vm_compute; reflexivity).
  apply (proj1 (@smoothMLS1D_neighbourhood_size float _ svd321_numerics scan_locator
                  1%float None (new_Points cloud5) (bind_polydata (new_Points cloud5))
                  cloud5 0%Z eq_refl eq_refl En)).
Defined.

Lemma smoothMLS1D_all_skipped_raises_witness :
  exists self' : Points float,
    @smoothMLS1D float _ shape_numerics scan_locator 0.25%float None
      (new_Points (firstn 3 cloud5)) = (self', Raise IndexError) /\
    dataset self' = Some (firstn 3 cloud5) /\
    info_variances self' = Some [].
Proof.
  apply (@smoothMLS1D_all_skipped_raises float _ shape_numerics scan_locator
           0.25%float None (new_Points (firstn 3 cloud5)) (firstn 3 cloud5) 5%Z).
  - reflexivity.
  - reflexivity.
  - intros N r pt. cbn. rewrite !length_seq. split; lia.
  - vm_compute. reflexivity.
Defined.

Lemma variances_parallel_to_points_witness :
  let self' := fst (@smoothMLS1D float _ svd321_numerics scan_locator 1%float None
                      (new_Points cloud5)) in
  exists es : list (emitted float),
    dataset self' = Some (map (@output_of float) es) /\
    info_variances self' = Some (map (@residual_of float) es) /\
    length es <= 5.
Proof.
  intro self'.
  assert (E : @smoothMLS1D float _ svd321_numerics scan_locator 1%float None
                (new_Points cloud5) = (self', Ok (@Self float)))
    by (vm_compute; reflexivity).
  destruct (proj1 (@variances_parallel_to_points float _ svd321_numerics scan_locator
                     1%float None (new_Points cloud5) self') E)
    as (Ncp & coords & es & Ec & Hsub & _ & Hd & Hi & _).
  exists es. split; [exact Hd |]. split; [exact Hi |].
  apply subseq_length in Hsub. rewrite length_map in Hsub.
  vm_compute in Ec. inversion Ec; subst coords. exact Hsub.
Defined.

Lemma smoothMLS_output_count_witness :
  let self' := fst (@smoothMLS2D float _ svd321_numerics scan_locator 1%float
                      (Some 1%float) (new_Points cloud5)) in
  exists newpts : list (point float),
    dataset self' = Some newpts /\ 0 < length newpts <= 5.
Proof.
  intro self'.
  assert (E : @smoothMLS2D float _ svd321_numerics scan_locator 1%float (Some 1%float)
                (new_Points cloud5) = (self', Ok (@Self float)))
    by (vm_compute; reflexivity).
  destruct (@smoothMLS_output_count float _ svd321_numerics scan_locator
              1%float (Some 1%float) (new_Points cloud5) self' (or_intror E))
    as (coords & newpts & Ec & Hd & Hn).
  exists newpts. split; [exact Hd |].
  vm_compute in Ec. inversion Ec; subst coords. exact Hn.
Defined.

(** The setter reads [all_x, all_y, all_z] when the three sequences are not
    of length 3. *)
Example points_columns_format :
  dataset (fst (points (Some [[1; 2]; [3; 4]; [5; 6]]%float) true
                  (bind_polydata (new_Points cloud5))))
  = Some [(1, 3, 5); (2, 4, 6)]%float.
Proof. vm_compute. reflexivity. Qed.

(** A freshly built object has no [_polydata] yet: its setter raises. *)
Example points_setter_before_first_read :
  snd (points (Some [[1; 2; 3]]%float) true (new_Points cloud5))
  = Raise AttributeError.
Proof. vm_compute. reflexivity. Qed.

(** 200 points and f = 1.0 give neighbourhoods of 20; 100 points and
    f = 0.25 give the minimum, 5. *)
Example neighbourhood_sizes :
  neighbourhood_size (F:=float) 10 200 1%float None = Ok 20%Z /\
  neighbourhood_size (F:=float) 10 100 0.25%float None = Ok 5%Z /\
  neighbourhood_size (F:=float) 10 200 1%float (Some 0.5%float) = Ok 0%Z.
Proof. repeat split; vm_compute; reflexivity. Qed.

(** [smoothMLS1D] on the cloud of 5 points: each point is projected on the
    x direction the recorded SVD names, through the mean of the cloud. *)
Example smoothMLS1D_cloud5 :
  let run := @smoothMLS1D float _ svd321_numerics scan_locator 1%float None
               (new_Points cloud5) in
  snd run = Ok (@Self float) /\
  option_map (map (fun p => fst (fst p))) (dataset (fst run))
    = Some [0; 1; 2; 3; 4]%float /\
  info_variances (fst run) = Some [3; 3; 3; 3; 3]%float.
Proof. repeat split; vm_compute; reflexivity. Qed.

End Runs.

Section RunsOverR.
Local Open Scope R_scope.

Lemma residual2_nonneg (A : list (list R)) (f C : list R) : 0 <= residual2 A f C.
Proof.
  unfold residual2. induction (combine A f) as [| rf l IH]; cbn [map fold_right].
  - lra.
  - pose proof (pow2_ge_0 (row_dot (fst rf) C - snd rf)). lra.
Qed.

Lemma fitSphere_least_squares_witness :
  exists s : Sphere R,
    @fitSphere R _ unit_sphere_numerics (OfArray sphere4) = Ok (Some s) /\
    sphere_center s = (0, 0, 0) /\
    sphere_radius s = R_sqrt.sqrt (0 * 0 + 0 * 0 + 0 * 0 + 1).
Proof.
  assert (Hls : least_squares_solution (sphere_A sphere4) (sphere_f sphere4) [0; 0; 0; 1]).
  { intros C' _. rewrite residual2_sphere.
    replace (sphere_error sphere4 0 0 0 1) with 0
      by (unfold sphere_error, sphere4; cbn [fold_right]; ring).
    apply residual2_nonneg. }
  destruct (@fitSphere_least_squares unit_sphere_numerics (OfArray sphere4)
              [0; 0; 0; 1] [] [] 4%Z eq_refl (Z.le_refl 4) eq_refl Hls)
    as (c1 & c2 & c3 & c4 & s & HC & Hfit & Hc & Hr & _).
  inversion HC; subst c1 c2 c3 c4.
  exists s. split; [exact Hfit |]. split; [exact Hc | exact Hr].
Defined.

Lemma fitLine_segment_witness :
  exists l : Line R,
    @fitLine R _ collinear4_numerics (OfArray collinear4) = Ok l /\
    line_center l = mean collinear4.
Proof.
  assert (Hne : input_coords (OfArray collinear4) <> []) by discriminate.
  destruct (@fitLine_segment collinear4_numerics (OfArray collinear4)
              [] [R_sqrt.sqrt 350; 0; 0] (-3 / 5, 4 / 5, 0)
              [(4 / 5, 3 / 5, 0); (0, 0, 1)] Hne eq_refl)
    as (lo & hi & _ & _ & Hl & _ & _).
  eexists. split; [exact Hl | reflexivity].
Defined.

Lemma points_setter_resets_pose_witness :
  let self' := PokeMatrix identity4 (SetData [(1, 2, 3)] doubled_points) in
  points (Some [[1; 2; 3]]) true doubled_points = (self', Ok Self) /\
  Matrix self' = identity4 /\
  points None true self' = (self', Ok (Array [(1, 2, 3)])).
Proof.
  intro self'.
  assert (E : points (Some [[1; 2; 3]]) true doubled_points = (self', Ok Self))
    by exact (points_set_rows_run [(1, 2, 3)] true doubled_points).
  destruct (@points_setter_resets_pose [[1; 2; 3]] true doubled_points self' E)
    as (HM & _ & Ha).
  split; [exact E |]. split; [exact HM |]. apply Ha. reflexivity.
Defined.

Lemma radius_takes_precedence_witness :
  @smoothMLS1D R _ collinear4_numerics scan_locator 0 (Some 1) (new_Points collinear4)
  = @smoothMLS1D R _ collinear4_numerics scan_locator 2 (Some 1) (new_Points collinear4) /\
  @smoothMLS2D R _ collinear4_numerics scan_locator 0 (Some 1) (new_Points collinear4)
  = @smoothMLS2D R _ collinear4_numerics scan_locator 2 (Some 1) (new_Points collinear4).
Proof.
  apply (@radius_takes_precedence collinear4_numerics scan_locator 1 0 2
           (new_Points collinear4)).
  lra.
Defined.


Lemma amin_amax_bounding_box_witness :
  le3 (-9, -8, 0) (3, -4, 0) /\ le3 (3, -4, 0) (6, 12, 0).
Proof.
  apply (@amin_amax_bounding_box collinear4 (-9, -8, 0) (6, 12, 0)
           amin_collinear4 amax_collinear4 (3, -4, 0)).
  right. left. reflexivity.
Defined.

Lemma coplanar_sphere_system_dependent_witness :
  exists v1 v2 v3 v4 : R,
    (v1, v2, v3) <> (0, 0, 0) /\
    forall row : list R,
      In row (sphere_A [(0, 0, 0); (1, 0, 0); (0, 1, 0); (1, 1, 0)]) ->
      row_dot row [v1; v2; v3; v4] = 0.
Proof.
  apply (@coplanar_sphere_system_dependent [(0, 0, 0); (1, 0, 0); (0, 1, 0); (1, 1, 0)]).
  exists (0, 0, 1), 0. split.
  - intro E. inversion E. lra.
  - intros p [<- | [<- | [<- | [<- | []]]]]; cbn; lra.
Defined.

End RunsOverR.


(** ** Further runs on concrete inputs *)

Section RunsMore.

Lemma deletePoints_rename_keeps_geometry_witness :
  let run := deletePoints_rename [[0; 1; 3]; [1; 3; 4]]%nat (new_Points cloud5) in
  snd run = Ok [[0; 1; 2]; [1; 2; 3]]%nat /\
  exists newcoords : list (point float),
    dataset (fst run) = Some newcoords /\
    Forall2 (Forall2 (fun i idx => (idx < length newcoords)%nat /\
                                   nth_error newcoords idx = nth_error cloud5 i))
            [[0; 1; 3]; [1; 3; 4]]%nat [[0; 1; 2]; [1; 2; 3]]%nat.
Proof.
  intro run.
  assert (E : deletePoints_rename [[0; 1; 3]; [1; 3; 4]]%nat (new_Points cloud5)
              = (fst run, Ok [[0; 1; 2]; [1; 2; 3]]%nat))
    by (vm_compute; reflexivity).
  split; [unfold run; rewrite E; reflexivity |].
  destruct (@deletePoints_rename_keeps_geometry float _ _ _ _ _ E)
    as (coords & newcoords & Ec & Hd & Hall & _).
  exists newcoords. split; [exact Hd |].
  vm_compute in Ec. inversion Ec; subst coords. exact Hall.
Defined.

Lemma deletePoints_rename_compact_witness :
  let run := deletePoints_rename [[0; 1; 3]; [1; 3; 4]]%nat (new_Points cloud5) in
  exists newcoords : list (point float),
    dataset (fst run) = Some newcoords /\
    (0 < length newcoords <= 5)%nat /\
    forall idx : nat, (idx < length newcoords)%nat ->
                      In idx (concat [[0; 1; 2]; [1; 2; 3]]%nat).
Proof.
  intro run.
  assert (E : deletePoints_rename [[0; 1; 3]; [1; 3; 4]]%nat (new_Points cloud5)
              = (fst run, Ok [[0; 1; 2]; [1; 2; 3]]%nat))
    by (vm_compute; reflexivity).
  destruct (@deletePoints_rename_compact float _ _ _ _ _ E)
    as (coords & newcoords & Ec & Hd & Hlen & Hused).
  exists newcoords. split; [exact Hd |].
  vm_compute in Ec. inversion Ec; subst coords. split; [exact Hlen | exact Hused].
Defined.

Lemma deletePoints_rename_idempotent_witness :
  let self' := fst (deletePoints_rename [[0; 1; 3]; [1; 3; 4]]%nat (new_Points cloud5)) in
  exists self'' : Points float,
    deletePoints_rename [[0; 1; 2]; [1; 2; 3]]%nat self'
    = (self'', Ok [[0; 1; 2]; [1; 2; 3]]%nat) /\
    dataset self'' = dataset self'.
Proof.
  intro self'.
  assert (E : deletePoints_rename [[0; 1; 3]; [1; 3; 4]]%nat (new_Points cloud5)
              = (self', Ok [[0; 1; 2]; [1; 2; 3]]%nat))
    by (vm_compute; reflexivity).
  exact (@deletePoints_rename_idempotent float _ _ _ _ _ E).
Defined.

Lemma scan_kdtree_shape : @kd_query_shape float scan_kdtree.
Proof.
  intros data leafsize x k l. cbn.
  destruct (Z.ltb_spec k 1); [discriminate |].
  destruct (Z.eqb_spec k 1); [discriminate |].
  intro E. inversion E. rewrite length_seq. lia.
Qed.

Lemma smoothMLS3D_few_neighbours_raises_witness :
  @smoothMLS3D float _ time_numerics scan_kdtree [(new_Points cloud6, 0%float)] 5
  = Raise IndexError.
Proof.
  destruct (@smoothMLS3D_few_neighbours_raises float _ time_numerics scan_kdtree
              [(new_Points cloud6, 0%float)] 5%Z scan_kdtree_shape)
    as (e & E & He); [lia |].
  rewrite E. f_equal.
  assert (Ec : exists coords4d : list (point4 float),
             @build_coords4d float _ [(new_Points cloud6, 0%float)] = Ok coords4d /\
             @kd_build float scan_kdtree coords4d 5 = Ok tt /\
             exists out : list (point4 float),
               @smoothMLS3D_loop float _ time_numerics scan_kdtree coords4d 5 coords4d []
               = Ok out).
  { eexists. split; [vm_compute; reflexivity |]. split; [reflexivity |].
    eexists. vm_compute. reflexivity. }
  destruct Ec as (coords4d & Eb & Ek & out & El).
  apply (He coords4d out Eb); [discriminate | exact Ek | exact El].
Defined.

Lemma smoothMLS3D_output_count_witness :
  let run := @smoothMLS3D float _ time_numerics scan_kdtree
               [(new_Points cloud6, 1%float)] 6 in
  exists (act : Points float) (ctimes : list float) (ccoords3d : list (point float)),
    run = Ok (act, ctimes) /\
    dataset act = Some ccoords3d /\ length ctimes = length ccoords3d /\
    (0 < length ccoords3d <= 6)%nat.
Proof.
  intro run.
  destruct run as [[act ctimes] | e] eqn:E; [| vm_compute in E; discriminate E].
  destruct (@smoothMLS3D_output_count float _ time_numerics scan_kdtree
              [(new_Points cloud6, 1%float)] 6%Z act ctimes E)
    as (ccoords3d & Hd & _ & Hl & Hn & _).
  exists act, ctimes, ccoords3d. split; [reflexivity |].
  split; [exact Hd |]. split; [exact Hl |]. exact Hn.
Defined.

Lemma Points_init_both_shapes_witness :
  Points_init_plist [[0; 1; 2; 3]; [0; 0.5; 0; 0.5]; [0; 0; 0; 0]]%float
  = Ok [[0; 0; 0]; [1; 0.5; 0]; [2; 0; 0]; [3; 0.5; 0]]%float /\
  Points_init_plist [[0; 0; 0]; [1; 0.5; 0]; [2; 0; 0]; [3; 0.5; 0]]%float
  = Ok [[0; 0; 0]; [1; 0.5; 0]; [2; 0; 0]; [3; 0.5; 0]]%float.
Proof.
  destruct (@Points_init_both_shapes float _ [0; 1; 2; 3]%float [0; 0.5; 0; 0.5]%float
              [0; 0; 0; 0]%float) as (H1 & H2 & _);
    [simpl; lia | reflexivity | reflexivity |].
  split; [exact H1 | exact H2].
Defined.

Lemma Points_init_2d_witness :
  Points_init_plist [[1; 2]; [3; 4]; [5; 6]]%float
  = Ok [[1; 2; 0]; [3; 4; 0]; [5; 6; 0]]%float.
Proof.
  destruct (@Points_init_2d float _ [(1, 2); (3, 4); (5, 6)]%float) as [H1 _];
    [discriminate |].
  exact H1.
Defined.

Lemma updateTrail_spacing_witness :
  spaced 1%float [(1, 0, 0); (1, 0, 0); (3, 0, 0)]%float.
Proof.
  pose (self := mkTrailed (Positions [(1, 0, 0); (1, 0, 0); (1, 0, 0)]%float) 1%float None
                          (Some (new_Points cloud5))).
  assert (E : trailPoints (fst (updateTrail (3, 0, 0)%float self))
              = Positions [(1, 0, 0); (1, 0, 0); (3, 0, 0)]%float)
    by (vm_compute; reflexivity).
  assert (Hpre : spaced 1%float [(1, 0, 0); (1, 0, 0); (1, 0, 0)]%float)
    by (cbn; repeat split; left; reflexivity).
  pose proof (@updateTrail_spacing float _ _ (3, 0, 0)%float self Hpre) as Hs.
  rewrite E in Hs. exact Hs.
Defined.

Lemma updateTrail_keeps_length_witness :
  let self := mkTrailed (Positions [(1, 0, 0); (1, 0, 0); (1, 0, 0)]%float) 1%float None
                        (Some (new_Points cloud5)) in
  snd (updateTrail (3, 0, 0)%float self) = Ok ReturnsSelf /\
  exists l : list (point float),
    trailPoints self = Positions l /\
    trailPoints (fst (updateTrail (3, 0, 0)%float self))
    = Positions (tl (l ++ [(3, 0, 0)%float])).
Proof.
  intro self.
  assert (E : snd (updateTrail (3, 0, 0)%float self) = Ok ReturnsSelf)
    by (vm_compute; reflexivity).
  split; [exact E |].
  destruct (@updateTrail_keeps_length float _ _ (3, 0, 0)%float self) as (_ & _ & _ & Hs).
  exact (Hs E).
Defined.

Lemma smoothMLS2D_keeps_count_witness :
  let self' := fst (@smoothMLS2D float _ svd321_numerics scan_locator 1%float None
                      (new_Points cloud5)) in
  exists newpts : list (point float), dataset self' = Some newpts /\ length newpts = 5.
Proof.
  intro self'.
  assert (E : @smoothMLS2D float _ svd321_numerics scan_locator 1%float None
                (new_Points cloud5) = (self', Ok (@Self float)))
    by (vm_compute; reflexivity).
  destruct (@smoothMLS2D_keeps_count float _ svd321_numerics scan_locator
              1%float None (new_Points cloud5) self' eq_refl E)
    as (coords & newpts & Ec & Hd & Hn).
  exists newpts. split; [exact Hd |].
  vm_compute in Ec. inversion Ec; subst coords. exact Hn.
Defined.

Lemma smoothMLS2D_all_skipped_raises_witness :
  exists self' : Points float,
    @smoothMLS2D float _ shape_numerics scan_locator 0.25%float (Some 1%float)
      (new_Points (firstn 3 cloud5)) = (self', Raise IndexError) /\
    dataset self' = Some (firstn 3 cloud5) /\
    info_variances self' = Some [].
Proof.
  apply (@smoothMLS2D_all_skipped_raises float _ shape_numerics scan_locator
           0.25%float 1%float (new_Points (firstn 3 cloud5)) (firstn 3 cloud5)).
  - reflexivity.
  - reflexivity.
  - reflexivity.
  - intro q. cbn. lia.
Defined.

Lemma points_setter_columns_witness :
  exists self' : Points float,
    points (Some [[1; 2]; [3; 4]; [5; 6]]%float) true (bind_polydata (new_Points cloud5))
    = (self', Ok (@Self float)) /\
    dataset self' = Some [(1, 3, 5); (2, 4, 6)]%float.
Proof.
  destruct (@points_setter_columns float _ [1; 2]%float [3; 4]%float [5; 6]%float true
              (bind_polydata (new_Points cloud5)) cloud5)
    as (self' & E & Hd & _); try reflexivity; [simpl; lia |].
  exists self'. split; [exact E | exact Hd].
Defined.

(** Three colours and two opacities: the first two rows of the table take
    the first opacity, the third the second. *)
Example lookup_table_run :
  lookup_table [(1, 0, 0); (0, 1, 0); (0, 0, 1)]%float (AlphaList [0.25; 1]%float)
  = Ok [(1, 0, 0, 0.25); (0, 1, 0, 0.25); (0, 0, 1, 1)]%float.
Proof. vm_compute. reflexivity. Qed.

End RunsMore.

Section RunsMoreOverR.
Local Open Scope R_scope.

Lemma fitLine_segment_length_witness :
  exists l : Line R,
    @fitLine R _ collinear4_numerics (OfArray collinear4) = Ok l /\
    on_segment (line_p1 l) (line_p2 l) (mean collinear4) /\
    norm (vsub (6, 12, 0) (-9, -8, 0)) <= norm (vsub (line_p2 l) (line_p1 l)).
Proof.
  assert (Hne : input_coords (OfArray collinear4) <> []) by discriminate.
  assert (Hn : norm (-3 / 5, 4 / 5, 0) <> 0).
  { unfold norm. cbn. apply Rgt_not_eq. apply sqrt_lt_R0. lra. }
  destruct (@fitLine_segment_length collinear4_numerics (OfArray collinear4)
              [] [R_sqrt.sqrt 350; 0; 0] (-3 / 5, 4 / 5, 0)
              [(4 / 5, 3 / 5, 0); (0, 0, 1)] Hne eq_refl Hn)
    as (l & lo & hi & Hl & Elo & Ehi & Hseg & Hlen).
  cbn [input_coords] in Elo, Ehi, Hseg.
  rewrite amin_collinear4 in Elo. rewrite amax_collinear4 in Ehi.
  inversion Elo; inversion Ehi; subst lo hi.
  exists l. split; [exact Hl |]. split; [exact Hseg | exact Hlen].
Defined.

Lemma fitPlane_normal_orthogonal_witness :
  exists pla : Plane R,
    @fitPlane R _ collinear4_numerics (OfArray collinear4) = Ok pla /\
    dot (normal pla) (-3 / 5, 4 / 5, 0) = 0 /\ dot (normal pla) (4 / 5, 3 / 5, 0) = 0 /\
    norm (normal pla) = 1.
Proof.
  assert (Hfit : exists pla : Plane R,
             @fitPlane R _ collinear4_numerics (OfArray collinear4) = Ok pla).
  { unfold fitPlane. cbn [input_coords svd collinear4_numerics recorded_numerics
                          rbind index nth_error].
    rewrite amin_collinear4, amax_collinear4. cbn [rbind]. eexists. reflexivity. }
  destruct Hfit as [pla Hfit]. exists pla. split; [exact Hfit |].
  destruct (@fitPlane_normal_orthogonal collinear4_numerics (OfArray collinear4)
              [] [R_sqrt.sqrt 350; 0; 0] (-3 / 5, 4 / 5, 0) (4 / 5, 3 / 5, 0)
              [(0, 0, 1)] pla eq_refl Hfit) as (H0 & H1 & Hu).
  split; [exact H0 |]. split; [exact H1 |].
  apply Hu; cbn; lra.
Defined.

Lemma fitEllipsoid_axes_descending_witness :
  exists ell : Ellipsoid R,
    @fitEllipsoid R _ collinear4_numerics (OfArray collinear4) (1 / 2)
    = ([], Ok (Some ell)) /\
    0 <= vc ell <= vb ell /\ vb ell <= va ell.
Proof.
  destruct (@fitEllipsoid_axes_descending collinear4_numerics (OfArray collinear4) (1 / 2)
              [] (R_sqrt.sqrt 350) 0 0 (-3 / 5, 4 / 5, 0) (4 / 5, 3 / 5, 0) (0, 0, 1) [])
    as (ell & Hfit & _ & Hc & Hb).
  - cbn. lia.
  - reflexivity.
  - lra.
  - apply sqrt_pos.
  - cbn. lra.
  - exists ell. split; [exact Hfit |]. split; [exact Hc | exact Hb].
Defined.

Lemma mirror_involution_witness :
  exists self1 self2 : Points R,
    mirror AxisX doubled_points = (self1, Ok tt) /\
    mirror AxisX self1 = (self2, Ok tt) /\
    dataset self2 = Some [(1, 1, 1)].
Proof.
  destruct (@mirror_involution AxisX doubled_points eq_refl)
    as (self1 & self2 & E1 & E2 & Hd & _).
  exists self1, self2. split; [exact E1 |]. split; [exact E2 | exact Hd].
Defined.

Lemma mean_pair2 : mean pair2 = (0, 0, 0).
Proof.
  unfold mean, vsum, pair2. cbn [fold_left vadd vzero length vdiv].
  cbn. apply point_eq; lra.
Qed.

Lemma sq_dist_sum_pair2 : sq_dist_sum pair2 (mean pair2) = 2.
Proof. rewrite mean_pair2. unfold sq_dist_sum, pair2. cbn. ring. Qed.

Lemma normalize_unit_rms_witness :
  exists (self' : Points R) (coords' : list (point R)),
    normalize (new_Points pair2) = (self', Ok tt) /\
    dataset self' = Some coords' /\
    length coords' = 2%nat /\
    sq_dist_sum coords' (mean coords') / INR (length coords') = 1.
Proof.
  apply (@normalize_unit_rms (new_Points pair2) pair2 eq_refl eq_refl).
  rewrite sq_dist_sum_pair2. lra.
Defined.

Lemma normalize_idempotent_witness :
  exists self' self'' : Points R,
    normalize (new_Points pair2) = (self', Ok tt) /\
    normalize self' = (self'', Ok tt) /\
    dataset self'' = dataset self'.
Proof.
  apply (@normalize_idempotent (new_Points pair2) pair2 eq_refl eq_refl).
  rewrite sq_dist_sum_pair2. lra.
Defined.

Lemma averageSize_after_normalize_witness :
  exists v : R,
    snd (averageSize (fst (normalize (new_Points pair2)))) = Ok v /\ 0 <= v <= 1.
Proof.
  apply (@averageSize_after_normalize (new_Points pair2) pair2 eq_refl eq_refl).
  rewrite sq_dist_sum_pair2. lra.
Defined.

(** The two smoothers over one point, with a locator that reports it five
    times within any radius and the recorded SVD of [collinear4_numerics]. *)
Lemma smoothMLS1D_one_point_run :
  exists self' : Points R,
    @smoothMLS1D R _ collinear4_numerics first_point_locator 0 (Some 1)
      (new_Points [(1, 2, 3)]) = (self', Ok Self).
Proof.
  assert (Ht : truthy (Some 1) = true) by (apply truthy_positive; lra).
  unfold smoothMLS1D.
  rewrite (bind_Ok _ _ _ (points_get_world (new_Points [(1, 2, 3)]))).
  change (world_coords (new_Points [(1, 2, 3)])) with [(1, 2, 3)].
  unfold bind at 1. unfold lift at 1. unfold neighbourhood_size. rewrite Ht.
  unfold bind at 1. cbn [smoothMLS1D_loop]. unfold bind at 1.
  rewrite closestPoint_run. cbv zeta. rewrite Ht. cbn [Z.ltb Z.compare orb].
  unfold effective_polydata.
  cbn [bind_polydata new_Points point_locator dataset has_polydata IsIdentity Matrix
       cell_locator info_variances FindPointsWithinRadius first_point_locator
       orb negb map nth length Nat.ltb Nat.leb].
  unfold bind at 1. unfold lift at 1. cbn [svd collinear4_numerics recorded_numerics].
  unfold bind at 1. unfold lift at 1. cbn [index nth_error].
  unfold bind at 1. unfold lift at 1. cbn [index nth_error].
  unfold bind at 1. unfold lift at 1. cbn [index nth_error].
  unfold ret at 1. cbn [app].
  rewrite store_run.
  cbn [has_polydata set_point_locator bind_polydata dataset new_Points].
  eexists. reflexivity.
Qed.

Lemma smoothMLS2D_one_point_run :
  exists self' : Points R,
    @smoothMLS2D R _ collinear4_numerics first_point_locator 0 (Some 1)
      (new_Points [(1, 2, 3)]) = (self', Ok Self).
Proof.
  assert (Ht : truthy (Some 1) = true) by (apply truthy_positive; lra).
  unfold smoothMLS2D.
  rewrite (bind_Ok _ _ _ (points_get_world (new_Points [(1, 2, 3)]))).
  change (world_coords (new_Points [(1, 2, 3)])) with [(1, 2, 3)].
  unfold bind at 1. unfold lift at 1. unfold neighbourhood_size. rewrite Ht.
  unfold bind at 1. cbn [smoothMLS2D_loop]. unfold bind at 1.
  rewrite closestPoint_run. cbv zeta. rewrite Ht. cbn [Z.ltb Z.compare orb].
  unfold effective_polydata.
  cbn [bind_polydata new_Points point_locator dataset has_polydata IsIdentity Matrix
       cell_locator info_variances FindPointsWithinRadius first_point_locator
       orb negb andb map nth length Nat.ltb Nat.leb].
  unfold bind at 1. unfold lift at 1. cbn [svd collinear4_numerics recorded_numerics].
  unfold bind at 1. unfold lift at 1. cbn [index nth_error].
  unfold bind at 1. unfold lift at 1. cbn [index nth_error].
  unfold bind at 1. unfold lift at 1. cbn [index nth_error].
  unfold ret at 1. cbn [app].
  rewrite store_run.
  cbn [has_polydata set_point_locator bind_polydata dataset new_Points].
  eexists. reflexivity.
Qed.

Lemma smoothMLS2D_projects_on_plane_witness :
  exists (self' : Points R) (Ncp : Z) (coords : list (point R)) (es : list (emitted R)),
    snd (points_get true (new_Points [(1, 2, 3)])) = Ok coords /\
    subseq (map (@input_of R) es) coords /\
    dataset self' = Some (map (@output_of R) es) /\
    Forall (fun e : emitted R =>
              exists (st st' : Points R) (pts : list (point R)) (uu : list (list R))
                     (dd : list R) (vv0 vv1 : point R) (vh : list (point R)),
                @closestPoint R _ first_point_locator (input_of e) Ncp (Some 1) st
                = (st', Ok (Many pts)) /\
                @svd R collinear4_numerics (center_rows pts (mean pts))
                = Ok (uu, dd, vv0 :: vv1 :: vh) /\
                plane_projection (mean pts) (cross vv0 vv1) (input_of e) (output_of e))
           es.
Proof.
  destruct smoothMLS2D_one_point_run as [self' E].
  exists self'.
  exact (@smoothMLS2D_projects_on_plane collinear4_numerics first_point_locator
           0 (Some 1) (new_Points [(1, 2, 3)]) self' E).
Defined.

Lemma smoothMLS1D_projects_on_line_witness :
  exists (self' : Points R) (Ncp : Z) (coords : list (point R)) (es : list (emitted R)),
    snd (points_get true (new_Points [(1, 2, 3)])) = Ok coords /\
    subseq (map (@input_of R) es) coords /\
    dataset self' = Some (map (@output_of R) es) /\
    Forall (fun e : emitted R =>
              exists (st st' : Points R) (pts : list (point R)) (uu : list (list R))
                     (dd : list R) (vv0 : point R) (vh : list (point R)),
                @closestPoint R _ first_point_locator (input_of e) Ncp (Some 1) st
                = (st', Ok (Many pts)) /\
                @svd R collinear4_numerics (center_rows pts (mean pts))
                = Ok (uu, dd, vv0 :: vh) /\
                line_projection (mean pts) vv0 (input_of e) (output_of e))
           es.
Proof.
  destruct smoothMLS1D_one_point_run as [self' E].
  exists self'.
  exact (@smoothMLS1D_projects_on_line collinear4_numerics first_point_locator
           0 (Some 1) (new_Points [(1, 2, 3)]) self' E).
Defined.


End RunsMoreOverR.
